(** * Registry integrity and lifecycle tools: a shallow embedding

    The Python sources embedded here are
      - tools/schema_analyzer.py  (SchemaAnalyzer)
      - tools/schema_purger.py    (SchemaPurger)
      - tools/schema_checker.py   (SchemaHealthChecker)

    Python values are modelled by the type [value] (what [json.loads] and
    [response.json()] produce, and what the tools build: None, bool, int,
    float, str, list, dict).  Exceptions are explicit: a computation yields
    [Ok v] or [Raise e].  The network is an explicit state threaded through
    every call of [requests.get] / [requests.delete]. *)

From Stdlib Require Import ZArith List String Ascii Bool Lia.
From Stdlib Require Import DecimalString.
From Stdlib Require Import Floats.SpecFloat.
Import ListNotations.

#[local] Set Warnings "-register-all,-abstract-large-number".


Open Scope list_scope.
Open Scope string_scope.

(* ================================================================== *)
(** * Python values *)
(* ================================================================== *)

Module Py.

(** Python [float] is IEEE binary64; [spec_float] is the Standard Library's
    inductive description of such numbers (mantissa and exponent). *)
Definition float64 := spec_float.

Definition prec64 : Z := 53.
Definition emax64 : Z := 1024.

(** Hashable values, the keys of a [dict]. *)
Inductive pykey :=
| KNone
| KBool (b : bool)
| KInt (n : Z)
| KFloat (f : float64)
| KStr (s : string).

(** A [dict] keeps insertion order: it is an association list in which no two
    keys are equal (see [dict_set]). *)
Inductive value :=
| VNone
| VBool (b : bool)
| VInt (n : Z)
| VFloat (f : float64)
| VStr (s : string)
| VList (l : list value)
| VDict (d : list (pykey * value)).

Definition dict := list (pykey * value).

(** ** Exceptions

    Every exception below derives from Python's [Exception], so that
    [except Exception] catches each of them. *)
Inductive exn_kind :=
| Timeout            (* requests.exceptions.Timeout *)
| ConnectionError    (* requests.exceptions.ConnectionError, not a timeout *)
| HTTPError          (* raised by raise_for_status() *)
| RequestException   (* any other failure of the requests library *)
| JSONDecodeError    (* a ValueError *)
| TypeError
| KeyError
| AttributeError
| IndexError
| GenericException.  (* raise Exception(...) *)

Record exn := mkExn { exn_kind_of : exn_kind; exn_str : string }.

Inductive result (A : Type) :=
| Ok (a : A)
| Raise (e : exn).
Arguments Ok {A} a.
Arguments Raise {A} e.

Definition rbind {A B} (r : result A) (k : A -> result B) : result B :=
  match r with
  | Ok a => k a
  | Raise e => Raise e
  end.

Definition is_ok {A} (r : result A) : bool :=
  match r with Ok _ => true | Raise _ => false end.

Declare Scope py_scope.
Delimit Scope py_scope with py.
Notation "x <- c1 ;; c2" := (rbind c1 (fun x => c2))
  (at level 61, c1 at next level, right associativity) : py_scope.
Notation "' p <- c1 ;; c2" := (rbind c1 (fun x => let p := x in c2))
  (at level 61, p pattern, c1 at next level, right associativity) : py_scope.

(** [l.append(x)], as a new list. *)
Definition append {A} (l : list A) (x : A) : list A := (l ++ [x])%list.

(** A [for] loop whose body updates the loop state [s] and may raise. *)
Fixpoint for_each {A S} (body : A -> S -> result S) (items : list A) (s : S)
  : result S :=
  match items with
  | [] => Ok s
  | x :: items' => rbind (body x s) (for_each body items')
  end.

(** ** Numbers as text *)

(** [str(n)] of an int. *)
Definition str_int (n : Z) : string := NilZero.string_of_int (Z.to_int n).

Definition str_nat (n : nat) : string := str_int (Z.of_nat n).

(** ** Type names, as they appear in the interpreter's messages *)
Definition type_name (v : value) : string :=
  match v with
  | VNone => "NoneType"
  | VBool _ => "bool"
  | VInt _ => "int"
  | VFloat _ => "float"
  | VStr _ => "str"
  | VList _ => "list"
  | VDict _ => "dict"
  end.

Definition type_error (msg : string) : exn := mkExn TypeError msg.

(** ** Equality *)

Definition float_same (f g : float64) : bool :=
  match f, g with
  | S754_zero s, S754_zero t => Bool.eqb s t
  | S754_infinity s, S754_infinity t => Bool.eqb s t
  | S754_nan, S754_nan => true
  | S754_finite s m e, S754_finite t n e' =>
      Bool.eqb s t && Pos.eqb m n && Z.eqb e e'
  | _, _ => false
  end.

(** [x is y or x == y] on floats.  The json module decodes every [NaN] to
    one module-level object, and containers test identity before [==]. *)
Definition float_eqb (f g : float64) : bool :=
  float_same f g || SFeqb f g.

(** [f == n] for a float [f] and an int [n]: Python compares the exact
    values. *)
Definition float_eq_int (f : float64) (n : Z) : bool :=
  match f with
  | S754_zero _ => Z.eqb n 0
  | S754_finite s m e =>
      let m' := if s then Z.neg m else Z.pos m in
      if Z.leb 0 e then Z.eqb n (m' * 2 ^ e)
      else Z.eqb (n * 2 ^ (- e)) m'
  | _ => false
  end.

Definition b2z (b : bool) : Z := if b then 1%Z else 0%Z.

(** Equality of dictionary keys: [True == 1 == 1.0] are one key. *)
Definition key_eqb (a b : pykey) : bool :=
  match a, b with
  | KNone, KNone => true
  | KStr s, KStr t => String.eqb s t
  | KBool x, KBool y => Bool.eqb x y
  | KBool x, KInt n | KInt n, KBool x => Z.eqb (b2z x) n
  | KInt m, KInt n => Z.eqb m n
  | KFloat f, KFloat g => float_eqb f g
  | KFloat f, KInt n | KInt n, KFloat f => float_eq_int f n
  | KFloat f, KBool x | KBool x, KFloat f => float_eq_int f (b2z x)
  | _, _ => false
  end.

(** ** Dictionaries *)

Fixpoint dict_get (k : pykey) (d : dict) : option value :=
  match d with
  | [] => None
  | (k', v) :: d' => if key_eqb k' k then Some v else dict_get k d'
  end.

(** [d[k] = v]: an existing key keeps its place (and its key object), a new
    key goes last. *)
Fixpoint dict_set (k : pykey) (v : value) (d : dict) : dict :=
  match d with
  | [] => [(k, v)]
  | (k', v') :: d' =>
      if key_eqb k' k then (k', v) :: d' else (k', v') :: dict_set k v d'
  end.

Definition dict_mem (k : pykey) (d : dict) : bool :=
  match dict_get k d with Some _ => true | None => false end.

Definition key_value (k : pykey) : value :=
  match k with
  | KNone => VNone
  | KBool b => VBool b
  | KInt n => VInt n
  | KFloat f => VFloat f
  | KStr s => VStr s
  end.

(** [hash(v)]: lists and dicts are unhashable. *)
Definition to_key (v : value) : result pykey :=
  match v with
  | VNone => Ok KNone
  | VBool b => Ok (KBool b)
  | VInt n => Ok (KInt n)
  | VFloat f => Ok (KFloat f)
  | VStr s => Ok (KStr s)
  | VList _ | VDict _ =>
      Raise (type_error ("unhashable type: '" ++ type_name v ++ "'"))
  end.

(** [v == "s"] against a string literal. *)
Definition eq_str (v : value) (s : string) : bool :=
  match v with
  | VStr t => String.eqb t s
  | _ => false
  end.

(** [x is y or x == y], the test used by [in] on a list and by [==] on
    containers. *)
Fixpoint py_eqb (a b : value) {struct a} : bool :=
  match a, b with
  | VNone, VNone => true
  | VStr s, VStr t => String.eqb s t
  | VBool x, VBool y => Bool.eqb x y
  | VBool x, VInt n | VInt n, VBool x => Z.eqb (b2z x) n
  | VInt m, VInt n => Z.eqb m n
  | VFloat f, VFloat g => float_eqb f g
  | VFloat f, VInt n | VInt n, VFloat f => float_eq_int f n
  | VFloat f, VBool x | VBool x, VFloat f => float_eq_int f (b2z x)
  | VList l, VList l' =>
      (fix all2 (xs ys : list value) {struct xs} : bool :=
         match xs, ys with
         | [], [] => true
         | x :: xs', y :: ys' => py_eqb x y && all2 xs' ys'
         | _, _ => false
         end) l l'
  | VDict d, VDict d' =>
      Nat.eqb (List.length d) (List.length d') &&
      (fix sub (xs : dict) {struct xs} : bool :=
         match xs with
         | [] => true
         | (k, v) :: xs' =>
             match dict_get k d' with
             | Some v' => py_eqb v v' && sub xs'
             | None => false
             end
         end) d
  | _, _ => false
  end.

(** ** Built-in operations that can raise *)

(** A [str] is kept as its UTF-8 encoding, the bytes that a string literal
    of this file holds.  Equality, concatenation and the substring test are
    those of the encodings; the length, the iteration, the slices and the
    indexing of a [str] go by characters. *)

(** The byte [c] continues a character: [10xxxxxx]. *)
Definition is_continuation (c : ascii) : bool :=
  match c with
  | Ascii _ _ _ _ _ _ b6 b7 => b7 && negb b6
  end.

Definition continues (t : string) : bool :=
  match t with
  | String c _ => is_continuation c
  | EmptyString => false
  end.

(** The characters of a [str], each with its bytes: a byte opens a
    character unless it continues one. *)
Fixpoint characters (s : string) : list string :=
  match s with
  | EmptyString => []
  | String c s' =>
      match characters s' with
      | t :: rest =>
          if continues t then String c t :: rest
          else String c EmptyString :: t :: rest
      | [] => [String c EmptyString]
      end
  end.

(** The [str] of a list of characters. *)
Fixpoint join (l : list string) : string :=
  match l with
  | [] => EmptyString
  | t :: l' => t ++ join l'
  end.

(** [t] is one character: the bytes after the first continue it. *)
Fixpoint all_continue (t : string) : bool :=
  match t with
  | EmptyString => true
  | String c t' => is_continuation c && all_continue t'
  end.

Definition is_character (t : string) : bool :=
  match t with
  | String c t' => all_continue t'
  | EmptyString => false
  end.

(** [l] is a list of characters of which none but the first can begin with
    a continuation byte: the list that [characters] gives of [join l]. *)
Fixpoint separate (l : list string) : bool :=
  match l with
  | [] => true
  | t :: l' =>
      is_character t
      && match l' with
         | u :: _ => negb (continues u)
         | [] => true
         end
      && separate l'
  end.

(** [len(v)] *)
Definition py_len (v : value) : result nat :=
  match v with
  | VStr s => Ok (List.length (characters s))
  | VList l => Ok (List.length l)
  | VDict d => Ok (List.length d)
  | _ => Raise (type_error
                  ("object of type '" ++ type_name v ++ "' has no len()"))
  end.

(** The items of a loop over a [str]: its characters. *)
Definition chars (s : string) : list value := map VStr (characters s).

(** [for x in v]: the items a loop over [v] visits. *)
Definition py_iter (v : value) : result (list value) :=
  match v with
  | VList l => Ok l
  | VStr s => Ok (chars s)
  | VDict d => Ok (map (fun kv => key_value (fst kv)) d)
  | _ => Raise (type_error ("'" ++ type_name v ++ "' object is not iterable"))
  end.

(** [v.get(k, default)] with a string literal [k]. *)
Definition py_get (v : value) (k : string) (default : value) : result value :=
  match v with
  | VDict d =>
      Ok (match dict_get (KStr k) d with Some x => x | None => default end)
  | _ => Raise (mkExn AttributeError
                  ("'" ++ type_name v ++ "' object has no attribute 'get'"))
  end.

(** [v["k"]] with a string literal [k]. *)
Definition py_item (v : value) (k : string) : result value :=
  match v with
  | VDict d =>
      match dict_get (KStr k) d with
      | Some x => Ok x
      | None => Raise (mkExn KeyError ("'" ++ k ++ "'"))
      end
  | VList _ =>
      Raise (type_error "list indices must be integers or slices, not str")
  | VStr _ =>
      Raise (type_error "string indices must be integers, not 'str'")
  | _ => Raise (type_error
                  ("'" ++ type_name v ++ "' object is not subscriptable"))
  end.

(** [s in t] on strings: [s] occurs in [t]. *)
Fixpoint str_contains (s t : string) : bool :=
  String.prefix s t ||
  match t with
  | EmptyString => false
  | String _ t' => str_contains s t'
  end.

(** [x in v] *)
Definition py_in (x v : value) : result bool :=
  match v with
  | VList l => Ok (existsb (py_eqb x) l)
  | VDict d => rbind (to_key x) (fun k => Ok (dict_mem k d))
  | VStr t =>
      match x with
      | VStr s => Ok (str_contains s t)
      | _ => Raise (type_error
                      ("'in <string>' requires string as left operand, not "
                         ++ type_name x))
      end
  | _ => Raise (type_error
                  ("argument of type '" ++ type_name v ++ "' is not iterable"))
  end.

(** [v[:n]].  A dict cannot be sliced: the interpreter raises a TypeError
    (a KeyError from Python 3.12 on). *)
Definition py_slice_to (v : value) (n : nat) : result value :=
  match v with
  | VList l => Ok (VList (firstn n l))
  | VStr s => Ok (VStr (join (firstn n (characters s))))
  | VDict _ => Raise (type_error "unhashable type: 'slice'")
  | _ => Raise (type_error
                  ("'" ++ type_name v ++ "' object is not subscriptable"))
  end.

(** Truth value of [v] in a condition. *)
Definition py_truthy (v : value) : bool :=
  match v with
  | VNone => false
  | VBool b => b
  | VInt n => negb (Z.eqb n 0)
  | VFloat f => negb (float_eq_int f 0)
  | VStr s => negb (String.eqb s "")
  | VList l => match l with [] => false | _ => true end
  | VDict d => match d with [] => false | _ => true end
  end.

(** [v[0]] *)
Definition py_item0 (v : value) : result value :=
  match v with
  | VList (x :: _) => Ok x
  | VList [] => Raise (mkExn IndexError "list index out of range")
  | VStr s =>
      match characters s with
      | c :: _ => Ok (VStr c)
      | [] => Raise (mkExn IndexError "string index out of range")
      end
  | VDict d =>
      match dict_get (KInt 0) d with
      | Some x => Ok x
      | None => Raise (mkExn KeyError "0")
      end
  | _ => Raise (type_error
                  ("'" ++ type_name v ++ "' object is not subscriptable"))
  end.

(** A dict literal whose keys are string literals. *)
Definition lit (kvs : list (string * value)) : value :=
  VDict (map (fun kv => (KStr (fst kv), snd kv)) kvs).

(** [str(v)], as an f-string formats [v]: a [str] is itself, every other
    value is printed by [repr]. *)
Definition py_str (repr : value -> string) (v : value) : string :=
  match v with
  | VStr s => s
  | _ => repr v
  end.

(** [f < n] for a float [f] and an int [n], on the exact values. *)
Definition float_lt_int (f : float64) (n : Z) : bool :=
  match f with
  | S754_zero _ => (0 <? n)%Z
  | S754_infinity s => s
  | S754_nan => false
  | S754_finite s m e =>
      let m' := if s then Z.neg m else Z.pos m in
      if (0 <=? e)%Z then (m' * 2 ^ e <? n)%Z
      else (m' <? n * 2 ^ (- e))%Z
  end.

(** [v < n] for an int [n] *)
Definition py_lt_int (v : value) (n : Z) : result bool :=
  match v with
  | VInt m => Ok (m <? n)%Z
  | VBool b => Ok (b2z b <? n)%Z
  | VFloat f => Ok (float_lt_int f n)
  | _ => Raise (type_error
                  ("'<' not supported between instances of '"
                     ++ type_name v ++ "' and 'int'"))
  end.

End Py.

(* ================================================================== *)
(** * tools/schema_analyzer.py *)
(* ================================================================== *)

Module SchemaAnalyzer.
Import Py.

(** [try: body  except Exception as e: handler(e)] for code without other
    effects. *)
Definition try_except {A} (body : result A) (handler : exn -> result A)
  : result A :=
  match body with
  | Ok a => Ok a
  | Raise e => handler e
  end.

(** The table of [_convert_avro_type]. *)
Definition type_mapping : dict :=
  [ (KStr "string", lit [("type", VStr "string")]);
    (KStr "int", lit [("type", VStr "integer")]);
    (KStr "long", lit [("type", VStr "integer"); ("format", VStr "int64")]);
    (KStr "float", lit [("type", VStr "number"); ("format", VStr "float")]);
    (KStr "double", lit [("type", VStr "number"); ("format", VStr "double")]);
    (KStr "boolean", lit [("type", VStr "boolean")]);
    (KStr "bytes",
      lit [("type", VStr "string"); ("contentEncoding", VStr "base64")]);
    (KStr "null", lit [("type", VStr "null")]) ].

Definition string_node : value := lit [("type", VStr "string")].
Definition null_node : value := lit [("type", VStr "null")].

(** [d.get(k)], [d.get(k, default)] on a value known to be a dict. *)
Definition getd (d : dict) (k : string) (default : value) : value :=
  match dict_get (KStr k) d with
  | Some v => v
  | None => default
  end.

(** The test [logical in ["timestamp-millis", "timestamp-micros"]]. *)
Definition is_timestamp (logical : value) : bool :=
  eq_str logical "timestamp-millis" || eq_str logical "timestamp-micros".

(** [[t for t in avro_type if t != "null"]] *)
Definition non_null_types (avro_type : list value) : list value :=
  filter (fun t => negb (eq_str t "null")) avro_type.

(** [_convert_avro_type].  The two recursive calls of the source are on
    [non_null_types[0]] and on [avro_type.get("items")]; each is written as
    a local loop that finds that element and recurses on it, so that the
    recursion is structural. *)
Fixpoint _convert_avro_type (avro_type : value) : value :=
  match avro_type with
  | VStr s =>
      match dict_get (KStr s) type_mapping with
      | Some v => v
      | None => string_node
      end
  | VList l =>
      (* non_null_types = [t for t in avro_type if t != "null"] *)
      (fix first_non_null (ts : list value) : value :=
         match ts with
         | [] => null_node
         | t :: ts' =>
             if eq_str t "null" then first_non_null ts'
             else _convert_avro_type t
         end) l
  | VDict d =>
      let avro_complex_type := getd d "type" VNone in
      if eq_str avro_complex_type "enum" then
        lit [("type", VStr "string"); ("enum", getd d "symbols" (VList []))]
      else if eq_str avro_complex_type "array" then
        lit [("type", VStr "array");
             ("items",
               (fix items_of (kvs : dict) : value :=
                  match kvs with
                  | [] => string_node  (* _convert_avro_type(None) *)
                  | (k, v) :: kvs' =>
                      if key_eqb k (KStr "items") then _convert_avro_type v
                      else items_of kvs'
                  end) d)]
      else if eq_str avro_complex_type "record" then
        lit [("type", VStr "object")]
      else if dict_mem (KStr "logicalType") d then
        let logical := getd d "logicalType" VNone in
        if is_timestamp logical then
          lit [("type", VStr "string"); ("format", VStr "date-time")]
        else if eq_str logical "date" then
          lit [("type", VStr "string"); ("format", VStr "date")]
        else string_node
      else string_node
  | _ => string_node
  end.

(** The float literals [3.14] and [3.14159] as binary64 numbers. *)
Definition float_3_14 : float64 := S754_finite false 7070651414971679 (-51).
Definition float_3_14159 : float64 := S754_finite false 7074231776675438 (-51).

(** The table of [_generate_example_value]. *)
Definition examples : dict :=
  [ (KStr "string", VStr "example-string");
    (KStr "int", VInt 42);
    (KStr "long", VInt 1234567890);
    (KStr "float", VFloat float_3_14);
    (KStr "double", VFloat float_3_14159);
    (KStr "boolean", VBool true);
    (KStr "bytes", VStr "base64-encoded-data");
    (KStr "null", VNone) ].

(** [_generate_example_value].  [symbols[0]] raises when [symbols] is a
    non-empty value that cannot be indexed by 0, hence the [result]. *)
Fixpoint _generate_example_value (avro_type : value) : result value :=
  match avro_type with
  | VStr s =>
      Ok (match dict_get (KStr s) examples with
          | Some v => v
          | None => VStr "example"
          end)
  | VList l =>
      (* non_null = [t for t in avro_type if t != "null"] *)
      (fix first_non_null (ts : list value) : result value :=
         match ts with
         | [] => Ok VNone
         | t :: ts' =>
             if eq_str t "null" then first_non_null ts'
             else _generate_example_value t
         end) l
  | VDict d =>
      let avro_complex_type := getd d "type" VNone in
      if eq_str avro_complex_type "enum" then
        let symbols := getd d "symbols" (VList []) in
        if py_truthy symbols then py_item0 symbols else Ok (VStr "ENUM_VALUE")
      else if eq_str avro_complex_type "array" then Ok (VList [])
      else if eq_str avro_complex_type "record" then Ok (VDict [])
      else if dict_mem (KStr "logicalType") d then
        let logical := getd d "logicalType" VNone in
        if is_timestamp logical then Ok (VStr "2024-01-01T12:00:00Z")
        else if eq_str logical "date" then Ok (VStr "2024-01-01")
        else Ok (VStr "example")
      else Ok (VStr "example")
  | _ => Ok (VStr "example")
  end.

(** [isinstance(field_type, dict) and field_type.get("type") == "enum"] *)
Definition is_enum (field_type : value) : bool :=
  match field_type with
  | VDict d => eq_str (getd d "type" VNone) "enum"
  | _ => false
  end.

(** [props[k][key] = v].  In [convert_field] the entry [props[k]] has just
    been stored and is a dict, so the two failures are not reached. *)
Definition set_in (props : dict) (k : pykey) (key : string) (v : value)
  : result dict :=
  match dict_get k props with
  | Some (VDict p) => Ok (dict_set k (VDict (dict_set (KStr key) v p)) props)
  | Some x =>
      Raise (type_error ("'" ++ type_name x
                           ++ "' object does not support item assignment"))
  | None => Raise (mkExn KeyError "")
  end.

Definition conversion_error : value :=
  lit [("type", VStr "object");
       ("description", VStr "Schema conversion error")].

#[local] Open Scope py_scope.

(** One turn of the loop of [avro_to_asyncapi_schema] over the fields.  The
    loop state is [json_schema["properties"]] and [json_schema["required"]]. *)
Definition convert_field (field : value) (acc : dict * list value)
  : result (dict * list value) :=
  let properties := fst acc in
  let required := snd acc in
  field_name <- py_item field "name" ;;
  field_type <- py_item field "type" ;;
  let json_type := _convert_avro_type field_type in
  ty <- py_item json_type "type" ;;
  doc <- py_get field "doc" (VStr "") ;;
  k <- to_key field_name ;;
  let properties :=
    dict_set k (lit [("type", ty); ("description", doc)]) properties in
  properties <-
    (if is_enum field_type then
       symbols <- py_get field_type "symbols" (VList []) ;;
       set_in properties k "enum" symbols
     else Ok properties) ;;
  has_default <- py_in (VStr "default") field ;;
  if has_default : bool then
    default <- py_item field "default" ;;
    properties <- set_in properties k "default" default ;;
    Ok (properties, required)
  else
    Ok (properties, append required field_name).

(** One turn of the loop of [extract_message_examples]; the loop state is
    the dict [example]. *)
Definition example_field (field : value) (example : dict) : result dict :=
  field_name <- py_item field "name" ;;
  field_type <- py_item field "type" ;;
  has_default <- py_in (VStr "default") field ;;
  if has_default : bool then
    default <- py_item field "default" ;;
    k <- to_key field_name ;;
    Ok (dict_set k default example)
  else
    v <- _generate_example_value field_type ;;
    k <- to_key field_name ;;
    Ok (dict_set k v example).

(** [avro.get("fields", [])], as the list a [for] loop visits. *)
Definition fields_of (avro : value) : result (list value) :=
  fields <- py_get avro "fields" (VList []) ;;
  py_iter fields.

(** The [try] block of [avro_to_asyncapi_schema], after [json.loads]. *)
Definition schema_of (avro : value) : result value :=
  doc <- py_get avro "doc" (VStr "") ;;
  fields <- fields_of avro ;;
  acc <- for_each convert_field fields ([], []) ;;
  Ok (lit [("type", VStr "object");
           ("description", doc);
           ("properties", VDict (fst acc));
           ("required", VList (snd acc))]).

(** The [try] block of [extract_message_examples], after [json.loads]. *)
Definition example_of (avro : value) : result value :=
  fields <- fields_of avro ;;
  example <- for_each example_field fields [] ;;
  Ok (VDict example).

(** The key under which a field is stored: [hash(field["name"])]. *)
Definition field_key (field : value) : result pykey :=
  field_name <- py_item field "name" ;;
  to_key field_name.

(** Two fields whose names are one dictionary key. *)
Definition same_name (f g : value) : bool :=
  match field_key f, field_key g with
  | Ok a, Ok b => key_eqb a b
  | _, _ => false
  end.

(** No field has the name of an earlier one, as Avro requires of a
    record. *)
Fixpoint distinct_names (fields : list value) : bool :=
  match fields with
  | [] => true
  | f :: fields' =>
      negb (existsb (same_name f) fields') && distinct_names fields'
  end.

(** The field rule in the words of the specification: a field with a
    default has that default as its example, a field without one has the
    generated example of its type. *)
Definition has_default (field : value) : bool :=
  is_ok (py_item field "default").

Definition field_example (field : value) : result value :=
  if has_default field then py_item field "default"
  else field_type <- py_item field "type" ;;
       _generate_example_value field_type.

(** The field rule as the specification states it, of every field of
    [fields]: a field with a default is not in the "required" list of the
    schema and has its default for example; a field without a default is
    in "required" and has the generated example of its type. *)
Definition field_rule (fields : list value) (schema example : value)
  : Prop :=
  exists required ex,
    py_item schema "required" = Ok (VList required) /\
    example = VDict ex /\
    forall field, In field fields ->
      exists name k,
        py_item field "name" = Ok name /\ to_key name = Ok k /\
        if has_default field then
          exists default,
            py_item field "default" = Ok default /\
            ~ In name required /\
            dict_get k ex = Some default
        else
          In name required /\
          exists field_type v,
            py_item field "type" = Ok field_type /\
            _generate_example_value field_type = Ok v /\
            dict_get k ex = Some v.

(** The names of the fields without a default, in the order of the
    fields. *)
Fixpoint required_names (fields : list value) : list value :=
  match fields with
  | [] => []
  | f :: fields' =>
      match py_item f "name" with
      | Ok name =>
          if has_default f then required_names fields'
          else name :: required_names fields'
      | Raise _ => required_names fields'
      end
  end.

(** The entries the example loop adds: one for each field, in order. *)
Definition entries_of (fields : list value) (es : dict) : Prop :=
  Forall2 (fun f e => field_key f = Ok (fst e) /\ field_example f = Ok (snd e))
    fields es.

Section WithJson.

(** [json.loads], of Python's standard library: the parsed value, or the
    exception it raises on text that is not JSON. *)
Variable loads : string -> result value.

(** The calls of [logger.error] in the handlers write to the log only; the
    log is not part of the model. *)
Definition avro_to_asyncapi_schema (avro_schema_str : string) : result value :=
  try_except
    (avro <- loads avro_schema_str ;; schema_of avro)
    (fun e => Ok conversion_error).

Definition extract_message_examples (avro_schema_str : string) : result value :=
  try_except
    (avro <- loads avro_schema_str ;; example_of avro)
    (fun e => Ok (VDict [])).

End WithJson.

(** ** Notions used to relate the translation and the examples *)

(** [v] is an instance of the JSON Schema type named [ty]. *)
Definition instance_of (ty : string) (v : value) : bool :=
  match v with
  | VNone => String.eqb ty "null"
  | VBool _ => String.eqb ty "boolean"
  | VInt _ => String.eqb ty "integer" || String.eqb ty "number"
  | VFloat _ => String.eqb ty "number"
  | VStr _ => String.eqb ty "string"
  | VList _ => String.eqb ty "array"
  | VDict _ => String.eqb ty "object"
  end.

(** The symbols of an enum as Avro has them: a list of strings. *)
Definition symbols_ok (symbols : value) : bool :=
  match symbols with
  | VList l =>
      forallb (fun x => match x with VStr _ => true | _ => false end) l
  | _ => false
  end.

(** The enum that the translation of [avro_type] reaches, if it reaches
    one, has a list of strings for symbols.  A union is followed to its
    first member other than "null", as the translation does. *)
Fixpoint enums_ok (avro_type : value) : bool :=
  match avro_type with
  | VList l =>
      (fix first_non_null (ts : list value) : bool :=
         match ts with
         | [] => true
         | t :: ts' =>
             if eq_str t "null" then first_non_null ts' else enums_ok t
         end) l
  | VDict d =>
      if eq_str (getd d "type" VNone) "enum"
      then symbols_ok (getd d "symbols" (VList []))
      else true
  | _ => true
  end.

(** The fields without default have types whose enums are well formed. *)
Definition generated_fields_ok (fields : list value) : bool :=
  forallb
    (fun f =>
       has_default f ||
       match py_item f "type" with
       | Ok t => enums_ok t
       | Raise _ => true
       end) fields.

(** The dict that [avro_to_asyncapi_schema] stores for a field: the type
    name and the description, then the symbols of an enum, then the
    default. *)
Definition property_of (field : value) : result value :=
  field_type <- py_item field "type" ;;
  ty <- py_item (_convert_avro_type field_type) "type" ;;
  doc <- py_get field "doc" (VStr "") ;;
  let enum :=
    if is_enum field_type
    then match field_type with
         | VDict d => [("enum", getd d "symbols" (VList []))]
         | _ => []
         end
    else [] in
  let default :=
    match py_item field "default" with
    | Ok d => [("default", d)]
    | Raise _ => []
    end in
  Ok (lit ([("type", ty); ("description", doc)] ++ enum ++ default)%list).

(** [name] is the name of a property. *)
Definition names_property (properties : dict) (name : value) : Prop :=
  exists k, to_key name = Ok k /\ dict_mem k properties = true.

(** The seven type names of the translated nodes. *)
Definition json_types : list string :=
  ["string"; "integer"; "number"; "boolean"; "null"; "array"; "object"].

End SchemaAnalyzer.

(* ================================================================== *)
(** * The requests library and the registry behind it *)
(* ================================================================== *)

Module Http.
Import Py.

Inductive method := GET | DELETE.

(** One call [requests.get(url, auth=..., timeout=...)] or
    [requests.delete(...)]. *)
Record request := mkRequest {
  req_method : method;
  req_url : string;
  req_auth : string * string;
  req_timeout : Z }.

(** What the tools read of a [requests.Response]: [json] is the outcome of
    [response.json()], a value or the exception it raises. *)
Record response := mkResponse {
  status_code : Z;
  reason : string;
  url : string;
  text : string;
  json : result value }.

(** [response.raise_for_status()] *)
Definition raise_for_status (r : response) : result unit :=
  let code := status_code r in
  if (400 <=? code)%Z && (code <? 500)%Z then
    Raise (mkExn HTTPError
             (str_int code ++ " Client Error: " ++ reason r
                ++ " for url: " ++ url r))
  else if (500 <=? code)%Z && (code <? 600)%Z then
    Raise (mkExn HTTPError
             (str_int code ++ " Server Error: " ++ reason r
                ++ " for url: " ++ url r))
  else Ok tt.

(** The world outside the process: the registry reached over HTTP and the
    clock.  [send] answers one request, by a response or by the exception
    that [requests] raises, and moves the world on. *)
Record network := mkNetwork {
  world : Type;
  send : request -> world -> result response * world;
  now : world -> string   (* datetime.now(timezone.utc).isoformat() *) }.

(** ** Computations with state and exceptions

    A state change made before an exception is raised stays, as in Python. *)
Definition M (S A : Type) : Type := S -> result A * S.

Definition ret {S A} (a : A) : M S A := fun s => (Ok a, s).

Definition raise {S A} (e : exn) : M S A := fun s => (Raise e, s).

Definition bind {S A B} (m : M S A) (k : A -> M S B) : M S B :=
  fun s =>
    match m s with
    | (Ok a, s') => k a s'
    | (Raise e, s') => (Raise e, s')
    end.

(** A computation without effect on the state. *)
Definition pure {S A} (r : result A) : M S A := fun s => (r, s).

(** [try: body  except Exception as e: handler(e)] *)
Definition try_catch {S A} (body : M S A) (handler : exn -> M S A) : M S A :=
  fun s =>
    match body s with
    | (Ok a, s') => (Ok a, s')
    | (Raise e, s') => handler e s'
    end.

Declare Scope io_scope.
Delimit Scope io_scope with io.
Notation "x <- c1 ;; c2" := (bind c1 (fun x => c2))
  (at level 61, c1 at next level, right associativity) : io_scope.
Notation "c1 ;; c2" := (bind c1 (fun _ => c2))
  (at level 61, right associativity) : io_scope.

(** A [for] loop over [items] with loop state [acc]. *)
Fixpoint for_loop {S A B} (body : A -> B -> M S B) (items : list A) (acc : B)
  : M S B :=
  match items with
  | [] => ret acc
  | x :: items' => bind (body x acc) (for_loop body items')
  end.

(** [m] takes every state to a state related to it by [R], whether it
    returns or raises. *)
Definition respects {S A} (R : S -> S -> Prop) (m : M S A) : Prop :=
  forall s r s', m s = (r, s') -> R s s'.

(** [m] always returns a value. *)
Definition never_raises {S A} (m : M S A) : Prop :=
  forall s, exists a s', m s = (Ok a, s').

Section Net.

Variable N : network.

(** The state a tool runs in: the world, and the requests sent so far.  The
    list [sent] is a record kept by the model, the tools do not read it. *)
Record net_state := mkNet {
  the_world : world N;
  sent : list request }.

Definition http (r : request) : M net_state response :=
  fun s =>
    let (res, w') := send N r (the_world s) in
    (res, mkNet w' (append (sent s) r)).

Definition requests_get (url : string) (auth : string * string) (timeout : Z)
  : M net_state response :=
  http (mkRequest GET url auth timeout).

Definition requests_delete (url : string) (auth : string * string)
  (timeout : Z) : M net_state response :=
  http (mkRequest DELETE url auth timeout).

Definition utc_now_isoformat : M net_state string :=
  fun s => (Ok (now N (the_world s)), s).

End Net.

Arguments the_world {N} n.
Arguments sent {N} n.
Arguments mkNet {N} the_world sent.

(** ** Requests that carry an [Authorization] header

    [requests.get(url, headers={"Authorization": ...}, timeout=...)], as
    the inspector and the diagnostic send them. *)
Record header_request := mkHeaderRequest {
  hreq_url : string;
  hreq_authorization : string;
  hreq_timeout : Z }.

Record header_network := mkHeaderNetwork {
  hworld : Type;
  hsend : header_request -> hworld -> result response * hworld }.

Section HeaderNet.

Variable H : header_network.

Record hnet_state := mkHNet {
  the_hworld : hworld H;
  hsent : list header_request }.

Definition requests_get_headers (url authorization : string) (timeout : Z)
  : M hnet_state response :=
  fun s =>
    let r := mkHeaderRequest url authorization timeout in
    let (res, w') := hsend H r (the_hworld s) in
    (res, mkHNet w' (append (hsent s) r)).

End HeaderNet.

Arguments the_hworld {H} h.
Arguments hsent {H} h.
Arguments mkHNet {H} the_hworld hsent.

(** [endpoint.rstrip('/')] *)
Fixpoint rstrip_slash (s : string) : string :=
  match s with
  | EmptyString => EmptyString
  | String c s' =>
      let r := rstrip_slash s' in
      if Ascii.eqb c "/"%char && String.eqb r "" then EmptyString
      else String c r
  end.

(** A run of [n] slashes. *)
Fixpoint slashes (n : nat) : string :=
  match n with
  | O => EmptyString
  | S n' => String "/"%char (slashes n')
  end.

(** ** Floats of the reports *)

Definition float_of_Z (n : Z) : float64 :=
  binary_normalize prec64 emax64 n 0 false.

(** [n / 1024] for an int [n] *)
Definition div_1024 (n : nat) : float64 :=
  SFdiv prec64 emax64 (float_of_Z (Z.of_nat n)) (float_of_Z 1024).

(** [x > 100] *)
Definition gt_100 (x : float64) : bool :=
  SFltb (float_of_Z 100) x.

(** The integer nearest to [a / b], ties to even, for [0 <= a] and [0 < b]. *)
Definition round_half_even (a b : Z) : Z :=
  let q := (a / b)%Z in
  let r := (a mod b)%Z in
  match (2 * r ?= b)%Z with
  | Lt => q
  | Gt => (q + 1)%Z
  | Eq => if Z.even q then q else (q + 1)%Z
  end.

(** The hundredths of a non-negative float rounded to two decimals, on the
    exact value of the float. *)
Definition hundredths (x : float64) : Z :=
  match x with
  | S754_finite false m e =>
      if (0 <=? e)%Z then (Z.pos m * 2 ^ e * 100)%Z
      else round_half_even (Z.pos m * 100) (2 ^ (- e))
  | _ => 0%Z
  end.

(** [round(x, 2)] for the sizes above (finite and non-negative): the float
    nearest to the two-decimal rounding. *)
Definition round2 (x : float64) : float64 :=
  SFdiv prec64 emax64 (float_of_Z (hundredths x)) (float_of_Z 100).

Definition two_digits (n : Z) : string :=
  if (n <? 10)%Z then "0" ++ str_int n else str_int n.

(** [f"{x:.2f}"] for the sizes above. *)
Definition format_2f (x : float64) : string :=
  let h := hundredths x in
  str_int (h / 100) ++ "." ++ two_digits (h mod 100).

End Http.

(* ================================================================== *)
(** * tools/schema_purger.py *)
(* ================================================================== *)

Module SchemaPurger.
Import Py Http.
#[local] Open Scope io_scope.

(** The attributes set by [__init__]. *)
Record purger := mkPurger {
  endpoint : string;
  auth : string * string;
  timeout : Z }.

Definition init (endpoint api_key api_secret : string) : purger :=
  mkPurger (rstrip_slash endpoint) (api_key, api_secret) 10.

Section Purger.

Variable N : network.

(** Python's [repr], for the values formatted into URLs. *)
Variable repr : value -> string.

Variable self : purger.

#[local] Abbreviation IO := (M (net_state N)).
#[local] Abbreviation str := (py_str repr).

Definition get_all_subjects (include_deleted : bool) : IO value :=
  try_catch
    (let url := endpoint self ++ "/subjects" in
     let url :=
       if include_deleted then url ++ "?deleted=true" else url in
     response <- requests_get N url (auth self) (timeout self) ;;
     pure (raise_for_status response) ;;
     pure (json response))
    (fun e =>
       raise (mkExn GenericException
                ("Failed to get subjects: " ++ exn_str e))).

Definition get_subject_details (subject : value) : IO value :=
  try_catch
    (versions_resp <-
       requests_get N (endpoint self ++ "/subjects/" ++ str subject
                         ++ "/versions") (auth self) (timeout self) ;;
     versions <-
       pure (if (status_code versions_resp =? 200)%Z then json versions_resp
             else Ok (VList [])) ;;
     latest_resp <-
       requests_get N (endpoint self ++ "/subjects/" ++ str subject
                         ++ "/versions/latest") (auth self) (timeout self) ;;
     latest <-
       pure (if (status_code latest_resp =? 200)%Z then json latest_resp
             else Ok (VDict [])) ;;
     schema_str <- pure (py_get latest "schema" (VStr "")) ;;
     schema_len <- pure (py_len schema_str) ;;
     let size_kb := div_1024 schema_len in
     version_count <- pure (py_len versions) ;;
     latest_version <- pure (py_get latest "version" VNone) ;;
     schema_type <- pure (py_get latest "schemaType" (VStr "AVRO")) ;;
     id <- pure (py_get latest "id" VNone) ;;
     ret (lit [("subject", subject);
               ("versions", versions);
               ("version_count", VInt (Z.of_nat version_count));
               ("latest_version", latest_version);
               ("schema_type", schema_type);
               ("size_kb", VFloat (round2 size_kb));
               ("id", id)]))
    (fun e => ret (lit [("subject", subject); ("error", VStr (exn_str e))])).

(** The result dict of a failed deletion. *)
Definition failure (subject : value) (error : string) : value :=
  lit [("success", VBool false); ("subject", subject); ("error", VStr error)].

(** What both deletions do with the final response. *)
Definition delete_outcome (subject : value) (verb : string)
  (response : response) : result value :=
  if (status_code response =? 200)%Z then
    rbind (json response) (fun versions =>
    rbind (py_len versions) (fun n =>
    Ok (lit [("success", VBool true);
             ("subject", subject);
             ("deleted_versions", versions);
             ("message", VStr (verb ++ " " ++ str_nat n ++ " versions"))])))
  else
    Ok (failure subject
          ("HTTP " ++ str_int (status_code response) ++ ": " ++ text response)).

Definition soft_delete_subject (subject : value) : IO value :=
  try_catch
    (response <-
       requests_delete N (endpoint self ++ "/subjects/" ++ str subject)
         (auth self) (timeout self) ;;
     pure (delete_outcome subject "Soft-deleted" response))
    (fun e => ret (failure subject (exn_str e))).

Definition hard_delete_subject (subject : value) : IO value :=
  try_catch
    ((* First soft delete if not already deleted *)
     soft_delete_resp <-
       requests_delete N (endpoint self ++ "/subjects/" ++ str subject)
         (auth self) (timeout self) ;;
     (* Then hard delete *)
     response <-
       requests_delete N (endpoint self ++ "/subjects/" ++ str subject
                            ++ "?permanent=true") (auth self) (timeout self) ;;
     pure (delete_outcome subject "Permanently deleted" response))
    (fun e => ret (failure subject (exn_str e))).

(** The body of the loop of both bulk deletions: [acc] is
    [(results["successful"], results["failed"])]. *)
Definition record_outcome (delete_subject : value -> IO value)
  (subject : value) (acc : list value * list value)
  : IO (list value * list value) :=
  result <- delete_subject subject ;;
  success <- pure (py_item result "success") ;;
  if py_truthy success then ret (append (fst acc) result, snd acc)
  else ret (fst acc, append (snd acc) result).

(** [bulk_soft_delete] and [bulk_hard_delete] are one text in the source
    but for the deletion they call. *)
Definition bulk_delete (delete_subject : value -> IO value)
  (subjects : list value) : IO value :=
  timestamp <- utc_now_isoformat N ;;
  acc <- for_loop (record_outcome delete_subject) subjects ([], []) ;;
  let successful := fst acc in
  let failed := snd acc in
  ret (lit [("total", VInt (Z.of_nat (List.length subjects)));
            ("successful", VList successful);
            ("failed", VList failed);
            ("timestamp", VStr timestamp);
            ("success_count", VInt (Z.of_nat (List.length successful)));
            ("failure_count", VInt (Z.of_nat (List.length failed)))]).

Definition bulk_soft_delete (subjects : list value) : IO value :=
  bulk_delete soft_delete_subject subjects.

Definition bulk_hard_delete (subjects : list value) : IO value :=
  bulk_delete hard_delete_subject subjects.

(** [[s for s in soft_deleted if s not in active]] *)
Definition not_in_active (active : value) (s : value) (acc : list value)
  : result (list value) :=
  rbind (py_in s active) (fun found =>
  Ok (if found : bool then acc else append acc s)).

Definition purge_soft_deleted : IO value :=
  try_catch
    (soft_deleted <- get_all_subjects true ;;
     active <- get_all_subjects false ;;
     items <- pure (py_iter soft_deleted) ;;
     deleted_subjects <- pure (for_each (not_in_active active) items []) ;;
     match deleted_subjects with
     | [] =>
         ret (lit [("success", VBool true);
                   ("message", VStr "No soft-deleted subjects found");
                   ("count", VInt 0)])
     | _ => bulk_hard_delete deleted_subjects
     end)
    (fun e => ret (lit [("success", VBool false);
                        ("error", VStr (exn_str e))])).

(** The body of the loop of [get_subjects_by_filter]. *)
Definition filter_subject (min_versions : option Z) (pattern : option string)
  (subject : value) (filtered : list value) : IO (list value) :=
  let include := true in
  (* Filter by version count *)
  include <-
    match min_versions with
    | Some min_versions =>
        details <- get_subject_details subject ;;
        version_count <- pure (py_get details "version_count" (VInt 0)) ;;
        below <- pure (py_lt_int version_count min_versions) ;;
        ret (if below : bool then false else include)
    | None => ret include
    end ;;
  (* Filter by pattern (simple contains for now) *)
  include <-
    match pattern with
    | Some pattern =>
        if py_truthy (VStr pattern) then
          found <- pure (py_in (VStr pattern) subject) ;;
          ret (if found : bool then include else false)
        else ret include
    | None => ret include
    end ;;
  ret (if include : bool then append filtered subject else filtered).

Definition get_subjects_by_filter (min_versions : option Z)
  (pattern : option string) : IO (list value) :=
  try_catch
    (all_subjects <- get_all_subjects false ;;
     items <- pure (py_iter all_subjects) ;;
     for_loop (filter_subject min_versions pattern) items [])
    (fun e =>
       raise (mkExn GenericException
                ("Failed to filter subjects: " ++ exn_str e))).

Definition delete_subject_version (subject version : value) : IO value :=
  try_catch
    (response <-
       requests_delete N (endpoint self ++ "/subjects/" ++ str subject
                            ++ "/versions/" ++ str version)
         (auth self) (timeout self) ;;
     if (status_code response =? 200)%Z then
       ret (lit [("success", VBool true);
                 ("subject", subject);
                 ("version", version);
                 ("message", VStr ("Deleted version " ++ str version))])
     else
       ret (lit [("success", VBool false);
                 ("subject", subject);
                 ("version", version);
                 ("error",
                   VStr ("HTTP " ++ str_int (status_code response) ++ ": "
                           ++ text response))]))
    (fun e =>
       ret (lit [("success", VBool false);
                 ("subject", subject);
                 ("version", version);
                 ("error", VStr (exn_str e))])).

(** ** Notions used to state the properties of the purger *)

(** The two requests of a deletion, as [sent] records them. *)
Definition soft_request (subject : value) : request :=
  mkRequest DELETE (endpoint self ++ "/subjects/" ++ str subject)
    (auth self) (timeout self).

Definition permanent_request (subject : value) : request :=
  mkRequest DELETE (endpoint self ++ "/subjects/" ++ str subject
                      ++ "?permanent=true") (auth self) (timeout self).

(** [result["success"]], as the loop of a bulk deletion tests it. *)
Definition is_success (result : value) : bool :=
  match py_item result "success" with
  | Ok v => py_truthy v
  | Raise _ => false
  end.

(** A result dict of a deletion of [subject]. *)
Definition is_outcome (subject result : value) : Prop :=
  exists (b : bool) rest,
    result = lit (("success", VBool b) :: ("subject", subject) :: rest).

(** [attempts delete subjects s outcomes s']: from the state [s], [delete]
    is called on every subject in turn, and returns the [outcomes]. *)
Inductive attempts (delete_subject : value -> IO value)
  : list value -> net_state N -> list value -> net_state N -> Prop :=
| attempts_nil : forall s, attempts delete_subject [] s [] s
| attempts_cons : forall subject subjects s result s1 results s2,
    delete_subject subject s = (Ok result, s1) ->
    attempts delete_subject subjects s1 results s2 ->
    attempts delete_subject (subject :: subjects) s (result :: results) s2.

(** [report] is the result of a bulk deletion of [subjects] that ran from
    [s] to [s']: every subject was attempted, each outcome is filed under
    "successful" or "failed", and the counts are the lengths. *)
Definition accounts_for (delete_subject : value -> IO value)
  (subjects : list value) (s : net_state N) (report : value)
  (s' : net_state N) : Prop :=
  exists outcomes,
    attempts delete_subject subjects s outcomes s' /\
    Forall2 is_outcome subjects outcomes /\
    let successful := filter is_success outcomes in
    let failed := filter (fun r => negb (is_success r)) outcomes in
    report =
      lit [("total", VInt (Z.of_nat (List.length subjects)));
           ("successful", VList successful);
           ("failed", VList failed);
           ("timestamp", VStr (now N (the_world s)));
           ("success_count", VInt (Z.of_nat (List.length successful)));
           ("failure_count", VInt (Z.of_nat (List.length failed)))] /\
    (Z.of_nat (List.length successful) + Z.of_nat (List.length failed)
     = Z.of_nat (List.length subjects))%Z.

(** What [hard_delete_subject] reports, given the outcome of its
    permanent-delete call. *)
Definition final_outcome (subject : value) (r : result response) : value :=
  match r with
  | Raise e => failure subject (exn_str e)
  | Ok response =>
      match delete_outcome subject "Permanently deleted" response with
      | Ok v => v
      | Raise e => failure subject (exn_str e)
      end
  end.

(** The reading of [hard_delete_subject] under which the two calls are
    always made and the second one decides. *)
Definition two_calls_second_decides (subject : value) (s : net_state N)
  : Prop :=
  let (_, w1) := send N (soft_request subject) (the_world s) in
  let (r2, w2) := send N (permanent_request subject) w1 in
  hard_delete_subject subject s =
    (Ok (final_outcome subject r2),
     mkNet w2 (sent s ++ [soft_request subject;
                          permanent_request subject])%list).

(** The subjects of [soft_deleted] that are not in [active]. *)
Definition difference (soft_deleted active : list value) : list value :=
  filter (fun s => negb (existsb (py_eqb s) active)) soft_deleted.

(** The filter of the specification: the version count is at least
    [min_versions], when that is set, and the pattern occurs in the name,
    when that is set. *)
Definition passes (min_versions : option Z) (pattern : option string)
  (name : string) (version_count : Z) : bool :=
  match min_versions with
  | None => true
  | Some m => (m <=? version_count)%Z
  end
  &&
  match pattern with
  | None => true
  | Some p => str_contains p name
  end.

(** [details.get("version_count", 0)], an int: the length of the version
    list, or 0 when the details carry an error. *)
Definition count_in (details : value) : Z :=
  match py_get details "version_count" (VInt 0) with
  | Ok (VInt n) => n
  | _ => 0%Z
  end.

(** The version count seen for [subject] by a call of
    [get_subject_details] in the state [s]. *)
Definition version_count_seen (subject : value) (s : net_state N)
  : Z * net_state N :=
  match get_subject_details subject s with
  | (Ok details, s') => (count_in details, s')
  | (Raise _, s') => (0%Z, s')
  end.

(** The version counts that a filter with [min_versions] looks up, one for
    each subject in turn; without [min_versions] nothing is looked up and
    the count is not used. *)
Fixpoint version_counts (min_versions : option Z) (names : list string)
  (s : net_state N) : list Z * net_state N :=
  match names with
  | [] => ([], s)
  | name :: names' =>
      let (n, s1) :=
        match min_versions with
        | None => (0%Z, s)
        | Some _ => version_count_seen (VStr name) s
        end in
      let (counts, s2) := version_counts min_versions names' s1 in
      (n :: counts, s2)
  end.

(** The two requests of [get_subject_details]. *)
Definition versions_request (subject : value) : request :=
  mkRequest GET (endpoint self ++ "/subjects/" ++ str subject ++ "/versions")
    (auth self) (timeout self).

Definition latest_request (subject : value) : request :=
  mkRequest GET (endpoint self ++ "/subjects/" ++ str subject
                   ++ "/versions/latest") (auth self) (timeout self).

(** The version count that the answers of the registry give for [subject]
    from the world [w]: the number of items of the versions that are listed
    with status 200, when the latest version is answered too and what is
    read of both answers can be read; 0 when the versions are answered with
    another status; and 0 when a request or a reading fails.  The world
    moves on by the requests that were answered or failed. *)
Definition count_from_answers (subject : value) (w : world N)
  : Z * world N :=
  let (answer_1, w1) := send N (versions_request subject) w in
  match
    rbind answer_1 (fun versions_resp =>
      if (status_code versions_resp =? 200)%Z then json versions_resp
      else Ok (VList []))
  with
  | Raise _ => (0%Z, w1)
  | Ok versions =>
      let (answer_2, w2) := send N (latest_request subject) w1 in
      match
        rbind answer_2 (fun latest_resp =>
        rbind (if (status_code latest_resp =? 200)%Z then json latest_resp
               else Ok (VDict [])) (fun latest =>
        rbind (py_get latest "schema" (VStr "")) (fun schema_str =>
        rbind (py_len schema_str) (fun _ =>
        py_len versions))))
      with
      | Ok version_count => (Z.of_nat version_count, w2)
      | Raise _ => (0%Z, w2)
      end
  end.

(** The counts for the subjects of a listing, one after the other; without
    [min_versions] no request is sent and the count is not used. *)
Fixpoint counts_from_answers (min_versions : option Z) (names : list string)
  (w : world N) : list Z * world N :=
  match names with
  | [] => ([], w)
  | name :: names' =>
      let (n, w1) :=
        match min_versions with
        | None => (0%Z, w)
        | Some _ => count_from_answers (VStr name) w
        end in
      let (counts, w2) := counts_from_answers min_versions names' w1 in
      (n :: counts, w2)
  end.

(** The version count of [subject] in the registry: the number of versions
    that the registry lists for it. *)
Definition listed_versions (subject : value) (w : world N) : option Z :=
  match fst (send N (versions_request subject) w) with
  | Ok versions_resp =>
      if (status_code versions_resp =? 200)%Z then
        match rbind (json versions_resp) py_len with
        | Ok n => Some (Z.of_nat n)
        | Raise _ => None
        end
      else None
  | Raise _ => None
  end.

(** The reading of the filter under which the number of versions that the
    registry lists for a subject decides, with the pattern, whether the
    subject is kept. *)
Definition listed_versions_decide (min_versions : option Z)
  (pattern : option string) (name : string) (s : net_state N) : Prop :=
  forall n,
    listed_versions (VStr name) (the_world s) = Some n ->
    fst (filter_subject min_versions pattern (VStr name) [] s)
    = Ok (if passes min_versions pattern name n then [VStr name] else []).

(** The names kept by the filter, given the version count seen for each. *)
Definition kept (min_versions : option Z) (pattern : option string)
  (names : list string) (counts : list Z) : list string :=
  map fst
    (filter (fun nc => passes min_versions pattern (fst nc) (snd nc))
       (combine names counts)).

(** [pattern] is a literal substring of [name]. *)
Definition substring_of (pattern name : string) : Prop :=
  exists before after, name = before ++ pattern ++ after.

(** The request of [get_all_subjects]. *)
Definition listing_request (include_deleted : bool) : request :=
  mkRequest GET
    (endpoint self ++ "/subjects"
       ++ (if include_deleted then "?deleted=true" else ""))
    (auth self) (timeout self).

(** The request of [delete_subject_version]. *)
Definition version_request (subject version : value) : request :=
  mkRequest DELETE (endpoint self ++ "/subjects/" ++ str subject
                      ++ "/versions/" ++ str version)
    (auth self) (timeout self).

(** The report of a bulk deletion, from its parts. *)
Definition bulk_report (total : nat) (successful failed : list value)
  (timestamp : string) : value :=
  lit [("total", VInt (Z.of_nat total));
       ("successful", VList successful);
       ("failed", VList failed);
       ("timestamp", VStr timestamp);
       ("success_count", VInt (Z.of_nat (List.length successful)));
       ("failure_count", VInt (Z.of_nat (List.length failed)))].

(** The details of a subject whose two requests are answered, neither with
    status 200. *)
Definition no_details (subject : value) : value :=
  lit [("subject", subject);
       ("versions", VList []);
       ("version_count", VInt 0);
       ("latest_version", VNone);
       ("schema_type", VStr "AVRO");
       ("size_kb", VFloat (S754_zero false));
       ("id", VNone)].


End Purger.

End SchemaPurger.

(* ================================================================== *)
(** * tools/schema_checker.py *)
(* ================================================================== *)

Module SchemaHealthChecker.
Import Py Http.
#[local] Open Scope io_scope.

(** The attributes set by [__init__] that never change. *)
Record checker := mkChecker {
  endpoint : string;
  auth : string * string;
  timeout : Z }.

Definition init (endpoint api_key api_secret : string) : checker :=
  mkChecker (rstrip_slash endpoint) (api_key, api_secret) 10.

Section Checker.

Variable N : network.

(** Python's [repr], for the values formatted into URLs and messages. *)
Variable repr : value -> string.

Variable self : checker.

(** The state of a run: the network, and the two lists [self.issues] and
    [self.warnings] that the checks append to. *)
Record state := mkState {
  net : net_state N;
  issues : list string;
  warnings : list string }.

#[local] Abbreviation IO := (M state).
#[local] Abbreviation str := (py_str repr).

Definition fresh (w : world N) : state := mkState (mkNet w []) [] [].

Definition lift_net {A} (m : M (net_state N) A) : IO A :=
  fun s =>
    let (r, n') := m (net s) in
    (r, mkState n' (issues s) (warnings s)).

Definition get (url : string) : IO response :=
  lift_net (requests_get N url (auth self) (timeout self)).

(** [self.issues.append(x)], [self.warnings.append(x)] *)
Definition issues_append (x : string) : IO unit :=
  fun s => (Ok tt, mkState (net s) (append (issues s) x) (warnings s)).

Definition warnings_append (x : string) : IO unit :=
  fun s => (Ok tt, mkState (net s) (issues s) (append (warnings s) x)).

Definition get_issues : IO (list string) := fun s => (Ok (issues s), s).

(** A local list that the body appends to and that keeps what was appended
    when the body raises. *)
Definition lift_local {A T} (m : IO A) : M (state * T) A :=
  fun st =>
    let (r, s') := m (fst st) in
    (r, (s', snd st)).

Definition local_append {T} (x : T) : M (state * list T) unit :=
  fun st => (Ok tt, (fst st, append (snd st) x)).

(** Runs [m] on the local list [init] and yields the final list. *)
Definition with_local {T} (init : list T) (m : M (state * list T) unit)
  : IO (list T) :=
  fun s =>
    match m (s, init) with
    | (Ok _, (s', l)) => (Ok l, s')
    | (Raise e, (s', l)) => (Raise e, s')
    end.

Definition OK : value := VStr "OK".
Definition WARNING : value := VStr "WARNING".
Definition CRITICAL : value := VStr "CRITICAL".
Definition ERROR : value := VStr "ERROR".

(** The handler [except Exception as e] shared by six checks. *)
Definition error_result (e : exn) : IO value :=
  ret (lit [("status", ERROR); ("message", VStr (exn_str e))]).

Definition _check_connectivity : IO value :=
  try_catch
    (response <- get (endpoint self ++ "/subjects") ;;
     pure (raise_for_status response) ;;
     ret (lit [("status", OK);
               ("message", VStr "Schema Registry is reachable")]))
    (fun e =>
       let msg : string :=
         match exn_kind_of e with
         | Timeout => "Connection timeout (>10s)"
         | ConnectionError => "Connection error: " ++ exn_str e
         | _ => exn_str e
         end in
       issues_append ("Connectivity: " ++ msg) ;;
       ret (lit [("status", CRITICAL); ("message", VStr msg)])).

Definition _check_subject_count : IO value :=
  try_catch
    (response <- get (endpoint self ++ "/subjects") ;;
     pure (raise_for_status response) ;;
     subjects <- pure (json response) ;;
     count <- pure (py_len subjects) ;;
     let status := OK in
     let message : string := "Total subjects: " ++ str_nat count in
     status <-
       (if (1000 <? count)%nat then
          warnings_append ("High subject count: " ++ str_nat count) ;;
          ret WARNING
        else if (5000 <? count)%nat then
          issues_append ("Very high subject count: " ++ str_nat count) ;;
          ret CRITICAL
        else ret status) ;;
     ret (lit [("status", status);
               ("count", VInt (Z.of_nat count));
               ("message", VStr message)]))
    error_result.

Definition explosion_of (subject : value) (explosions : list value)
  : IO (list value) :=
  try_catch
    (versions_resp <-
       get (endpoint self ++ "/subjects/" ++ str subject ++ "/versions") ;;
     versions <- pure (json versions_resp) ;;
     version_count <- pure (py_len versions) ;;
     if (50 <? version_count)%nat then
       let explosions :=
         append explosions
           (lit [("subject", subject);
                 ("versions", VInt (Z.of_nat version_count))]) in
       let entry : string :=
         str subject ++ ": " ++ str_nat version_count ++ " versions" in
       (if (100 <? version_count)%nat then issues_append entry
        else warnings_append entry) ;;
       ret explosions
     else ret explosions)
    (fun e => ret explosions).

Definition _check_version_explosion : IO value :=
  try_catch
    (response <- get (endpoint self ++ "/subjects") ;;
     subjects <- pure (json response) ;;
     items <- pure (py_iter subjects) ;;
     explosions <- for_loop explosion_of items [] ;;
     match explosions with
     | _ :: _ =>
         issues_now <- get_issues ;;
         ret (lit [("status",
                     match issues_now with [] => WARNING | _ => CRITICAL end);
                   ("explosions", VList explosions);
                   ("message",
                     VStr ("Found " ++ str_nat (List.length explosions)
                             ++ " subjects with >50 versions"))])
     | [] =>
         ret (lit [("status", OK);
                   ("message", VStr "No version explosions detected")])
     end)
    error_result.

(** [subjects[:min(len(subjects), limit)]], as the list a loop visits. *)
Definition sample (subjects : value) (limit : nat) : result (list value) :=
  rbind (py_len subjects) (fun n =>
  let sample_size := Nat.min n limit in
  rbind (py_slice_to subjects sample_size) py_iter).

Definition large_schema_of (subject : value) (large_schemas : list value)
  : IO (list value) :=
  try_catch
    (schema_resp <-
       get (endpoint self ++ "/subjects/" ++ str subject
              ++ "/versions/latest") ;;
     schema_data <- pure (json schema_resp) ;;
     schema_str <- pure (py_get schema_data "schema" (VStr "")) ;;
     schema_len <- pure (py_len schema_str) ;;
     let size_kb := div_1024 schema_len in
     if gt_100 size_kb then  (* > 100KB *)
       let large_schemas :=
         append large_schemas
           (lit [("subject", subject);
                 ("size_kb", VFloat (round2 size_kb))]) in
       warnings_append (str subject ++ ": " ++ format_2f size_kb ++ " KB") ;;
       ret large_schemas
     else ret large_schemas)
    (fun e => ret large_schemas).

Definition _check_large_schemas : IO value :=
  try_catch
    (response <- get (endpoint self ++ "/subjects") ;;
     subjects <- pure (json response) ;;
     (* Limit to first 100 to avoid long checks *)
     items <- pure (sample subjects 100) ;;
     large_schemas <- for_loop large_schema_of items [] ;;
     match large_schemas with
     | _ :: _ =>
         ret (lit [("status", WARNING);
                   ("large_schemas", VList large_schemas);
                   ("message",
                     VStr ("Found " ++ str_nat (List.length large_schemas)
                             ++ " large schemas (>100KB)"))])
     | [] =>
         ret (lit [("status", OK);
                   ("message", VStr "No unusually large schemas")])
     end)
    error_result.

Definition none_compat_of (subject : value) (none_compat : list value)
  : IO (list value) :=
  try_catch
    (config_resp <- get (endpoint self ++ "/config/" ++ str subject) ;;
     if (status_code config_resp =? 200)%Z then
       config <- pure (json config_resp) ;;
       level <- pure (py_get config "compatibilityLevel" VNone) ;;
       ret (if eq_str level "NONE" then append none_compat subject
            else none_compat)
     else ret none_compat)
    (fun e => ret none_compat).

Definition _check_compatibility_config : IO value :=
  try_catch
    (global_resp <- get (endpoint self ++ "/config") ;;
     global_config <- pure (json global_resp) ;;
     response <- get (endpoint self ++ "/subjects") ;;
     subjects <- pure (json response) ;;
     (* Limit to 50 subjects to avoid long checks *)
     items <- pure (sample subjects 50) ;;
     none_compat <- for_loop none_compat_of items [] ;;
     match none_compat with
     | _ :: _ =>
         let message : string :=
           str_nat (List.length none_compat)
             ++ " subjects with NONE compatibility" in
         warnings_append message ;;
         ret (lit [("status", WARNING);
                   ("global_config", global_config);
                   ("none_compat_count",
                     VInt (Z.of_nat (List.length none_compat)));
                   ("message", VStr message)])
     | [] =>
         ret (lit [("status", OK);
                   ("global_config", global_config);
                   ("message", VStr "Compatibility configs look good")])
     end)
    error_result.

Definition _check_soft_deleted : IO value :=
  try_catch
    (response <- get (endpoint self ++ "/subjects?deleted=true") ;;
     deleted <- pure (json response) ;;
     count <- pure (py_len deleted) ;;
     if (0 <? count)%nat then
       warnings_append (str_nat count ++ " soft-deleted subjects") ;;
       first_10 <- pure (py_slice_to deleted 10) ;;
       ret (lit [("status", WARNING);
                 ("count", VInt (Z.of_nat count));
                 ("subjects", first_10);
                 ("message",
                   VStr (str_nat count ++ " subjects in soft-delete state"))])
     else
       ret (lit [("status", OK);
                 ("message", VStr "No soft-deleted subjects")]))
    error_result.

(** The separator of the entries of the orphaned-reference check, with the
    characters of the source text. *)
Definition arrow : string := " â†’ ".

(** The body of [for ref in references]; [orphaned] is the local list. *)
Definition check_ref (subject ref : value) : M (state * list value) unit :=
  ref_subject <- pure (py_item ref "subject") ;;
  (* Check if referenced subject exists *)
  check_resp <-
    lift_local (get (endpoint self ++ "/subjects/" ++ str ref_subject
                       ++ "/versions")) ;;
  if (status_code check_resp =? 404)%Z then
    local_append (lit [("subject", subject); ("missing_ref", ref_subject)]) ;;
    lift_local
      (issues_append (str subject ++ arrow ++ str ref_subject
                        ++ " (missing)"))
  else ret tt.

Definition orphaned_of (subject : value) (_ : unit)
  : M (state * list value) unit :=
  try_catch
    (schema_resp <-
       lift_local (get (endpoint self ++ "/subjects/" ++ str subject
                          ++ "/versions/latest")) ;;
     schema_data <- pure (json schema_resp) ;;
     references <- pure (py_get schema_data "references" (VList [])) ;;
     refs <- pure (py_iter references) ;;
     for_loop (fun ref _ => check_ref subject ref) refs tt)
    (fun e => ret tt).

Definition _check_orphaned_references : IO value :=
  try_catch
    (response <- get (endpoint self ++ "/subjects") ;;
     subjects <- pure (json response) ;;
     (* Limit to 50 subjects *)
     items <- pure (sample subjects 50) ;;
     orphaned <- with_local [] (for_loop orphaned_of items tt) ;;
     match orphaned with
     | _ :: _ =>
         ret (lit [("status", CRITICAL);
                   ("orphaned", VList orphaned);
                   ("message",
                     VStr ("Found " ++ str_nat (List.length orphaned)
                             ++ " broken references"))])
     | [] =>
         ret (lit [("status", OK);
                   ("message", VStr "No orphaned references")])
     end)
    error_result.

Definition now_isoformat : IO string := lift_net (utc_now_isoformat N).

(** [results["summary"]["status"]] *)
Definition summary_status (issues warnings : list string) : value :=
  match issues with
  | _ :: _ => CRITICAL
  | [] => match warnings with
          | _ :: _ => WARNING
          | [] => OK
          end
  end.

(** The summary holds the two lists themselves; the model gives their
    contents at the time [check_all] returns. *)
Definition summary : IO value :=
  fun s =>
    (Ok (lit [("total_issues", VInt (Z.of_nat (List.length (issues s))));
              ("total_warnings", VInt (Z.of_nat (List.length (warnings s))));
              ("issues", VList (map VStr (issues s)));
              ("warnings", VList (map VStr (warnings s)));
              ("status", summary_status (issues s) (warnings s))]),
     s).

(** [check_all].  The calls of [print] write to the standard output only;
    the output is not part of the model. *)
Definition check_all : IO value :=
  timestamp <- now_isoformat ;;
  (* 1. Connectivity *)
  connectivity <- _check_connectivity ;;
  (* 2. Subject count *)
  subject_count <- _check_subject_count ;;
  (* 3. Version explosion *)
  version_explosion <- _check_version_explosion ;;
  (* 4. Large schemas *)
  large_schemas <- _check_large_schemas ;;
  (* 5. Compatibility config *)
  compatibility <- _check_compatibility_config ;;
  (* 6. Soft-deleted subjects *)
  soft_deleted <- _check_soft_deleted ;;
  (* 7. Orphaned references *)
  orphaned_refs <- _check_orphaned_references ;;
  (* Summary *)
  summary <- summary ;;
  ret (lit [("timestamp", VStr timestamp);
            ("endpoint", VStr (endpoint self));
            ("checks",
              lit [("connectivity", connectivity);
                   ("subject_count", subject_count);
                   ("version_explosion", version_explosion);
                   ("large_schemas", large_schemas);
                   ("compatibility", compatibility);
                   ("soft_deleted", soft_deleted);
                   ("orphaned_refs", orphaned_refs)]);
            ("summary", summary)]).



(** ** Notions used to state the properties of the checker *)

(** From [s] to [s'] the two lists have only been appended to. *)
Definition extends (s s' : state) : Prop :=
  (exists more, issues s' = (issues s ++ more)%list) /\
  (exists more, warnings s' = (warnings s ++ more)%list).

(** From [s] to [s'] the two lists are unchanged. *)
Definition same_lists (s s' : state) : Prop :=
  issues s' = issues s /\ warnings s' = warnings s.

(** The same on a state with a local list [l]: the local list has only been
    appended to, and if it has not grown the two lists of the checker are
    unchanged. *)
Definition grows {T} (st st' : state * list T) : Prop :=
  exists more,
    snd st' = (snd st ++ more)%list /\
    (more = [] -> same_lists (fst st) (fst st')).

Definition extends_local {T} (st st' : state * T) : Prop :=
  extends (fst st) (fst st').

(** From [s] to [s'] at most [n] requests have been sent. *)
Definition sends_at_most (n : nat) (s s' : state) : Prop :=
  exists requests,
    sent (net s') = (sent (net s) ++ requests)%list /\
    (List.length requests <= n)%nat.

(** The request of the listing of the subjects and of the versions of a
    subject. *)
Definition subjects_request : request :=
  mkRequest GET (endpoint self ++ "/subjects") (auth self) (timeout self).

Definition versions_request (subject : value) : request :=
  mkRequest GET (endpoint self ++ "/subjects/" ++ str subject ++ "/versions")
    (auth self) (timeout self).

(** The text that the connectivity check gives for an exception. *)
Definition connectivity_message (e : exn) : string :=
  match exn_kind_of e with
  | Timeout => "Connection timeout (>10s)"
  | ConnectionError => "Connection error: " ++ exn_str e
  | _ => exn_str e
  end.

(** The connectivity request fails: it raises, or it is answered with an
    error status. *)
Definition unreachable (s : state) (e : exn) : Prop :=
  exists w,
    send N subjects_request (the_world (net s)) = (Raise e, w) \/
    exists response,
      send N subjects_request (the_world (net s)) = (Ok response, w) /\
      raise_for_status response = Raise e.

(** A computation that returns a value, whatever the state it runs in. *)
Definition returns {A} (m : IO A) : Prop :=
  forall s, exists a s', m s = (Ok a, s').

End Checker.

End SchemaHealthChecker.

(* ================================================================== *)
(** * tools/confluent_inspector.py *)
(* ================================================================== *)

Module ConfluentInspector.
Import Py Http.
#[local] Open Scope io_scope.

(** The attributes set by [__init__]: the URL is the value of the
    configuration, a [str] or [None]. *)
Record inspector := mkInspector {
  sr_url : value;
  sr_auth : string }.

Section Inspector.

Variable H : header_network.

(** Python's [repr], for the values formatted into URLs. *)
Variable repr : value -> string.

(** [base64.b64encode(text.encode()).decode()] *)
Variable b64encode : string -> string.

#[local] Abbreviation IO := (M (hnet_state H)).
#[local] Abbreviation str := (py_str repr).

Definition _make_auth (key secret : value) : string :=
  let credentials := str key ++ ":" ++ str secret in
  let encoded := b64encode credentials in
  "Basic " ++ encoded.

(** [__init__], from the three values of the configuration. *)
Definition init (url api_key api_secret : value) : inspector :=
  mkInspector url (_make_auth api_key api_secret).

Variable self : inspector.

Definition _get_schema (subject : value) : IO value :=
  let url :=
    str (sr_url self) ++ "/subjects/" ++ str subject ++ "/versions/latest" in
  try_catch
    (response <- requests_get_headers H url (sr_auth self) 10 ;;
     if (status_code response =? 200)%Z then
       data <- pure (json response) ;;
       version <- pure (py_item data "version") ;;
       id <- pure (py_item data "id") ;;
       schema <- pure (py_item data "schema") ;;
       schemaType <- pure (py_get data "schemaType" (VStr "AVRO")) ;;
       ret (lit [("subject", subject);
                 ("version", version);
                 ("id", id);
                 ("schema", schema);
                 ("schemaType", schemaType)])
     else if (status_code response =? 404)%Z then ret VNone
     else ret VNone)
    (fun e => ret VNone).

(** The subjects that [list_schemas_for_topic] tries, in order. *)
Definition subjects_to_check (topic_name : value) : list value :=
  [VStr (str topic_name ++ "-value");
   VStr (str topic_name ++ "-key");
   topic_name].

Definition list_schemas_for_topic (topic_name : value) : IO value :=
  try_catch
    ((* Essayer les conventions de nommage standards *)
     schemas <-
       for_loop
         (fun subject schemas =>
            schema <- _get_schema subject ;;
            ret (if py_truthy schema then append schemas schema
                 else schemas))
         (subjects_to_check topic_name) [] ;;
     ret (VList schemas))
    (fun e => ret (VList [])).

(** [get_all_subjects]: the length of the body is formatted into the log
    line before the body is returned. *)
Definition get_all_subjects : IO value :=
  let url := str (sr_url self) ++ "/subjects" in
  try_catch
    (response <- requests_get_headers H url (sr_auth self) 10 ;;
     if (status_code response =? 200)%Z then
       subjects <- pure (json response) ;;
       count <- pure (py_len subjects) ;;
       ret subjects
     else ret (VList []))
    (fun e => ret (VList [])).

(** ** Notions used to state the properties of the inspector *)

(** The request of [_get_schema] and the request of [get_all_subjects]. *)
Definition latest_request (subject : value) : header_request :=
  mkHeaderRequest
    (str (sr_url self) ++ "/subjects/" ++ str subject ++ "/versions/latest")
    (sr_auth self) 10.

Definition subjects_request : header_request :=
  mkHeaderRequest (str (sr_url self) ++ "/subjects") (sr_auth self) 10.

(** [schema] is the dict that [_get_schema] builds for [subject] from the
    body [data] of a response. *)
Definition schema_of (subject data schema : value) : Prop :=
  exists version id text schemaType,
    py_item data "version" = Ok version /\
    py_item data "id" = Ok id /\
    py_item data "schema" = Ok text /\
    py_get data "schemaType" (VStr "AVRO") = Ok schemaType /\
    schema =
      lit [("subject", subject);
           ("version", version);
           ("id", id);
           ("schema", text);
           ("schemaType", schemaType)].

(** [schema] was found for [subject] by a request sent in the world [w]:
    the registry answered 200 with a body that has the three keys. *)
Definition found (subject : value) (w : hworld H) (schema : value) : Prop :=
  exists response w' data,
    hsend H (latest_request subject) w = (Ok response, w') /\
    status_code response = 200%Z /\
    json response = Ok data /\
    schema_of subject data schema.

End Inspector.

End ConfluentInspector.

(* ================================================================== *)
(** * check_confluent.py *)
(* ================================================================== *)

Module CheckConfluent.
Import Py Http.
#[local] Open Scope io_scope.

Section Diagnostic.

Variable H : header_network.
Variable repr : value -> string.
Variable b64encode : string -> string.

(** The values of the configuration: the URL is set, as
    [config.validate_config] checks before the diagnostic runs; the key and
    the secret are a [str] or [None]. *)
Variable SCHEMA_REGISTRY_URL : string.
Variable SCHEMA_REGISTRY_API_KEY : value.
Variable SCHEMA_REGISTRY_API_SECRET : value.

#[local] Abbreviation IO := (M (hnet_state H)).
#[local] Abbreviation str := (py_str repr).

Definition authorization : string :=
  let credentials :=
    str SCHEMA_REGISTRY_API_KEY ++ ":" ++ str SCHEMA_REGISTRY_API_SECRET in
  let encoded := b64encode credentials in
  "Basic " ++ encoded.

(** A [try] block whose handler returns False from the function, or, for
    the third test, goes on: [completes body] tells whether the block ran
    to its end. *)
Definition completes (body : IO unit) : IO bool :=
  try_catch (body ;; ret true) (fun e => ret false).

(** The three [try] blocks.  What they print is not part of the model; the
    expressions that they format are evaluated. *)
Definition test_1 : IO unit :=
  response <-
    requests_get_headers H SCHEMA_REGISTRY_URL authorization 10 ;;
  ret tt.

Definition test_2 : IO unit :=
  response <-
    requests_get_headers H (SCHEMA_REGISTRY_URL ++ "/subjects")
      authorization 10 ;;
  if (status_code response =? 200)%Z then
    subjects <- pure (json response) ;;
    count <- pure (py_len subjects) ;;
    if py_truthy subjects then
      items <- pure (py_iter subjects) ;;
      ret tt
    else ret tt
  else ret tt.

Definition test_3 : IO unit :=
  response <-
    requests_get_headers H (SCHEMA_REGISTRY_URL ++ "/config")
      authorization 10 ;;
  if (status_code response =? 200)%Z then
    config_data <- pure (json response) ;;
    level <- pure (py_get config_data "compatibilityLevel" (VStr "N/A")) ;;
    ret tt
  else ret tt.

Definition check_schema_registry : IO bool :=
  ok <- completes test_1 ;;
  if negb ok then ret false
  else
    ok <- completes test_2 ;;
    if negb ok then ret false
    else
      completes test_3 ;;
      ret true.

(** ** Notions used to state the properties of the diagnostic *)

Definition request_1 : header_request :=
  mkHeaderRequest SCHEMA_REGISTRY_URL authorization 10.

Definition request_2 : header_request :=
  mkHeaderRequest (SCHEMA_REGISTRY_URL ++ "/subjects") authorization 10.

Definition request_3 : header_request :=
  mkHeaderRequest (SCHEMA_REGISTRY_URL ++ "/config") authorization 10.

(** The body of a listing answered with status 200 that the second test
    cannot count: not JSON, or a value without a length. *)
Definition uncountable (response : response) : bool :=
  (status_code response =? 200)%Z &&
  match rbind (json response) py_len with
  | Ok _ => false
  | Raise _ => true
  end.

End Diagnostic.

End CheckConfluent.

(* ================================================================== *)
(** * app.py: the route of the schemas *)
(* ================================================================== *)

Module App.
Import Py Http.
#[local] Open Scope io_scope.

Record environment := mkEnvironment {
  env_endpoint : string;
  env_api_key : string;
  env_api_secret : string }.

Definition ENVIRONMENTS : list (string * environment) :=
  [("default", mkEnvironment "xxxx" "xxxx" "xxxxx")].

(** [ENVIRONMENTS[env]], when [env in ENVIRONMENTS]. *)
Fixpoint lookup (env : string) (l : list (string * environment))
  : option environment :=
  match l with
  | [] => None
  | (name, config) :: l' =>
      if String.eqb name env then Some config else lookup env l'
  end.

(** [all([config['endpoint'], config['api_key'], config['api_secret']])] *)
Definition configured (config : environment) : bool :=
  negb (String.eqb (env_endpoint config) "")
  && negb (String.eqb (env_api_key config) "")
  && negb (String.eqb (env_api_secret config) "").

(** [min_versions or pattern], as a condition: [min_versions] is the
    query parameter parsed as an int, or None; [pattern] is the query
    parameter, or None. *)
Definition filtering (min_versions : option Z) (pattern : option string)
  : bool :=
  match min_versions with
  | Some m => negb (m =? 0)%Z
  | None => false
  end
  ||
  match pattern with
  | Some p => negb (String.eqb p "")
  | None => false
  end.

Section Routes.

Variable N : network.
Variable repr : value -> string.

#[local] Abbreviation IO := (M (net_state N)).

(** The body of the loop over [subjects[:100]]. *)
Definition detail (self : SchemaPurger.purger) (subject : value)
  (detailed_subjects : list value) : IO (list value) :=
  details <- SchemaPurger.get_subject_details N repr self subject ;;
  ret (append detailed_subjects details).

(** The subjects that the route lists: the filtered subjects when a
    criterion is given, and the listing otherwise. *)
Definition listing (purger : SchemaPurger.purger) (include_deleted : bool)
  (min_versions : option Z) (pattern : option string) : IO value :=
  if filtering min_versions pattern then
    filtered <-
      SchemaPurger.get_subjects_by_filter N repr purger
        min_versions pattern ;;
    ret (VList filtered)
  else SchemaPurger.get_all_subjects N purger include_deleted.

(** [get_schemas], once the caller is authenticated: the answer is the
    JSON body and the status code.  [include_deleted] is the comparison of
    the query parameter with "true". *)
Definition get_schemas (env : string) (include_deleted : bool)
  (min_versions : option Z) (pattern : option string)
  : IO (value * Z) :=
  match lookup env ENVIRONMENTS with
  | None =>
      ret (lit [("error", VStr ("Invalid environment: " ++ env))], 400%Z)
  | Some config =>
      if negb (configured config) then
        ret (lit [("error",
                    VStr ("Environment " ++ env ++ " is not configured"))],
             400%Z)
      else
        try_catch
          (let purger :=
             SchemaPurger.init (env_endpoint config) (env_api_key config)
               (env_api_secret config) in
           subjects <-
             listing purger include_deleted min_versions pattern ;;
           first_100 <- pure (py_slice_to subjects 100) ;;
           items <- pure (py_iter first_100) ;;
           detailed_subjects <- for_loop (detail purger) items [] ;;
           total_count <- pure (py_len subjects) ;;
           ret (lit [("environment", VStr env);
                     ("total_count", VInt (Z.of_nat total_count));
                     ("returned_count",
                       VInt (Z.of_nat (List.length detailed_subjects)));
                     ("subjects", VList detailed_subjects)],
                200%Z))
          (fun e => ret (lit [("error", VStr (exn_str e))], 500%Z))
  end.

(** ** Notions used to state the properties of the route *)

(** The body of an answer that reports an exception. *)
Definition error_body (e : exn) : value :=
  lit [("error", VStr (exn_str e))].

(** The purger of the environment "default". *)
Definition default_purger : SchemaPurger.purger :=
  SchemaPurger.init "xxxx" "xxxx" "xxxxx".

(** [details] are the details, or the error, of [subject]. *)
Definition details_of (subject details : value) : Prop :=
  py_item details "subject" = Ok subject.

End Routes.

End App.

(* ================================================================== *)
(** * Concrete registries, for the examples *)
(* ================================================================== *)

Module Demo.
Import Py Http.

(** [repr] on None, bools, ints and plain strings; the examples format no
    other value. *)
Definition repr (v : value) : string :=
  match v with
  | VNone => "None"
  | VBool true => "True"
  | VBool false => "False"
  | VInt n => str_int n
  | VStr s => "'" ++ s ++ "'"
  | VFloat _ => "<float>"
  | VList _ => "<list>"
  | VDict _ => "<dict>"
  end.

Definition clock : string := "2024-01-01T00:00:00+00:00".

(** A scripted registry: the answers are handed out in order, whatever the
    request; when the script is over the connection is refused. *)
Definition scripted : network :=
  mkNetwork (list (result response))
    (fun _ w =>
       match w with
       | [] => (Raise (mkExn ConnectionError "Connection refused"), [])
       | r :: w' => (r, w')
       end)
    (fun _ => clock).

(** A registry that gives one answer to every request. *)
Definition constant (r : result response) : network :=
  mkNetwork unit (fun _ w => (r, w)) (fun _ => clock).

Definition answer (code : Z) (body : value) : result response :=
  Ok (mkResponse code "" "" "" (Ok body)).

Definition response_of (code : Z) (body : value) : response :=
  mkResponse code "" "" "" (Ok body).

Definition timed_out : result response :=
  Raise (mkExn Timeout "Read timed out. (read timeout=10)").

Definition strs (l : list string) : value := VList (map VStr l).

Definition purger : SchemaPurger.purger :=
  SchemaPurger.init "https://registry.example/" "key" "secret".

Definition checker : SchemaHealthChecker.checker :=
  SchemaHealthChecker.init "https://registry.example/" "key" "secret".

(** The state of a tool that starts on the script [answers]. *)
Definition start (answers : list (result response)) : net_state scripted :=
  mkNet (answers : world scripted) [].

Definition ints (l : list Z) : value := VList (map VInt l).

(** The registry of the scenarios: three subjects. *)
Definition names : list string :=
  ["orders-value"; "orders-key"; "users-value"].

(** The answers to a filter with [min_versions]: the listing, then for each
    subject its versions and its latest schema.  The subjects have 2, 3 and
    5 versions. *)
Definition filter_script : list (result response) :=
  [ answer 200 (strs names);
    answer 200 (ints [1; 2]%Z);
    answer 200 (lit [("schema", VStr "{}"); ("version", VInt 2)]);
    answer 200 (ints [1; 2; 3]%Z);
    answer 200 (lit [("schema", VStr "{}"); ("version", VInt 3)]);
    answer 200 (ints [1; 2; 3; 4; 5]%Z);
    answer 200 (lit [("schema", VStr "{}"); ("version", VInt 5)]) ].

(** The answers to a purge: the listing with deleted subjects, the listing
    without, then the two deletions of "orders-key" and the soft deletion
    of "users-value", which times out. *)
Definition purge_script : list (result response) :=
  [ answer 200 (strs names);
    answer 200 (strs ["orders-value"]);
    answer 200 (ints [1; 2; 3]%Z);
    answer 200 (ints [1; 2; 3]%Z);
    timed_out;
    answer 200 (ints [1]%Z) ].

(** A listing of [n] subjects. *)
Definition listing (n : nat) : value := VList (repeat (VStr "subject") n).

(** The answers to a health audit of a registry with no subject, in which
    the third request, the listing of the version check, times out. *)
Definition audit_script : list (result response) :=
  [ answer 200 (VList []);                 (* connectivity *)
    answer 200 (VList []);                 (* subject_count *)
    timed_out;                             (* version_explosion *)
    answer 200 (VList []);                 (* large_schemas *)
    answer 200 (lit [("compatibilityLevel", VStr "BACKWARD")]);
    answer 200 (VList []);                 (* compatibility *)
    answer 200 (VList []);                 (* soft_deleted *)
    answer 200 (VList []) ].               (* orphaned_refs *)

(** The answers to a health audit in which the listing with deleted
    subjects is answered by an error object and not by a list. *)
Definition audit_script_401 : list (result response) :=
  [ answer 200 (VList []);
    answer 200 (VList []);
    answer 200 (VList []);
    answer 200 (VList []);
    answer 200 (lit [("compatibilityLevel", VStr "BACKWARD")]);
    answer 200 (VList []);
    answer 401 (lit [("error_code", VInt 401);
                     ("message", VStr "Unauthorized")]);
    answer 200 (VList []) ].

(** A stand-in for [json.loads] on a few texts: the texts of the two
    records below, written [<Order>] and [<Twins>] for short, the text of
    the empty object, and any other text, which it rejects.  The first
    record has defaults [0], [false] and the empty string, and a union
    field. *)
Definition record_with_defaults : value :=
  lit [("type", VStr "record");
       ("name", VStr "Order");
       ("fields",
         VList [lit [("name", VStr "id"); ("type", VStr "string")];
                lit [("name", VStr "count"); ("type", VStr "int");
                     ("default", VInt 0)];
                lit [("name", VStr "paid"); ("type", VStr "boolean");
                     ("default", VBool false)];
                lit [("name", VStr "note"); ("type", VStr "string");
                     ("default", VStr "")];
                lit [("name", VStr "tag");
                     ("type", VList [VStr "null"; VStr "string"])]])].

(** Two fields of one name, which Avro does not allow in a record. *)
Definition record_with_twins : value :=
  lit [("type", VStr "record");
       ("name", VStr "Twins");
       ("fields",
         VList [lit [("name", VStr "a"); ("type", VStr "int");
                     ("default", VInt 0)];
                lit [("name", VStr "a"); ("type", VStr "string")]])].

Definition twins_fields : list value :=
  [lit [("name", VStr "a"); ("type", VStr "int"); ("default", VInt 0)];
   lit [("name", VStr "a"); ("type", VStr "string")]].

Definition loads (s : string) : result value :=
  if String.eqb s "<Order>" then Ok record_with_defaults
  else if String.eqb s "<Twins>" then Ok record_with_twins
  else if String.eqb s "{}" then Ok (VDict [])
  else Raise (mkExn JSONDecodeError
                "Expecting value: line 1 column 1 (char 0)").

Definition order_fields : list value :=
  Eval vm_compute in
    match SchemaAnalyzer.fields_of record_with_defaults with
    | Ok l => l
    | Raise _ => []
    end.

Definition order_schema : value :=
  Eval vm_compute in
    match SchemaAnalyzer.schema_of record_with_defaults with
    | Ok v => v
    | Raise _ => VNone
    end.

Definition order_example : value :=
  Eval vm_compute in
    match SchemaAnalyzer.example_of record_with_defaults with
    | Ok v => v
    | Raise _ => VNone
    end.

Definition twins_schema : value :=
  Eval vm_compute in
    match SchemaAnalyzer.schema_of record_with_twins with
    | Ok v => v
    | Raise _ => VNone
    end.

Definition twins_example : value :=
  Eval vm_compute in
    match SchemaAnalyzer.example_of record_with_twins with
    | Ok v => v
    | Raise _ => VNone
    end.

(** A registry, reached with an [Authorization] header, that refuses
    every request. *)
Definition unauthorized : response :=
  response_of 401
    (lit [("error_code", VInt 401); ("message", VStr "Unauthorized")]).

Definition refusing : header_network :=
  mkHeaderNetwork unit (fun _ w => (Ok unauthorized, w)).

(** A stand-in for the Base64 encoding, on the one text that the examples
    encode. *)
Definition b64encode (text : string) : string :=
  if String.eqb text "key:secret" then "a2V5OnNlY3JldA==" else "".

End Demo.

(* ================================================================== *)
(** * Facts on Python values *)
(* ================================================================== *)

Module PyFacts.
Import Py.

(** ** The characters of a [str] *)

Lemma characters_separate (s : string) : separate (characters s) = true.
Proof.
  induction s as [ | c s IH]; [reflexivity | ].
  cbn [characters]. destruct (characters s) as [ | t rest]; [reflexivity | ].
  cbn [separate] in IH. apply andb_true_iff in IH as [IH Hrest].
  apply andb_true_iff in IH as [Ht Hnext].
  destruct (continues t) eqn:Ec; cbn [separate is_character all_continue].
  - destruct t as [ | d t]; [discriminate | ].
    cbn [continues] in Ec. cbn [is_character] in Ht.
    cbn [all_continue]. now rewrite Ec, Ht, Hnext, Hrest.
  - cbn [separate]. now rewrite Ec, Ht, Hnext, Hrest.
Qed.

Lemma separate_firstn (k : nat) (l : list string) :
  separate l = true -> separate (firstn k l) = true.
Proof.
  revert l. induction k as [ | k IH]; intros [ | t l] H; try reflexivity.
  cbn [firstn separate]. cbn [separate] in H.
  apply andb_true_iff in H as [H Hl]. apply andb_true_iff in H as [Ht Hn].
  rewrite Ht, (IH _ Hl). cbn [andb]. rewrite andb_true_r.
  destruct k, l; auto.
Qed.

(** A run of continuation bytes before separate characters is one more
    item, at the head. *)
Lemma characters_continued (t : string) (l : list string) :
  all_continue t = true -> t <> EmptyString ->
  characters (join l) = l ->
  match l with u :: _ => continues u = false | [] => True end ->
  characters (t ++ join l) = t :: l.
Proof.
  intros Ht Hne Hl Hhead.
  induction t as [ | d t IH]; [congruence | ].
  cbn [all_continue] in Ht. apply andb_true_iff in Ht as [Hd Ht].
  change (String d t ++ join l) with (String d (t ++ join l)).
  cbn [characters].
  destruct t as [ | e t].
  - cbn [String.append]. rewrite Hl.
    destruct l as [ | u rest]; [reflexivity | ].
    now rewrite Hhead.
  - rewrite IH; [ | assumption | discriminate].
    cbn [all_continue] in Ht. apply andb_true_iff in Ht as [He _].
    cbn [continues]. now rewrite He.
Qed.

Lemma characters_join (l : list string) :
  separate l = true -> characters (join l) = l.
Proof.
  induction l as [ | t l IH]; intros H; [reflexivity | ].
  cbn [separate] in H.
  apply andb_true_iff in H as [H Hl]. apply andb_true_iff in H as [Ht Hn].
  specialize (IH Hl).
  assert (Hhead : match l with
                  | u :: _ => continues u = false
                  | [] => True
                  end).
  { destruct l; [exact I | now apply negb_true_iff]. }
  destruct t as [ | c t]; [discriminate | ]. cbn [is_character] in Ht.
  cbn [join]. change (String c t ++ join l) with (String c (t ++ join l)).
  cbn [characters]. destruct t as [ | d t].
  - cbn [String.append]. rewrite IH.
    destruct l as [ | u rest]; [reflexivity | ].
    now rewrite Hhead.
  - rewrite (characters_continued (String d t) l Ht); auto; [ | discriminate].
    cbn [all_continue] in Ht. apply andb_true_iff in Ht as [Hd _].
    cbn [continues]. now rewrite Hd.
Qed.

(** The first [n] characters of a [str] are [n] characters, or all of
    them. *)
Lemma characters_slice (n : nat) (s : string) :
  characters (join (firstn n (characters s))) = firstn n (characters s).
Proof.
  apply characters_join, separate_firstn, characters_separate.
Qed.

Lemma chars_length (s : string) :
  List.length (chars s) = List.length (characters s).
Proof. unfold chars. apply length_map. Qed.

Lemma float_same_refl (f : float64) : float_same f f = true.
Proof.
  destruct f as [s | s | | s m e]; simpl; auto using Bool.eqb_reflx.
  now rewrite Bool.eqb_reflx, Pos.eqb_refl, Z.eqb_refl.
Qed.

Lemma key_eqb_refl (k : pykey) : key_eqb k k = true.
Proof.
  destruct k as [ | b | n | f | s]; simpl.
  - reflexivity.
  - apply Bool.eqb_reflx.
  - apply Z.eqb_refl.
  - unfold float_eqb. now rewrite float_same_refl.
  - apply String.eqb_refl.
Qed.

Lemma dict_get_set_same (k : pykey) (v : value) (d : dict) :
  dict_get k (dict_set k v d) = Some v.
Proof.
  induction d as [ | [k' v'] d IH]; simpl.
  - now rewrite key_eqb_refl.
  - destruct (key_eqb k' k) eqn:E; simpl; now rewrite E.
Qed.

(** A key equal to none of the dict is added at the end. *)
Lemma dict_set_fresh (k : pykey) (v : value) (d : dict) :
  forallb (fun kv => negb (key_eqb (fst kv) k)) d = true ->
  dict_set k v d = (d ++ [(k, v)])%list.
Proof.
  induction d as [ | [k' v'] d IH]; simpl; intros H.
  - reflexivity.
  - apply andb_true_iff in H as [H1 H2].
    apply negb_true_iff in H1. rewrite H1. now rewrite IH.
Qed.

Lemma py_item_lit_head (k : string) (v : value) (kvs : list (string * value)) :
  py_item (lit ((k, v) :: kvs)) k = Ok v.
Proof.
  unfold py_item, lit. simpl. now rewrite String.eqb_refl.
Qed.

(** Induction on values, through the lists and dicts they contain. *)
Section ValueInd.

Variable P : value -> Prop.
Hypothesis HNone : P VNone.
Hypothesis HBool : forall b, P (VBool b).
Hypothesis HInt : forall n, P (VInt n).
Hypothesis HFloat : forall f, P (VFloat f).
Hypothesis HStr : forall s, P (VStr s).
Hypothesis HList : forall l, Forall P l -> P (VList l).
Hypothesis HDict : forall d, Forall (fun kv => P (snd kv)) d -> P (VDict d).

Fixpoint value_induction (v : value) : P v :=
  match v with
  | VNone => HNone
  | VBool b => HBool b
  | VInt n => HInt n
  | VFloat f => HFloat f
  | VStr s => HStr s
  | VList l =>
      HList l
        ((fix all (l : list value) : Forall P l :=
            match l with
            | [] => Forall_nil P
            | x :: l' => Forall_cons x (value_induction x) (all l')
            end) l)
  | VDict d =>
      HDict d
        ((fix all (d : dict) : Forall (fun kv => P (snd kv)) d :=
            match d with
            | [] => Forall_nil _
            | kv :: d' =>
                Forall_cons (P := fun kv => P (snd kv)) kv
                  (value_induction (snd kv)) (all d')
            end) d)
  end.

End ValueInd.

End PyFacts.

(* ================================================================== *)
(** * SchemaAnalyzer: unions, defaults, malformed text *)
(* ================================================================== *)

Module AnalyzerFacts.
Import Py PyFacts SchemaAnalyzer.

(** ** Unions *)

Lemma convert_union (ts : list value) :
  _convert_avro_type (VList ts) =
    match non_null_types ts with
    | [] => null_node
    | t :: _ => _convert_avro_type t
    end.
Proof.
  induction ts as [ | t ts IH].
  - reflexivity.
  - unfold non_null_types in *. simpl filter.
    destruct (eq_str t "null") eqn:E; simpl negb; cbv iota.
    + rewrite <- IH. simpl. now rewrite E.
    + simpl. now rewrite E.
Qed.

Lemma example_union (ts : list value) :
  _generate_example_value (VList ts) =
    match non_null_types ts with
    | [] => Ok VNone
    | t :: _ => _generate_example_value t
    end.
Proof.
  induction ts as [ | t ts IH].
  - reflexivity.
  - unfold non_null_types in *. simpl filter.
    destruct (eq_str t "null") eqn:E; simpl negb; cbv iota.
    + rewrite <- IH. simpl. now rewrite E.
    + simpl. now rewrite E.
Qed.

(** The node of an array: its items are translated from
    [avro_type.get("items")]. *)
Lemma convert_array (d : dict) :
  eq_str (getd d "type" VNone) "array" = true ->
  _convert_avro_type (VDict d) =
    lit [("type", VStr "array");
         ("items", _convert_avro_type (getd d "items" VNone))].
Proof.
  intros H. cbn [_convert_avro_type]. rewrite H.
  assert (eq_str (getd d "type" VNone) "enum" = false) as ->.
  { destruct (getd d "type" VNone); try reflexivity. simpl in *.
    apply String.eqb_eq in H. now subst. }
  do 4 f_equal. unfold getd. clear H.
  induction d as [ | [k v] d IH]; simpl; [reflexivity | ].
  destruct (key_eqb k (KStr "items")); auto.
Qed.

Lemma non_null_types_of_nulls (n : nat) :
  non_null_types (repeat (VStr "null") n) = [].
Proof. induction n; simpl; auto. Qed.

(** C4.  A union is translated as its first member other than "null", for
    the descriptive node and for the example value alike; so
    ["null", "string"] is translated as "string"; a union of "null" members
    only gives the null node and the example None. *)
Theorem union_is_first_non_null_member :
  (forall ts : list value,
      _convert_avro_type (VList ts) =
        match non_null_types ts with
        | [] => null_node
        | t :: _ => _convert_avro_type t
        end
      /\ _generate_example_value (VList ts) =
           match non_null_types ts with
           | [] => Ok VNone
           | t :: _ => _generate_example_value t
           end)
  /\ _convert_avro_type (VList [VStr "null"; VStr "string"])
       = _convert_avro_type (VStr "string")
  /\ _generate_example_value (VList [VStr "null"; VStr "string"])
       = _generate_example_value (VStr "string")
  /\ (forall n : nat,
        _convert_avro_type (VList (repeat (VStr "null") n))
          = lit [("type", VStr "null")]
        /\ _generate_example_value (VList (repeat (VStr "null") n))
             = Ok VNone).
Proof.
  split; [ | split; [ | split]].
  - intros ts. split; [apply convert_union | apply example_union].
  - reflexivity.
  - reflexivity.
  - intros n. rewrite convert_union, example_union.
    now rewrite non_null_types_of_nulls.
Qed.

(** ** The field rule *)

Lemma py_item_dict (field : value) (k : string) (v : value) :
  py_item field k = Ok v -> exists d, field = VDict d.
Proof.
  destruct field; simpl; try discriminate. eauto.
Qed.

Lemma py_in_default (d : dict) :
  py_in (VStr "default") (VDict d) = Ok (has_default (VDict d)).
Proof.
  unfold has_default, py_in, py_item, dict_mem. simpl.
  now destruct (dict_get (KStr "default") d).
Qed.

Ltac bind_inv H :=
  match type of H with
  | rbind ?r _ = Ok _ =>
      let E := fresh "E" in
      destruct r eqn:E; cbn [rbind] in H; [ | discriminate H]
  end.

(** One turn of the example loop stores the field's example under the
    field's key. *)
Lemma example_field_ok (field : value) (ex ex' : dict) :
  example_field field ex = Ok ex' ->
  exists k v,
    field_key field = Ok k /\ field_example field = Ok v /\
    ex' = dict_set k v ex.
Proof.
  unfold example_field, field_key, field_example. intros H.
  bind_inv H. destruct (py_item_dict _ _ _ E) as [d ->].
  bind_inv H. rewrite py_in_default in H. cbn [rbind] in H.
  destruct (has_default (VDict d)) eqn:D.
  - bind_inv H. bind_inv H. injection H as <-.
    exists a2, a1. simpl. rewrite E2. auto.
  - bind_inv H. bind_inv H. injection H as <-.
    exists a2, a1. simpl. rewrite E1. auto.
Qed.

(** One turn of the conversion loop appends the field's name to
    [required] exactly when the field has no default. *)
Lemma convert_field_required (field : value) (acc acc' : dict * list value) :
  convert_field field acc = Ok acc' ->
  exists name,
    py_item field "name" = Ok name /\
    snd acc' = if has_default field then snd acc else append (snd acc) name.
Proof.
  unfold convert_field. intros H.
  bind_inv H. destruct (py_item_dict _ _ _ E) as [d ->].
  exists a. split; auto.
  do 5 bind_inv H. rewrite py_in_default in H. cbn [rbind] in H.
  destruct (has_default (VDict d)).
  - do 2 bind_inv H. now injection H as <-.
  - now injection H as <-.
Qed.

Lemma convert_fields_required (fields : list value) :
  forall acc acc',
    for_each convert_field fields acc = Ok acc' ->
    snd acc' = (snd acc ++ required_names fields)%list.
Proof.
  induction fields as [ | f fields IH]; simpl; intros acc acc' H.
  - injection H as <-. now rewrite app_nil_r.
  - bind_inv H. apply convert_field_required in E as (name & Hn & Hs).
    rewrite (IH _ _ H), Hs, Hn. unfold append.
    destruct (has_default f); auto. now rewrite <- app_assoc.
Qed.

Lemma required_names_in (fields : list value) (name : value) :
  In name (required_names fields) ->
  exists g, In g fields /\ py_item g "name" = Ok name /\ has_default g = false.
Proof.
  induction fields as [ | f fields IH]; simpl; [tauto | ].
  destruct (py_item f "name") as [n | e] eqn:E.
  - destruct (has_default f) eqn:D.
    + intros H. destruct (IH H) as (g & ? & ? & ?). eauto.
    + intros [<- | H]; [eauto | ].
      destruct (IH H) as (g & ? & ? & ?). eauto.
  - intros H. destruct (IH H) as (g & ? & ? & ?). eauto.
Qed.

Lemma in_required_names (fields : list value) (f name : value) :
  In f fields -> py_item f "name" = Ok name -> has_default f = false ->
  In name (required_names fields).
Proof.
  induction fields as [ | g fields IH]; simpl; [tauto | ].
  intros [-> | H] Hn Hd.
  - rewrite Hn, Hd. now left.
  - destruct (py_item g "name"); [destruct (has_default g) | ]; simpl; auto.
Qed.

Lemma existsb_false_in {A} (p : A -> bool) (l : list A) (x : A) :
  existsb p l = false -> In x l -> p x = false.
Proof.
  intros H Hx. destruct (p x) eqn:E; auto.
  rewrite <- H. symmetry. apply existsb_exists. eauto.
Qed.

(** Among fields of distinct names, two different fields differ in name. *)
Lemma distinct_names_in (fields : list value) (f g : value) :
  distinct_names fields = true -> In f fields -> In g fields -> f <> g ->
  same_name f g = false \/ same_name g f = false.
Proof.
  induction fields as [ | h fields IH]; simpl; [tauto | ].
  intros H Hf Hg Hne. apply andb_true_iff in H as [H1 H2].
  apply negb_true_iff in H1.
  destruct Hf as [-> | Hf], Hg as [-> | Hg].
  - congruence.
  - left. eapply existsb_false_in; eauto.
  - right. eapply existsb_false_in; eauto.
  - auto.
Qed.

Lemma fresh_snoc (k k' : pykey) (v : value) (d : dict) :
  forallb (fun kv => negb (key_eqb (fst kv) k')) d = true ->
  key_eqb k k' = false ->
  forallb (fun kv => negb (key_eqb (fst kv) k')) (d ++ [(k, v)])%list = true.
Proof.
  intros H1 H2. rewrite forallb_app, H1. simpl. now rewrite H2.
Qed.

Lemma example_fields_entries (fields : list value) :
  forall ex ex',
    for_each example_field fields ex = Ok ex' ->
    distinct_names fields = true ->
    (forall f k, In f fields -> field_key f = Ok k ->
       forallb (fun kv => negb (key_eqb (fst kv) k)) ex = true) ->
    exists es, ex' = (ex ++ es)%list /\ entries_of fields es.
Proof.
  induction fields as [ | f fields IH]; simpl; intros ex ex' H Hd Hfresh.
  - injection H as <-. exists []. rewrite app_nil_r.
    split; [auto | constructor].
  - bind_inv H. apply example_field_ok in E as (k & v & Hk & Hv & ->).
    apply andb_true_iff in Hd as [Hd1 Hd2]. apply negb_true_iff in Hd1.
    rewrite dict_set_fresh in H by (apply (Hfresh f); auto).
    apply IH in H as (es & -> & Hes); auto.
    + exists ((k, v) :: es). rewrite <- app_assoc. split; auto.
      constructor; auto.
    + intros g k' Hg Hk'. apply fresh_snoc.
      * apply (Hfresh g); auto.
      * pose proof (existsb_false_in _ _ _ Hd1 Hg) as Hs.
        unfold same_name in Hs. now rewrite Hk, Hk' in Hs.
Qed.

Lemma entries_lookup (fields : list value) (es : dict) :
  entries_of fields es -> distinct_names fields = true ->
  forall f k v, In f fields -> field_key f = Ok k -> field_example f = Ok v ->
    dict_get k es = Some v.
Proof.
  induction 1 as [ | g [ke ve] fields es [Hk Hv] _ IH]; simpl;
    intros Hd f k v Hf Hfk Hfv; [tauto | ].
  apply andb_true_iff in Hd as [Hd1 Hd2]. apply negb_true_iff in Hd1.
  simpl in Hk, Hv. destruct Hf as [-> | Hf].
  - assert (ke = k) as -> by congruence.
    assert (ve = v) as -> by congruence.
    now rewrite key_eqb_refl.
  - pose proof (existsb_false_in _ _ _ Hd1 Hf) as Hs.
    unfold same_name in Hs. rewrite Hk, Hfk in Hs. rewrite Hs. eauto.
Qed.

Lemma entries_in (fields : list value) (es : dict) (f : value) :
  entries_of fields es -> In f fields ->
  exists k v, field_key f = Ok k /\ field_example f = Ok v.
Proof.
  induction 1 as [ | g e fields es [Hk Hv] _ IH]; simpl; [tauto | ].
  intros [<- | Hf]; eauto.
Qed.

Section WithJson.

Variable loads : string -> result value.

(** C5.  In a record whose fields have distinct names and whose
    translation and example are produced: a field with a default (whatever
    the default: 0, false, the empty string) is not in [required] and its
    example is that default; a field without a default is in [required]
    and its example is the example generated for its type. *)
Theorem field_default_rule (s : string) (d : dict) (schema example : value)
  (fields : list value) :
  loads s = Ok (VDict d) ->
  dict_get (KStr "fields") d = Some (VList fields) ->
  distinct_names fields = true ->
  schema_of (VDict d) = Ok schema ->
  example_of (VDict d) = Ok example ->
  avro_to_asyncapi_schema loads s = Ok schema /\
  extract_message_examples loads s = Ok example /\
  field_rule fields schema example.
Proof.
  intros Hl Hfields Hd Hs He.
  assert (Hf : fields_of (VDict d) = Ok fields).
  { unfold fields_of. cbn [py_get rbind]. rewrite Hfields. reflexivity. }
  set (avro := VDict d) in *. unfold field_rule.
  unfold avro_to_asyncapi_schema, extract_message_examples.
  rewrite Hl. cbn [rbind]. rewrite Hs, He. cbn [try_except].
  split; [reflexivity | split; [reflexivity | ]].
  unfold schema_of in Hs. bind_inv Hs. rewrite Hf in Hs. cbn [rbind] in Hs.
  bind_inv Hs. injection Hs as <-.
  apply convert_fields_required in E0. simpl in E0.
  unfold example_of in He. rewrite Hf in He. cbn [rbind] in He.
  bind_inv He. injection He as <-.
  apply example_fields_entries in E1 as (es & -> & Hes); auto.
  exists (snd a0), es. split; [reflexivity | split; [reflexivity | ]].
  intros field Hin.
  destruct (entries_in _ _ _ Hes Hin) as (k & v & Hk & Hv).
  pose proof (entries_lookup _ _ Hes Hd _ _ _ Hin Hk Hv) as Hget.
  unfold field_key in Hk.
  destruct (py_item field "name") as [name | ] eqn:En; [ | discriminate].
  cbn [rbind] in Hk. exists name, k. split; [auto | split; [auto | ]].
  unfold field_example in Hv. rewrite E0.
  destruct (has_default field) eqn:D.
  - exists v. split; [auto | split; [ | auto]].
    intros Hr. apply required_names_in in Hr as (g & Hg & Hgn & Hgd).
    assert (field <> g) as Hne by congruence.
    assert (field_key g = Ok k) as Hgk
      by (unfold field_key; rewrite Hgn; auto).
    assert (field_key field = Ok k) as Hfk
      by (unfold field_key; rewrite En; auto).
    destruct (distinct_names_in _ _ _ Hd Hin Hg Hne) as [Hsn | Hsn];
      unfold same_name in Hsn; rewrite Hgk, Hfk, key_eqb_refl in Hsn;
      discriminate.
  - split; [eapply in_required_names; eauto | ].
    destruct (py_item field "type") as [t | ] eqn:Et; [ | discriminate].
    cbn [rbind] in Hv. eauto.
Qed.

End WithJson.

(** ** Malformed text *)

Lemma type_mapping_has_type (s : string) (v : value) :
  dict_get (KStr s) type_mapping = Some v ->
  exists ty, py_item v "type" = Ok ty.
Proof.
  unfold type_mapping. cbn [dict_get key_eqb].
  repeat match goal with
         | |- context [String.eqb ?a s] => destruct (String.eqb a s)
         end;
    intros H; try discriminate H; injection H as <-; eexists; reflexivity.
Qed.

(** Every node that [_convert_avro_type] returns has a "type". *)
Lemma convert_has_type (t : value) :
  exists ty, py_item (_convert_avro_type t) "type" = Ok ty.
Proof.
  induction t as [ | b | n | f | s | l IH | d _] using value_induction;
    try (eexists; reflexivity).
  - cbn [_convert_avro_type].
    destruct (dict_get (KStr s) type_mapping) eqn:E.
    + exact (type_mapping_has_type _ _ E).
    + eexists; reflexivity.
  - rewrite convert_union. unfold non_null_types.
    induction IH as [ | t l Ht _ IHl]; simpl.
    + eexists; reflexivity.
    + destruct (eq_str t "null"); simpl; auto.
  - simpl.
    repeat match goal with
           | |- context [if ?c then _ else _] => destruct c
           end; eexists; reflexivity.
Qed.

Lemma set_in_ok (props : dict) (k : pykey) (p : dict) (key : string)
  (v : value) :
  dict_get k props = Some (VDict p) ->
  exists props' p',
    set_in props k key v = Ok props' /\ dict_get k props' = Some (VDict p').
Proof.
  intros H. unfold set_in. rewrite H. do 2 eexists. split; [reflexivity | ].
  apply dict_get_set_same.
Qed.

(** A field that the example loop accepts is accepted by the conversion
    loop. *)
Lemma convert_field_total (field : value) (ex ex' : dict) :
  example_field field ex = Ok ex' ->
  forall acc, exists acc', convert_field field acc = Ok acc'.
Proof.
  unfold example_field. intros H acc.
  bind_inv H. destruct (py_item_dict _ _ _ E) as [d ->].
  bind_inv H. rewrite py_in_default in H. cbn [rbind] in H.
  assert (exists k, to_key a = Ok k) as [k Hk].
  { destruct (has_default (VDict d)); do 2 bind_inv H; eauto. }
  unfold convert_field. rewrite E, E0. cbn [rbind].
  destruct (convert_has_type a0) as [ty ->]. cbn [rbind].
  cbn [py_get]. cbn [rbind]. rewrite Hk. cbn [rbind].
  rewrite py_in_default.
  match goal with
  | |- context [dict_set k (lit ?l) ?P] =>
      pose proof (dict_get_set_same k (lit l) P) as Hp;
      generalize dependent (dict_set k (lit l) P)
  end.
  unfold lit at 1. intros props Hp.
  assert (exists props1 p1,
             (if is_enum a0
              then rbind (py_get a0 "symbols" (VList []))
                     (fun symbols => set_in props k "enum" symbols)
              else Ok props) = Ok props1
             /\ dict_get k props1 = Some (VDict p1))
    as (props1 & p1 & -> & Hp1).
  { destruct (is_enum a0) eqn:En; [ | eauto].
    destruct a0; try discriminate En. cbn [py_get rbind].
    eapply set_in_ok; eauto. }
  cbn [rbind]. destruct (has_default (VDict d)) eqn:D.
  - unfold has_default in D.
    destruct (py_item (VDict d) "default") as [dv | ]; [ | discriminate D].
    cbn [rbind].
    destruct (set_in_ok props1 k p1 "default" dv Hp1) as (props2 & p2 & -> & _).
    cbn [rbind]. eauto.
  - eauto.
Qed.

Lemma convert_fields_total (fields : list value) :
  forall ex ex',
    for_each example_field fields ex = Ok ex' ->
    forall acc, exists acc', for_each convert_field fields acc = Ok acc'.
Proof.
  induction fields as [ | f fields IH]; simpl; intros ex ex' H acc.
  - eauto.
  - bind_inv H.
    destruct (convert_field_total _ _ _ E acc) as [acc1 ->]. cbn [rbind].
    eauto.
Qed.

(** When the [try] block of the translation raises, so does the one of the
    example generation. *)
Lemma schema_raises_example_raises (avro : value) (e : exn) :
  schema_of avro = Raise e -> exists e', example_of avro = Raise e'.
Proof.
  intros H. destruct (example_of avro) as [v | e'] eqn:E; [ | eauto].
  exfalso. unfold example_of in E. bind_inv E. bind_inv E.
  unfold schema_of in H. rewrite E0 in H.
  unfold fields_of in E0. bind_inv E0.
  destruct avro; try discriminate E2. cbn [py_get rbind] in H.
  destruct (convert_fields_total _ _ _ E1 ([], [])) as [acc' Hacc].
  rewrite Hacc in H. discriminate H.
Qed.

Section WithJson.

Variable loads : string -> result value.

(** C6.  On every text the translation returns a value and the example
    generation returns a dict; when the [try] block of the translation
    raises, be it [json.loads] on text that is not JSON or a later step,
    the translation returns the generic node, whose description is not
    empty, and the example generation returns the empty dict. *)
Theorem malformed_text_is_absorbed (s : string) :
  (exists v, avro_to_asyncapi_schema loads s = Ok v) /\
  (exists d, extract_message_examples loads s = Ok (VDict d)) /\
  match rbind (loads s) schema_of with
  | Ok v => avro_to_asyncapi_schema loads s = Ok v
  | Raise _ =>
      avro_to_asyncapi_schema loads s = Ok conversion_error /\
      extract_message_examples loads s = Ok (VDict [])
  end /\
  match loads s with
  | Ok _ => True
  | Raise _ =>
      avro_to_asyncapi_schema loads s = Ok conversion_error /\
      extract_message_examples loads s = Ok (VDict [])
  end /\
  py_item conversion_error "type" = Ok (VStr "object") /\
  py_item conversion_error "description"
    = Ok (VStr "Schema conversion error") /\
  "Schema conversion error" <> "".
Proof.
  unfold avro_to_asyncapi_schema, extract_message_examples.
  repeat split.
  - destruct (rbind (loads s) schema_of); simpl; eauto.
  - destruct (loads s) as [avro | ]; simpl; [ | eauto].
    unfold example_of. destruct (fields_of avro); simpl; [ | eauto].
    destruct (for_each example_field a []); simpl; eauto.
  - destruct (loads s) as [avro | e]; simpl; [ | auto].
    destruct (schema_of avro) as [v | e] eqn:E; simpl; [auto | ].
    split; [auto | ].
    destruct (schema_raises_example_raises _ _ E) as [e' ->]. auto.
  - destruct (loads s); simpl; auto.
  - discriminate.
Qed.

End WithJson.

(** ** The rules at work on a record *)

(** The rule on the record of the examples, with its defaults 0, false and
    the empty string. *)
Lemma field_default_rule_witness :
  (Demo.loads "<Order>" = Ok Demo.record_with_defaults /\
   py_get Demo.record_with_defaults "fields" (VList [])
     = Ok (VList Demo.order_fields) /\
   distinct_names Demo.order_fields = true /\
   schema_of Demo.record_with_defaults = Ok Demo.order_schema /\
   example_of Demo.record_with_defaults = Ok Demo.order_example) /\
  (avro_to_asyncapi_schema Demo.loads "<Order>" = Ok Demo.order_schema /\
   extract_message_examples Demo.loads "<Order>" = Ok Demo.order_example /\
   field_rule Demo.order_fields Demo.order_schema Demo.order_example).
Proof.
  split.
  - repeat split; reflexivity.
  - refine (field_default_rule Demo.loads "<Order>" _ Demo.order_schema
              Demo.order_example Demo.order_fields _ _ _ _ _);
      reflexivity.
Defined.

(** C5, as stated, fails on a record in which two fields have one name:
    the first field "a" carries the default 0, and yet "a" is in
    [required] and its example is the generated example of the second
    field, which has no default. *)
Theorem default_lost_to_a_twin_field :
  Demo.loads "<Twins>" = Ok Demo.record_with_twins /\
  py_get Demo.record_with_twins "fields" (VList [])
    = Ok (VList Demo.twins_fields) /\
  avro_to_asyncapi_schema Demo.loads "<Twins>" = Ok Demo.twins_schema /\
  extract_message_examples Demo.loads "<Twins>" = Ok Demo.twins_example /\
  py_item Demo.twins_schema "required" = Ok (VList [VStr "a"]) /\
  Demo.twins_example = lit [("a", VStr "example-string")] /\
  ~ field_rule Demo.twins_fields Demo.twins_schema Demo.twins_example.
Proof.
  do 6 (split; [reflexivity | ]).
  intros (required & ex & Hr & _ & H).
  vm_compute in Hr. injection Hr as <-.
  destruct (H (lit [("name", VStr "a"); ("type", VStr "int");
                    ("default", VInt 0)]) (or_introl eq_refl))
    as (name & k & Hn & _ & Hrule).
  vm_compute in Hn. injection Hn as <-.
  change (has_default
            (lit [("name", VStr "a"); ("type", VStr "int");
                  ("default", VInt 0)])) with true in Hrule.
  destruct Hrule as (default & _ & Hnot & _).
  apply Hnot. left. reflexivity.
Qed.

(** The defaults 0, false and "" are examples as they stand, and the fields
    that carry them are not required. *)
Example falsy_defaults :
  extract_message_examples Demo.loads "<Order>" =
    Ok (lit [("id", VStr "example-string");
             ("count", VInt 0);
             ("paid", VBool false);
             ("note", VStr "");
             ("tag", VStr "example-string")])
  /\ rbind (avro_to_asyncapi_schema Demo.loads "<Order>")
        (fun schema => py_item schema "required")
      = Ok (VList [VStr "id"; VStr "tag"]).
Proof. split; reflexivity. Qed.

(** Without distinct names the rule is about the last field of a name: the
    later field without default overrides the example of the earlier one
    and puts the name in [required]. *)
Example twin_fields :
  extract_message_examples Demo.loads "<Twins>" =
    Ok (lit [("a", VStr "example-string")])
  /\ rbind (avro_to_asyncapi_schema Demo.loads "<Twins>")
        (fun schema => py_item schema "required")
      = Ok (VList [VStr "a"])
  /\ rbind (fields_of Demo.record_with_twins)
        (fun fields => Ok (distinct_names fields)) = Ok false.
Proof. repeat split; reflexivity. Qed.

Example not_json :
  avro_to_asyncapi_schema Demo.loads "not json" = Ok conversion_error /\
  extract_message_examples Demo.loads "not json" = Ok (VDict []).
Proof. split; reflexivity. Qed.

End AnalyzerFacts.

(* ================================================================== *)
(** * SchemaPurger: deletions, purge and filter *)
(* ================================================================== *)

Module PurgerFacts.
Import Py Http PyFacts SchemaPurger.

Lemma filter_partition_length {A} (p : A -> bool) (l : list A) :
  (List.length (filter p l) + List.length (filter (fun x => negb (p x)) l)
   = List.length l)%nat.
Proof.
  induction l as [ | x l IH]; simpl; auto.
  destruct (p x); simpl; lia.
Qed.

Section Purger.

Variable N : network.
Variable repr : value -> string.
Variable self : purger.

#[local] Abbreviation IO := (M (net_state N)).
#[local] Abbreviation soft_delete_subject := (soft_delete_subject N repr self).
#[local] Abbreviation hard_delete_subject := (hard_delete_subject N repr self).
#[local] Abbreviation soft_request := (soft_request repr self).
#[local] Abbreviation permanent_request := (permanent_request repr self).

(** ** Single deletions *)

Lemma failure_is_outcome (subject : value) (error : string) :
  is_outcome subject (failure subject error).
Proof. exists false. eexists. reflexivity. Qed.

Lemma delete_outcome_is_outcome (subject : value) (verb : string)
  (response : response) (v : value) :
  delete_outcome subject verb response = Ok v -> is_outcome subject v.
Proof.
  unfold delete_outcome.
  destruct (status_code response =? 200)%Z.
  - destruct (json response) as [versions | ]; [ | discriminate].
    cbn [rbind]. destruct (py_len versions); [ | discriminate].
    cbn [rbind]. intros H. injection H as <-.
    exists true. eexists. reflexivity.
  - intros H. injection H as <-. apply failure_is_outcome.
Qed.

Lemma final_outcome_is_outcome (subject : value) (r : result response) :
  is_outcome subject (final_outcome subject r).
Proof.
  unfold final_outcome. destruct r as [response | e].
  - destruct (delete_outcome subject "Permanently deleted" response) eqn:E.
    + eapply delete_outcome_is_outcome; eauto.
    + apply failure_is_outcome.
  - apply failure_is_outcome.
Qed.

(** [soft_delete_subject] sends one request and returns a result dict. *)
Lemma soft_delete_subject_total (subject : value) (s : net_state N) :
  exists result s',
    soft_delete_subject subject s = (Ok result, s') /\
    is_outcome subject result /\
    sent s' = (sent s ++ [soft_request subject])%list.
Proof.
  unfold SchemaPurger.soft_delete_subject, try_catch, bind, requests_delete,
    http, pure, ret.
  fold (soft_request subject).
  destruct (send N (soft_request subject) (the_world s)) as [[response | e] w].
  - destruct (delete_outcome subject "Soft-deleted" response) eqn:E.
    + do 2 eexists. split; [reflexivity | ]. split; [ | reflexivity].
      eapply delete_outcome_is_outcome; eauto.
    + do 2 eexists. split; [reflexivity | ]. split; [ | reflexivity].
      apply failure_is_outcome.
  - do 2 eexists. split; [reflexivity | ]. split; [ | reflexivity].
    apply failure_is_outcome.
Qed.

(** The two calls of [hard_delete_subject], spelled out. *)
Lemma hard_delete_subject_unfold (subject : value) (s : net_state N) :
  let (r1, w1) := send N (soft_request subject) (the_world s) in
  match r1 with
  | Raise e =>
      hard_delete_subject subject s =
        (Ok (failure subject (exn_str e)),
         mkNet w1 (sent s ++ [soft_request subject])%list)
  | Ok _ =>
      let (r2, w2) := send N (permanent_request subject) w1 in
      hard_delete_subject subject s =
        (Ok (final_outcome subject r2),
         mkNet w2 (sent s ++ [soft_request subject;
                              permanent_request subject])%list)
  end.
Proof.
  unfold SchemaPurger.hard_delete_subject, try_catch, bind, requests_delete,
    http, pure, ret, final_outcome.
  fold (soft_request subject). fold (permanent_request subject).
  destruct (send N (soft_request subject) (the_world s))
    as [[response1 | e1] w1]; cbn [the_world sent]; [ | reflexivity].
  destruct (send N (permanent_request subject) w1) as [[response | e] w2];
    cbn [the_world sent]; unfold append; rewrite <- app_assoc; simpl app.
  - now destruct (delete_outcome subject "Permanently deleted" response).
  - reflexivity.
Qed.

(** [hard_delete_subject] returns a result dict, after one or two
    requests. *)
Lemma hard_delete_subject_total (subject : value) (s : net_state N) :
  exists result s',
    hard_delete_subject subject s = (Ok result, s') /\
    is_outcome subject result /\
    (sent s' = (sent s ++ [soft_request subject])%list \/
     sent s' = (sent s ++ [soft_request subject;
                           permanent_request subject])%list).
Proof.
  pose proof (hard_delete_subject_unfold subject s) as H.
  destruct (send N (soft_request subject) (the_world s)) as [[r1 | e1] w1].
  - destruct (send N (permanent_request subject) w1) as [r2 w2].
    do 2 eexists. split; [exact H | ].
    split; [apply final_outcome_is_outcome | right; reflexivity].
  - do 2 eexists. split; [exact H | ].
    split; [apply failure_is_outcome | left; reflexivity].
Qed.

Lemma soft_delete_returns (subject : value) (s : net_state N) :
  exists result s',
    soft_delete_subject subject s = (Ok result, s') /\
    is_outcome subject result.
Proof.
  destruct (soft_delete_subject_total subject s) as (r & s' & ? & ? & _).
  eauto.
Qed.

Lemma hard_delete_returns (subject : value) (s : net_state N) :
  exists result s',
    hard_delete_subject subject s = (Ok result, s') /\
    is_outcome subject result.
Proof.
  destruct (hard_delete_subject_total subject s) as (r & s' & ? & ? & _).
  eauto.
Qed.

(** C7, as the code has it.  [hard_delete_subject] first sends the
    soft-delete request.  If that call returns a response, the response is
    not looked at: the permanent-delete request is sent and its outcome
    alone is reported.  If the soft-delete call raises, no second request
    is sent and the failure reported is that exception. *)
Theorem hard_delete_subject_calls (subject : value) (s : net_state N) :
  let (r1, w1) := send N (soft_request subject) (the_world s) in
  match r1 with
  | Raise e =>
      hard_delete_subject subject s =
        (Ok (failure subject (exn_str e)),
         mkNet w1 (sent s ++ [soft_request subject])%list)
  | Ok _ =>
      let (r2, w2) := send N (permanent_request subject) w1 in
      hard_delete_subject subject s =
        (Ok (final_outcome subject r2),
         mkNet w2 (sent s ++ [soft_request subject;
                              permanent_request subject])%list)
  end.
Proof. exact (hard_delete_subject_unfold subject s). Qed.

(** ** Bulk deletions *)

Lemma is_success_outcome (subject result : value) :
  is_outcome subject result ->
  exists b, py_item result "success" = Ok (VBool b) /\ is_success result = b.
Proof.
  intros (b & rest & ->). exists b. unfold is_success.
  rewrite py_item_lit_head. auto.
Qed.

Section Bulk.

Variable delete_subject : value -> IO value.

Hypothesis delete_subject_total :
  forall subject s, exists result s',
    delete_subject subject s = (Ok result, s') /\ is_outcome subject result.

Lemma record_outcomes (subjects : list value) :
  forall acc s, exists outcomes s',
    attempts N delete_subject subjects s outcomes s' /\
    Forall2 is_outcome subjects outcomes /\
    for_loop (record_outcome N delete_subject) subjects acc s =
      (Ok ((fst acc ++ filter is_success outcomes)%list,
           (snd acc ++ filter (fun r => negb (is_success r)) outcomes)%list),
       s').
Proof.
  induction subjects as [ | subject subjects IH]; intros acc s.
  - exists [], s. simpl. rewrite !app_nil_r.
    repeat split; try constructor. now destruct acc.
  - destruct (delete_subject_total subject s) as (result & s1 & Hd & Ho).
    destruct (is_success_outcome _ _ Ho) as (b & Hb & Hs).
    set (acc1 := if b then (append (fst acc) result, snd acc)
                 else (fst acc, append (snd acc) result)).
    destruct (IH acc1 s1) as (outcomes & s' & Ha & Hf & Hl).
    exists (result :: outcomes), s'.
    split; [econstructor; eauto | ]. split; [constructor; auto | ].
    cbn [for_loop]. unfold bind at 1. unfold record_outcome at 1.
    unfold bind at 1. rewrite Hd. unfold bind at 1, pure at 1. rewrite Hb.
    cbn [py_truthy]. simpl filter. rewrite Hs.
    destruct b; unfold ret at 1; fold acc1; rewrite Hl; subst acc1;
      cbn [fst snd negb]; unfold append; now rewrite <- !app_assoc.
Qed.

Lemma attempts_length (subjects outcomes : list value) (s s' : net_state N) :
  attempts N delete_subject subjects s outcomes s' ->
  List.length outcomes = List.length subjects.
Proof. induction 1; simpl; auto. Qed.

End Bulk.

Lemma bulk_delete_accounts (delete_subject : value -> IO value)
  (subjects : list value) (s : net_state N) :
  (forall subject s, exists result s',
      delete_subject subject s = (Ok result, s') /\
      is_outcome subject result) ->
  exists report s',
    bulk_delete N delete_subject subjects s = (Ok report, s') /\
    accounts_for N delete_subject subjects s report s'.
Proof.
  intros Hd.
  destruct (record_outcomes delete_subject Hd subjects ([], []) s)
    as (outcomes & s' & Ha & Hf & Hl).
  do 2 eexists. split.
  - unfold bulk_delete, bind, utc_now_isoformat. rewrite Hl.
    unfold ret. reflexivity.
  - exists outcomes. split; [auto | ]. split; [auto | ].
    cbn [fst snd app]. split; [reflexivity | ].
    rewrite <- Nat2Z.inj_add, filter_partition_length.
    f_equal. eapply attempts_length; eauto.
Qed.

Lemma soft_attempts_sent (subjects outcomes : list value)
  (s s' : net_state N) :
  attempts N soft_delete_subject subjects s outcomes s' ->
  sent s' = (sent s ++ map soft_request subjects)%list.
Proof.
  induction 1 as [ | subject subjects s result s1 results s2 H _ IH]; simpl.
  - now rewrite app_nil_r.
  - destruct (soft_delete_subject_total subject s) as (r & t & Hr & _ & Hs).
    rewrite Hr in H. injection H as _ <-.
    rewrite IH, Hs, <- app_assoc. reflexivity.
Qed.

(** C2.  Whatever the list of subjects and whatever the registry answers,
    both bulk deletions return a report whose total is the length of the
    list and whose two counts add up to the total; every subject is
    attempted in turn, and its outcome is filed as a success or as a
    failure; the soft deletion sends its one request for every subject.  On
    the empty list all counts are zero. *)
Theorem bulk_accounting (subjects : list value) (s : net_state N) :
  (exists report s',
      bulk_soft_delete N repr self subjects s = (Ok report, s') /\
      accounts_for N soft_delete_subject subjects s report s' /\
      sent s' = (sent s ++ map soft_request subjects)%list) /\
  (exists report s',
      bulk_hard_delete N repr self subjects s = (Ok report, s') /\
      accounts_for N hard_delete_subject subjects s report s') /\
  bulk_soft_delete N repr self [] s =
    (Ok (lit [("total", VInt 0);
              ("successful", VList []);
              ("failed", VList []);
              ("timestamp", VStr (now N (the_world s)));
              ("success_count", VInt 0);
              ("failure_count", VInt 0)]), s) /\
  bulk_hard_delete N repr self [] s =
    (Ok (lit [("total", VInt 0);
              ("successful", VList []);
              ("failed", VList []);
              ("timestamp", VStr (now N (the_world s)));
              ("success_count", VInt 0);
              ("failure_count", VInt 0)]), s).
Proof.
  split; [ | split; [ | split; reflexivity]].
  - destruct (bulk_delete_accounts soft_delete_subject subjects s
                soft_delete_returns) as (report & s' & Hb & Ha).
    exists report, s'. split; [exact Hb | ]. split; [exact Ha | ].
    destruct Ha as (outcomes & Ha & _). eapply soft_attempts_sent; eauto.
  - destruct (bulk_delete_accounts hard_delete_subject subjects s
                hard_delete_returns) as (report & s' & Hb & Ha).
    exists report, s'. split; [exact Hb | exact Ha].
Qed.

(** ** Purge *)

Lemma difference_loop (active items : list value) :
  forall acc,
    for_each (not_in_active (VList active)) items acc =
      Ok (acc ++ difference items active)%list.
Proof.
  induction items as [ | x items IH]; intros acc; simpl.
  - now rewrite app_nil_r.
  - unfold not_in_active at 1. cbn [py_in rbind].
    destruct (existsb (py_eqb x) active); cbn [negb].
    + apply IH.
    + rewrite IH. unfold append. now rewrite <- app_assoc.
Qed.

(** C8.  When both listings are fetched and are lists, the purge computes
    the subjects of the listing with deleted included that are not in the
    listing without; when there is none it returns the success result with
    count 0, otherwise it returns the result of [bulk_hard_delete] on
    exactly those subjects. *)
Theorem purge_is_set_difference (soft_deleted active : list value)
  (s s1 s2 : net_state N) :
  get_all_subjects N self true s = (Ok (VList soft_deleted), s1) ->
  get_all_subjects N self false s1 = (Ok (VList active), s2) ->
  purge_soft_deleted N repr self s =
    match difference soft_deleted active with
    | [] =>
        (Ok (lit [("success", VBool true);
                  ("message", VStr "No soft-deleted subjects found");
                  ("count", VInt 0)]), s2)
    | deleted_subjects => bulk_hard_delete N repr self deleted_subjects s2
    end
  /\ forall subject,
       In subject (difference soft_deleted active) <->
       In subject soft_deleted /\ existsb (py_eqb subject) active = false.
Proof.
  intros H1 H2. split.
  - unfold purge_soft_deleted, try_catch, bind. rewrite H1, H2.
    unfold pure. cbn [py_iter]. rewrite difference_loop. cbn [app].
    destruct (difference soft_deleted active) as [ | x l] eqn:E.
    + reflexivity.
    + destruct (bulk_delete_accounts hard_delete_subject (x :: l) s2
                  hard_delete_returns) as (report & s' & Hb & _).
      unfold bulk_hard_delete. now rewrite Hb.
  - intros subject. unfold difference. rewrite filter_In.
    now rewrite negb_true_iff.
Qed.

(** ** Filter *)

Lemma prefix_spec (s t : string) :
  String.prefix s t = true <-> exists after, t = s ++ after.
Proof.
  revert t. induction s as [ | c s IH]; intros t.
  - destruct t; simpl; (split; [eexists; reflexivity | reflexivity]).
  - destruct t as [ | c' t]; simpl.
    + split; [discriminate | intros [after H]; discriminate H].
    + destruct (Ascii.ascii_dec c c') as [<- | Hne].
      * rewrite IH. split; intros [after H]; exists after.
        -- now rewrite H.
        -- now injection H.
      * split; [discriminate | ].
        intros [after H]. injection H as H _. congruence.
Qed.

Lemma str_contains_spec (pattern name : string) :
  str_contains pattern name = true <-> substring_of pattern name.
Proof.
  unfold substring_of. induction name as [ | c name IH].
  - cbn [str_contains]. rewrite orb_false_r, prefix_spec. split.
    + intros [after H]. exists "", after. exact H.
    + intros (before & after & H). destruct before; [eauto | discriminate].
  - cbn [str_contains]. rewrite orb_true_iff, IH, prefix_spec. split.
    + intros [[after H] | (before & after & H)].
      * exists "", after. exact H.
      * exists (String c before), after. simpl. now rewrite H.
    + intros (before & after & H). destruct before as [ | c' before].
      * left. eauto.
      * right. injection H as _ H. eauto.
Qed.

(** [get_subject_details] returns, and the details hold a version count
    unless they hold an error. *)
Lemma get_subject_details_total (subject : value) (s : net_state N) :
  exists details s',
    get_subject_details N repr self subject s = (Ok details, s') /\
    exists n, py_get details "version_count" (VInt 0) = Ok (VInt n).
Proof.
  unfold get_subject_details, try_catch.
  match goal with
  | |- context [match ?m s with _ => _ end] =>
      destruct (m s) as [[d | e] s'] eqn:E
  end.
  - exists d, s'. split; [reflexivity | ].
    unfold bind, pure, ret in E.
    repeat match type of E with
           | match ?x with _ => _ end = _ => destruct x; try discriminate E
           | (let (_, _) := ?x in _) = _ => destruct x; try discriminate E
           end.
    injection E as <- _. eexists. reflexivity.
  - do 2 eexists. split; [reflexivity | ]. eexists. reflexivity.
Qed.

(** When the first request of [get_subject_details] raises, the details
    are the error dict. *)
Lemma details_error_on_failed_request (subject : value) (s : net_state N)
  (e : exn) (w : world N) :
  let request :=
    mkRequest GET (endpoint self ++ "/subjects/" ++ py_str repr subject
                     ++ "/versions") (auth self) (timeout self) in
  send N request (the_world s) = (Raise e, w) ->
  get_subject_details N repr self subject s =
    (Ok (lit [("subject", subject); ("error", VStr (exn_str e))]),
     mkNet w (append (sent s) request)).
Proof.
  intros request H.
  unfold get_subject_details, try_catch, bind, requests_get, http.
  fold request. now rewrite H.
Qed.

Lemma str_contains_empty (name : string) : str_contains "" name = true.
Proof. apply str_contains_spec. exists "", name. reflexivity. Qed.

(** One turn of the loop of the filter, on a subject that is a string. *)
Lemma filter_subject_step (min_versions : option Z) (pattern : option string)
  (name : string) (filtered : list value) (s : net_state N) :
  filter_subject N repr self min_versions pattern (VStr name) filtered s =
    let (n, s1) :=
      match min_versions with
      | None => (0%Z, s)
      | Some _ => version_count_seen N repr self (VStr name) s
      end in
    (Ok (if passes min_versions pattern name n
         then append filtered (VStr name) else filtered), s1).
Proof.
  assert (forall (include : bool) (t : net_state N),
             bind
               match pattern with
               | Some p =>
                   if py_truthy (VStr p)
                   then bind (pure (py_in (VStr p) (VStr name)))
                          (fun found : bool =>
                             ret (if found then include else false))
                   else ret include
               | None => ret include
               end
               (fun include : bool =>
                  ret (if include then append filtered (VStr name)
                       else filtered)) t
             = (Ok (if include &&
                       match pattern with
                       | None => true
                       | Some p => str_contains p name
                       end
                    then append filtered (VStr name) else filtered), t))
    as Hpat.
  { intros include t. destruct pattern as [p | ].
    - cbn [py_truthy]. destruct (String.eqb_spec p "") as [-> | Hne].
      + cbn [negb]. rewrite str_contains_empty, andb_true_r. reflexivity.
      + cbn [negb]. unfold bind, pure, ret. cbn [py_in].
        destruct (str_contains p name), include; reflexivity.
    - rewrite andb_true_r. reflexivity. }
  unfold filter_subject, passes. destruct min_versions as [m | ].
  - unfold version_count_seen, count_in.
    destruct (get_subject_details_total (VStr name) s)
      as (details & s1 & Hd & n & Hn).
    unfold bind at 1. unfold bind at 1. rewrite Hd.
    unfold bind at 1. unfold pure at 1. rewrite Hn.
    unfold bind at 1. unfold pure at 1. cbn [py_lt_int]. unfold ret at 1.
    rewrite Hpat. rewrite Z.leb_antisym. now destruct (n <? m)%Z.
  - unfold bind at 1. unfold ret at 1. rewrite Hpat. reflexivity.
Qed.

Lemma filter_loop (min_versions : option Z) (pattern : option string)
  (names : list string) :
  forall filtered s,
    for_loop (filter_subject N repr self min_versions pattern)
      (map VStr names) filtered s =
    let (counts, s') := version_counts N repr self min_versions names s in
    (Ok (filtered ++ map VStr (kept min_versions pattern names counts))%list,
     s').
Proof.
  induction names as [ | name names IH]; intros filtered s.
  - simpl. unfold ret. now rewrite app_nil_r.
  - cbn [map for_loop version_counts]. unfold bind.
    rewrite filter_subject_step.
    destruct (match min_versions with
              | Some _ => version_count_seen N repr self (VStr name) s
              | None => (0%Z, s)
              end) as [n s1].
    rewrite IH.
    destruct (version_counts N repr self min_versions names s1)
      as [counts s2].
    unfold kept. cbn [combine filter fst snd].
    destruct (passes min_versions pattern name n); cbn [map fst].
    + unfold append. now rewrite <- app_assoc.
    + reflexivity.
Qed.

Lemma version_counts_length (min_versions : option Z) (names : list string) :
  forall s,
    List.length (fst (version_counts N repr self min_versions names s))
    = List.length names.
Proof.
  induction names as [ | name names IH]; intros s; simpl; auto.
  destruct (match min_versions with
            | Some _ => version_count_seen N repr self (VStr name) s
            | None => (0%Z, s)
            end) as [n s1].
  specialize (IH s1).
  destruct (version_counts N repr self min_versions names s1). simpl in *.
  now rewrite IH.
Qed.

Lemma passes_spec (min_versions : option Z) (pattern : option string)
  (name : string) (n : Z) :
  passes min_versions pattern name n = true <->
  match min_versions with
  | None => True
  | Some m => (m <= n)%Z
  end /\
  match pattern with
  | None => True
  | Some p => substring_of p name
  end.
Proof.
  unfold passes. rewrite andb_true_iff.
  destruct min_versions, pattern;
    rewrite ?Z.leb_le, ?str_contains_spec; tauto.
Qed.

(** ** The version counts and the answers of the registry *)

Lemma request_then {A} (url : string) (k : response -> IO A)
  (s : net_state N) :
  bind (requests_get N url (auth self) (timeout self)) k s =
    match send N (mkRequest GET url (auth self) (timeout self))
            (the_world s) with
    | (Ok response, w) =>
        k response
          (mkNet w
             (append (sent s)
                (mkRequest GET url (auth self) (timeout self))))
    | (Raise e, w) =>
        (Raise e,
         mkNet w
           (append (sent s) (mkRequest GET url (auth self) (timeout self))))
    end.
Proof.
  unfold bind, requests_get, http.
  destruct (send N _ _) as [[response | e] w]; reflexivity.
Qed.

Lemma pure_then {A B} (r : result A) (k : A -> IO B) (s : net_state N) :
  bind (pure r) k s =
    match r with
    | Ok a => k a s
    | Raise e => (Raise e, s)
    end.
Proof. unfold bind, pure. destruct r; reflexivity. Qed.

(** The count that the filter reads in the details of a subject is the
    count that the answers of the registry give. *)
Lemma seen_from_answers (subject : value) (s : net_state N) :
  fst (version_count_seen N repr self subject s)
    = fst (count_from_answers N repr self subject (the_world s)) /\
  the_world (snd (version_count_seen N repr self subject s))
    = snd (count_from_answers N repr self subject (the_world s)).
Proof.
  unfold version_count_seen, count_from_answers, get_subject_details,
    try_catch, versions_request, latest_request.
  rewrite request_then.
  destruct (send N _ (the_world s)) as [[versions_resp | e] w1];
    cbn [rbind]; [ | split; reflexivity].
  rewrite pure_then.
  destruct (if (status_code versions_resp =? 200)%Z
            then json versions_resp else Ok (VList []))
    as [versions | e]; [ | split; reflexivity].
  rewrite request_then. cbn [the_world].
  destruct (send N _ w1) as [[latest_resp | e] w2];
    cbn [rbind]; [ | split; reflexivity].
  rewrite pure_then.
  destruct (if (status_code latest_resp =? 200)%Z
            then json latest_resp else Ok (VDict []))
    as [latest | e]; cbn [rbind]; [ | split; reflexivity].
  rewrite pure_then.
  destruct (py_get latest "schema" (VStr "")) as [schema_str | e] eqn:Eg;
    cbn [rbind]; [ | split; reflexivity].
  rewrite pure_then.
  destruct (py_len schema_str) as [schema_len | e];
    cbn [rbind]; [ | split; reflexivity].
  rewrite pure_then.
  destruct (py_len versions) as [version_count | e];
    [ | split; reflexivity].
  destruct latest as [ | b | n | f | t | l | d]; try discriminate Eg.
  rewrite !pure_then. cbn [py_get]. split; reflexivity.
Qed.

Lemma counts_agree (min_versions : option Z) (names : list string) :
  forall s : net_state N,
    fst (version_counts N repr self min_versions names s)
      = fst (counts_from_answers N repr self min_versions names
               (the_world s)) /\
    the_world (snd (version_counts N repr self min_versions names s))
      = snd (counts_from_answers N repr self min_versions names
               (the_world s)).
Proof.
  induction names as [ | name names IH]; intros s; [split; reflexivity | ].
  cbn [version_counts counts_from_answers].
  destruct min_versions as [m | ].
  - destruct (seen_from_answers (VStr name) s) as [Hn Hw].
    destruct (version_count_seen N repr self (VStr name) s) as [n s1].
    destruct (count_from_answers N repr self (VStr name) (the_world s))
      as [n' w1].
    cbn [fst snd] in Hn, Hw. subst n' w1.
    destruct (IH s1) as [Hc Hw].
    destruct (version_counts N repr self (Some m) names s1) as [counts s2].
    destruct (counts_from_answers N repr self (Some m) names (the_world s1))
      as [counts' w2].
    cbn [fst snd] in *. subst. split; reflexivity.
  - destruct (IH s) as [Hc Hw].
    destruct (version_counts N repr self None names s) as [counts s2].
    destruct (counts_from_answers N repr self None names (the_world s))
      as [counts' w2].
    cbn [fst snd] in *. subst. split; reflexivity.
Qed.

(** C9.  When the listing is fetched and is a list of strings, the filter
    returns, in the order of the listing, exactly the subjects that pass
    both tests: the version count that the answers of the registry give
    for the subject is at least [min_versions], if that is set, and
    [pattern] is a substring of the name, if that is set.  The count is
    the number of versions listed with status 200 when both requests for
    the details are answered and read, and 0 otherwise. *)
Theorem filter_is_conjunction (min_versions : option Z)
  (pattern : option string) (names : list string) (s s1 : net_state N) :
  get_all_subjects N self false s = (Ok (VList (map VStr names)), s1) ->
  let (counts, w') :=
    counts_from_answers N repr self min_versions names (the_world s1) in
  (exists s',
      get_subjects_by_filter N repr self min_versions pattern s =
        (Ok (map VStr (kept min_versions pattern names counts)), s') /\
      the_world s' = w')
  /\ List.length counts = List.length names
  /\ kept min_versions pattern names counts =
       map fst (filter (fun nc => passes min_versions pattern (fst nc) (snd nc))
                  (combine names counts))
  /\ forall name version_count,
       In (name, version_count)
          (filter (fun nc => passes min_versions pattern (fst nc) (snd nc))
             (combine names counts)) <->
       In (name, version_count) (combine names counts) /\
       match min_versions with
       | None => True
       | Some m => (m <= version_count)%Z
       end /\
       match pattern with
       | None => True
       | Some p => substring_of p name
       end.
Proof.
  intros H.
  pose proof (filter_loop min_versions pattern names [] s1) as Hl.
  pose proof (version_counts_length min_versions names s1) as Hn.
  destruct (counts_agree min_versions names s1) as [Hc Hw].
  destruct (version_counts N repr self min_versions names s1) as [counts s'].
  destruct (counts_from_answers N repr self min_versions names
              (the_world s1)) as [counts' w'].
  cbn [fst snd] in Hc, Hw, Hn. subst counts' w'.
  split; [ | split; [exact Hn | split; [reflexivity | ]]].
  - exists s'. split; [ | reflexivity].
    unfold get_subjects_by_filter, try_catch, bind. rewrite H.
    unfold pure. cbn [py_iter]. now rewrite Hl.
  - intros name n. rewrite filter_In. cbn [fst snd].
    now rewrite passes_spec.
Qed.

(** C10.  With [min_versions] at least 1, a subject whose details come back
    as an error has the version count 0 and is left out of the result; the
    loop goes on without raising. *)
Theorem failed_details_exclude (min_versions : Z) (pattern : option string)
  (name error : string) (filtered : list value) (s s' : net_state N) :
  (1 <= min_versions)%Z ->
  get_subject_details N repr self (VStr name) s =
    (Ok (lit [("subject", VStr name); ("error", VStr error)]), s') ->
  py_get (lit [("subject", VStr name); ("error", VStr error)])
    "version_count" (VInt 0) = Ok (VInt 0)
  /\ filter_subject N repr self (Some min_versions) pattern (VStr name)
       filtered s = (Ok filtered, s').
Proof.
  intros Hm Hd. split; [reflexivity | ].
  rewrite filter_subject_step. unfold version_count_seen. rewrite Hd.
  unfold count_in. cbn. unfold passes.
  destruct (Z.leb_spec min_versions 0) as [Hle | _]; [lia | reflexivity].
Qed.

End Purger.

(** ** The purger on the scripted registries *)

(** C7, as stated, fails: when the soft-delete call times out,
    [hard_delete_subject] sends no permanent-delete request and reports the
    timeout, though the registry would have accepted the permanent
    deletion. *)
Lemma hard_delete_stops_at_failed_soft_call :
  ~ two_calls_second_decides Demo.scripted Demo.repr Demo.purger
      (VStr "orders-key")
      (Demo.start [Demo.timed_out; Demo.answer 200 (Demo.ints [1; 2]%Z)]).
Proof.
  unfold two_calls_second_decides. vm_compute. intros H. discriminate H.
Qed.

Example hard_delete_after_timeout :
  hard_delete_subject Demo.scripted Demo.repr Demo.purger (VStr "orders-key")
    (Demo.start [Demo.timed_out; Demo.answer 200 (Demo.ints [1; 2]%Z)])
  = (Ok (failure (VStr "orders-key") "Read timed out. (read timeout=10)"),
     mkNet ([Demo.answer 200 (Demo.ints [1; 2]%Z)] : world Demo.scripted)
       [soft_request Demo.repr Demo.purger (VStr "orders-key")]).
Proof. reflexivity. Qed.

(** A soft-delete call that is answered by an error status does not stop
    the permanent deletion. *)
Example hard_delete_after_404 :
  hard_delete_subject Demo.scripted Demo.repr Demo.purger (VStr "orders-key")
    (Demo.start [Demo.answer 404 VNone; Demo.answer 200 (Demo.ints [1; 2]%Z)])
  = (Ok (lit [("success", VBool true);
              ("subject", VStr "orders-key");
              ("deleted_versions", Demo.ints [1; 2]%Z);
              ("message", VStr "Permanently deleted 2 versions")]),
     mkNet ([] : world Demo.scripted)
       [soft_request Demo.repr Demo.purger (VStr "orders-key");
        permanent_request Demo.repr Demo.purger (VStr "orders-key")]).
Proof. reflexivity. Qed.

(** The purge on a registry that lists three subjects, one of them
    active. *)
Lemma purge_is_set_difference_witness :
  let s := Demo.start Demo.purge_script in
  let s1 := snd (get_all_subjects Demo.scripted Demo.purger true s) in
  let s2 := snd (get_all_subjects Demo.scripted Demo.purger false s1) in
  let soft_deleted := map VStr Demo.names in
  let active := [VStr "orders-value"] in
  (get_all_subjects Demo.scripted Demo.purger true s
     = (Ok (VList soft_deleted), s1) /\
   get_all_subjects Demo.scripted Demo.purger false s1
     = (Ok (VList active), s2)) /\
  (purge_soft_deleted Demo.scripted Demo.repr Demo.purger s =
     match difference soft_deleted active with
     | [] =>
         (Ok (lit [("success", VBool true);
                   ("message", VStr "No soft-deleted subjects found");
                   ("count", VInt 0)]), s2)
     | deleted_subjects =>
         bulk_hard_delete Demo.scripted Demo.repr Demo.purger
           deleted_subjects s2
     end
   /\ forall subject,
        In subject (difference soft_deleted active) <->
        In subject soft_deleted /\ existsb (py_eqb subject) active = false).
Proof.
  cbv zeta. split.
  - split; reflexivity.
  - eapply purge_is_set_difference; reflexivity.
Defined.

(** The purge deletes the two subjects that only the listing with deleted
    subjects shows, and accounts for the one that fails. *)
Example purge_scenario :
  fst (purge_soft_deleted Demo.scripted Demo.repr Demo.purger
         (Demo.start Demo.purge_script))
  = Ok (lit [("total", VInt 2);
             ("successful",
               VList [lit [("success", VBool true);
                           ("subject", VStr "orders-key");
                           ("deleted_versions", Demo.ints [1; 2; 3]%Z);
                           ("message",
                             VStr "Permanently deleted 3 versions")]]);
             ("failed",
               VList [failure (VStr "users-value")
                        "Read timed out. (read timeout=10)"]);
             ("timestamp", VStr Demo.clock);
             ("success_count", VInt 1);
             ("failure_count", VInt 1)]).
Proof. reflexivity. Qed.

(** The filter with [min_versions] 3 and the pattern "orders" on the
    registry of three subjects. *)
Lemma filter_is_conjunction_witness :
  let s := Demo.start Demo.filter_script in
  let s1 := snd (get_all_subjects Demo.scripted Demo.purger false s) in
  let min_versions := Some 3%Z in
  let pattern := Some "orders" in
  get_all_subjects Demo.scripted Demo.purger false s
    = (Ok (VList (map VStr Demo.names)), s1) /\
  let (counts, w') :=
    counts_from_answers Demo.scripted Demo.repr Demo.purger min_versions
      Demo.names (the_world s1) in
  (exists s',
      get_subjects_by_filter Demo.scripted Demo.repr Demo.purger
        min_versions pattern s =
        (Ok (map VStr (kept min_versions pattern Demo.names counts)), s') /\
      the_world s' = w')
  /\ List.length counts = List.length Demo.names
  /\ kept min_versions pattern Demo.names counts =
       map fst (filter (fun nc => passes min_versions pattern (fst nc) (snd nc))
                  (combine Demo.names counts))
  /\ forall name version_count,
       In (name, version_count)
          (filter (fun nc => passes min_versions pattern (fst nc) (snd nc))
             (combine Demo.names counts)) <->
       In (name, version_count) (combine Demo.names counts) /\
       (3 <= version_count)%Z /\
       substring_of "orders" name.
Proof.
  cbv zeta. split.
  - reflexivity.
  - apply (filter_is_conjunction Demo.scripted Demo.repr Demo.purger
             (Some 3%Z) (Some "orders") Demo.names
             (Demo.start Demo.filter_script)).
    reflexivity.
Defined.

(** C9, as stated, fails: the registry lists five versions for
    "orders-key", the request for the latest version times out, and the
    filter with [min_versions] 3 leaves the subject out, the count read in
    the failed details being 0. *)
Theorem filter_drops_subject_with_unread_details :
  let s :=
    Demo.start [Demo.answer 200 (Demo.ints [1; 2; 3; 4; 5]%Z);
                Demo.timed_out] in
  listed_versions Demo.scripted Demo.repr Demo.purger (VStr "orders-key")
    (the_world s) = Some 5%Z /\
  passes (Some 3%Z) (Some "orders") "orders-key" 5 = true /\
  fst (filter_subject Demo.scripted Demo.repr Demo.purger (Some 3%Z)
         (Some "orders") (VStr "orders-key") [] s) = Ok [] /\
  ~ listed_versions_decide Demo.scripted Demo.repr Demo.purger (Some 3%Z)
      (Some "orders") "orders-key" s.
Proof.
  cbv zeta. do 3 (split; [reflexivity | ]).
  intros H. specialize (H 5%Z eq_refl). vm_compute in H. discriminate H.
Qed.

(** The scenarios of the specification: with [min_versions] 3 and the
    pattern "orders", the subject with 2 versions and the subject without
    the pattern are left out; with the pattern alone, the two subjects that
    contain it are returned in the order of the listing. *)
Example filter_scenarios :
  fst (get_subjects_by_filter Demo.scripted Demo.repr Demo.purger
         (Some 3%Z) (Some "orders") (Demo.start Demo.filter_script))
    = Ok [VStr "orders-key"]
  /\ fst (get_subjects_by_filter Demo.scripted Demo.repr Demo.purger
            None (Some "orders") (Demo.start Demo.filter_script))
     = Ok [VStr "orders-value"; VStr "orders-key"].
Proof. split; reflexivity. Qed.

(** A subject whose version list cannot be fetched is left out. *)
Lemma failed_details_exclude_witness :
  let s := Demo.start [Demo.timed_out] in
  let s' := snd (get_subject_details Demo.scripted Demo.repr Demo.purger
                   (VStr "orders-key") s) in
  let error := "Read timed out. (read timeout=10)" in
  ((1 <= 1)%Z /\
   get_subject_details Demo.scripted Demo.repr Demo.purger
     (VStr "orders-key") s =
     (Ok (lit [("subject", VStr "orders-key"); ("error", VStr error)]), s')) /\
  (py_get (lit [("subject", VStr "orders-key"); ("error", VStr error)])
     "version_count" (VInt 0) = Ok (VInt 0)
   /\ filter_subject Demo.scripted Demo.repr Demo.purger (Some 1%Z)
        (Some "orders") (VStr "orders-key") [VStr "orders-value"] s
      = (Ok [VStr "orders-value"], s')).
Proof.
  cbv zeta. split.
  - split; [lia | reflexivity].
  - apply failed_details_exclude; [lia | reflexivity].
Defined.

End PurgerFacts.

(* ================================================================== *)
(** * SchemaHealthChecker: the aggregate status and the subject count *)
(* ================================================================== *)

Module CheckerFacts.
Import Py Http PyFacts SchemaHealthChecker.

Section Checker.

Variable N : network.
Variable repr : value -> string.
Variable self : checker.

#[local] Abbreviation IO := (M (state N)).

#[local] Abbreviation returns := (returns N).

Lemma try_catch_returns {A} (m : IO A) (h : exn -> IO A) :
  (forall e, returns (h e)) -> returns (try_catch m h).
Proof.
  intros Hh s. unfold try_catch.
  destruct (m s) as [[a | e] s']; [eauto | apply Hh].
Qed.

Lemma error_result_returns (e : exn) : returns (error_result N e).
Proof. intros s. do 2 eexists. reflexivity. Qed.

Lemma _check_connectivity_returns : returns (_check_connectivity N self).
Proof.
  apply try_catch_returns. intros e s. cbv zeta.
  unfold bind, issues_append, ret. do 2 eexists. reflexivity.
Qed.

Lemma _check_subject_count_returns : returns (_check_subject_count N self).
Proof. apply try_catch_returns, error_result_returns. Qed.

Lemma _check_version_explosion_returns :
  returns (_check_version_explosion N repr self).
Proof. apply try_catch_returns, error_result_returns. Qed.

Lemma _check_large_schemas_returns :
  returns (_check_large_schemas N repr self).
Proof. apply try_catch_returns, error_result_returns. Qed.

Lemma _check_compatibility_config_returns :
  returns (_check_compatibility_config N repr self).
Proof. apply try_catch_returns, error_result_returns. Qed.

Lemma _check_soft_deleted_returns : returns (_check_soft_deleted N self).
Proof. apply try_catch_returns, error_result_returns. Qed.

Lemma _check_orphaned_references_returns :
  returns (_check_orphaned_references N repr self).
Proof. apply try_catch_returns, error_result_returns. Qed.

Lemma summary_status_cases (issues warnings : list string) :
  (summary_status issues warnings = CRITICAL <-> issues <> []) /\
  (summary_status issues warnings = WARNING <->
     issues = [] /\ warnings <> []) /\
  (summary_status issues warnings = OK <-> issues = [] /\ warnings = []).
Proof.
  unfold summary_status, CRITICAL, WARNING, OK.
  destruct issues, warnings; repeat split; intros; try discriminate;
    try tauto; try congruence;
    match goal with
    | H : _ /\ _ |- _ => destruct H; congruence
    end.
Qed.

(** C1.  Every run of [check_all] returns a report; the status of its
    summary is CRITICAL exactly when the list of issues is not empty,
    WARNING exactly when that list is empty and the list of warnings is
    not, and OK exactly when both are empty.  The status is computed from
    the two lists alone: the status of a check, ERROR included, changes it
    only through the entries that the check appends. *)
Theorem aggregate_status (s : state N) :
  exists report checks summary status s',
    check_all N repr self s = (Ok report, s') /\
    py_item report "checks" = Ok checks /\
    py_item report "summary" = Ok summary /\
    py_item summary "issues" = Ok (VList (map VStr (issues N s'))) /\
    py_item summary "warnings" = Ok (VList (map VStr (warnings N s'))) /\
    py_item summary "status" = Ok status /\
    status = summary_status (issues N s') (warnings N s') /\
    (status = CRITICAL <-> issues N s' <> []) /\
    (status = WARNING <-> issues N s' = [] /\ warnings N s' <> []) /\
    (status = OK <-> issues N s' = [] /\ warnings N s' = []) /\
    status <> ERROR /\
    forall (check : IO value) (t t' : state N) (result : value),
      check t = (Ok result, t') ->
      py_item result "status" = Ok ERROR ->
      issues N t' = issues N t ->
      warnings N t' = warnings N t ->
      summary_status (issues N t') (warnings N t')
      = summary_status (issues N t) (warnings N t).
Proof.
  unfold check_all, bind. unfold now_isoformat, lift_net, utc_now_isoformat.
  cbn [net].
  match goal with
  | |- context [_check_connectivity N self ?t] =>
      destruct (_check_connectivity_returns t) as (r1 & s1 & ->)
  end.
  destruct (_check_subject_count_returns s1) as (r2 & s2 & ->).
  destruct (_check_version_explosion_returns s2) as (r3 & s3 & ->).
  destruct (_check_large_schemas_returns s3) as (r4 & s4 & ->).
  destruct (_check_compatibility_config_returns s4) as (r5 & s5 & ->).
  destruct (_check_soft_deleted_returns s5) as (r6 & s6 & ->).
  destruct (_check_orphaned_references_returns s6) as (r7 & s7 & ->).
  unfold summary, ret.
  do 5 eexists. split; [reflexivity | ].
  do 5 (split; [reflexivity | ]). split; [reflexivity | ].
  destruct (summary_status_cases (issues N s7) (warnings N s7))
    as (H1 & H2 & H3).
  split; [exact H1 | ]. split; [exact H2 | ]. split; [exact H3 | ].
  split.
  - unfold summary_status, ERROR, CRITICAL, WARNING, OK.
    destruct (issues N s7), (warnings N s7); discriminate.
  - intros check t t' result _ _ Hi Hw. now rewrite Hi, Hw.
Qed.

(** ** The subject count *)

(** What [_check_subject_count] does with a listing of [count] subjects
    that is answered without an error status: above 1000 it reports WARNING
    and appends a warning, whatever the count; otherwise it reports OK.  It
    never reports CRITICAL and never appends an issue. *)
Lemma subject_count_classification (s : state N) (response : response)
  (w : world N) (subjects : value) (count : nat) :
  send N (mkRequest GET (endpoint self ++ "/subjects") (auth self)
            (timeout self)) (the_world (net N s)) = (Ok response, w) ->
  raise_for_status response = Ok tt ->
  json response = Ok subjects ->
  py_len subjects = Ok count ->
  exists s',
    _check_subject_count N self s =
      (Ok (lit [("status", if (1000 <? count)%nat then WARNING else OK);
                ("count", VInt (Z.of_nat count));
                ("message", VStr ("Total subjects: " ++ str_nat count))]),
       s') /\
    issues N s' = issues N s /\
    warnings N s' =
      if (1000 <? count)%nat
      then append (warnings N s) ("High subject count: " ++ str_nat count)
      else warnings N s.
Proof.
  intros Hs Hr Hj Hl.
  unfold _check_subject_count, try_catch, bind, get, lift_net, requests_get,
    http, pure.
  rewrite Hs. cbn [net]. rewrite Hr, Hj, Hl.
  destruct (Nat.ltb_spec 1000 count) as [Hgt | Hle].
  - unfold warnings_append, ret. cbn. eexists. repeat split.
  - destruct (Nat.ltb_spec 5000 count) as [Hgt | _]; [lia | ].
    unfold ret. eexists. repeat split.
Qed.

End Checker.

(** ** The checker on the scripted registries *)

(** C3 at 5001 subjects: the check reports WARNING and appends a warning;
    the branch of the source that reports CRITICAL for a count above 5000
    comes after the branch for a count above 1000 and is never taken. *)
Theorem subject_count_5001_is_warning :
  _check_subject_count (Demo.constant (Demo.answer 200 (Demo.listing 5001)))
    Demo.checker
    (fresh (Demo.constant (Demo.answer 200 (Demo.listing 5001))) tt)
  = (Ok (lit [("status", WARNING);
              ("count", VInt 5001);
              ("message", VStr "Total subjects: 5001")]),
     mkState _
       (mkNet (tt : world (Demo.constant (Demo.answer 200 (Demo.listing 5001))))
          [mkRequest GET "https://registry.example/subjects"
             ("key", "secret") 10])
       []
       ["High subject count: 5001"]).
Proof. vm_compute. reflexivity. Qed.

(** A run in which one check reports ERROR, having appended nothing: the
    aggregate status is OK. *)
Example audit_with_an_error :
  let report :=
    fst (check_all Demo.scripted Demo.repr Demo.checker
           (fresh Demo.scripted Demo.audit_script)) in
  rbind report (fun r =>
    rbind (py_item r "checks") (fun checks =>
    rbind (py_item checks "version_explosion") (fun check =>
    py_item check "status"))) = Ok ERROR
  /\ rbind report (fun r =>
       rbind (py_item r "summary") (fun summary =>
       py_item summary "status")) = Ok OK.
Proof. split; reflexivity. Qed.

(** A check can append an entry and still report ERROR: the listing with
    deleted subjects is answered by an object of two keys, the check counts
    two subjects and appends its warning, and then fails to slice the
    object.  The aggregate status follows the warning. *)
Example audit_with_a_recorded_error :
  let run :=
    check_all Demo.scripted Demo.repr Demo.checker
      (fresh Demo.scripted Demo.audit_script_401) in
  rbind (fst run) (fun r =>
    rbind (py_item r "checks") (fun checks =>
    rbind (py_item checks "soft_deleted") (fun check =>
    py_item check "status"))) = Ok ERROR
  /\ warnings _ (snd run) = ["2 soft-deleted subjects"]
  /\ rbind (fst run) (fun r =>
       rbind (py_item r "summary") (fun summary =>
       py_item summary "status")) = Ok WARNING.
Proof. repeat split; reflexivity. Qed.

(** In the run on [Demo.audit_script], the version check reports ERROR and
    leaves the two lists, and with them the aggregate status, as they
    were. *)
Lemma aggregate_status_witness :
  let s := fresh Demo.scripted Demo.audit_script in
  let before := snd (_check_subject_count Demo.scripted Demo.checker
                       (snd (_check_connectivity Demo.scripted Demo.checker s)))
  in
  let check := _check_version_explosion Demo.scripted Demo.repr Demo.checker in
  (exists result,
      check before = (Ok result, snd (check before)) /\
      py_item result "status" = Ok ERROR /\
      issues _ (snd (check before)) = issues _ before /\
      warnings _ (snd (check before)) = warnings _ before) /\
  summary_status (issues _ (snd (check before)))
    (warnings _ (snd (check before)))
  = summary_status (issues _ before) (warnings _ before).
Proof.
  cbv zeta. split.
  - eexists. repeat split; reflexivity.
  - destruct (aggregate_status Demo.scripted Demo.repr Demo.checker
                (fresh Demo.scripted Demo.audit_script))
      as (report & checks & summary & status & s' &
          _ & _ & _ & _ & _ & _ & _ & _ & _ & _ & _ & H).
    eapply (H (_check_version_explosion Demo.scripted Demo.repr
                 Demo.checker)); reflexivity.
Defined.

End CheckerFacts.


(* ================================================================== *)
(** * SchemaAnalyzer: the translation and the examples together *)
(* ================================================================== *)

Module AnalyzerMore.
Import Py PyFacts SchemaAnalyzer AnalyzerFacts.

(** ** The example of a type is an instance of its translation *)

Lemma primitive_example_conforms (s : string) :
  exists ty,
    py_item (_convert_avro_type (VStr s)) "type" = Ok (VStr ty) /\
    In ty json_types /\
    exists v,
      _generate_example_value (VStr s) = Ok v /\ instance_of ty v = true.
Proof.
  cbn [_convert_avro_type _generate_example_value].
  unfold type_mapping, examples. cbn [dict_get key_eqb].
  repeat match goal with
         | |- context [String.eqb ?a s] => destruct (String.eqb a s)
         end;
    eexists; (split; [reflexivity | ]);
    (split; [unfold json_types; simpl; tauto | ]);
    eexists; split; reflexivity.
Qed.

Lemma example_conforms_aux (t : value) :
  enums_ok t = true ->
  exists ty,
    py_item (_convert_avro_type t) "type" = Ok (VStr ty) /\
    In ty json_types /\
    exists v, _generate_example_value t = Ok v /\ instance_of ty v = true.
Proof.
  induction t as [ | b | n | f | s | l IH | d _] using value_induction;
    intros Hok;
    try (exists "string"; split; [reflexivity | ];
         split; [unfold json_types; simpl; tauto | ];
         eexists; split; reflexivity).
  - apply primitive_example_conforms.
  - rewrite convert_union, example_union. unfold non_null_types.
    induction IH as [ | t l Ht _ IHl]; simpl in *.
    + exists "null". split; [reflexivity | ].
      split; [unfold json_types; simpl; tauto | ].
      eexists; split; reflexivity.
    + destruct (eq_str t "null"); simpl; auto.
  - cbn [enums_ok] in Hok.
    cbn [_convert_avro_type _generate_example_value].
    destruct (eq_str (getd d "type" VNone) "enum").
    + exists "string". split; [reflexivity | ].
      split; [unfold json_types; simpl; tauto | ].
      destruct (getd d "symbols" (VList [])) as [ | | | | | l | ];
        try discriminate Hok.
      destruct l as [ | x l]; [eexists; split; reflexivity | ].
      simpl in Hok. destruct x; try discriminate Hok.
      eexists; split; reflexivity.
    + repeat match goal with
             | |- context [if ?c then _ else _] => destruct c
             end;
        eexists; (split; [reflexivity | ]);
        (split; [unfold json_types; simpl; tauto | ]);
        eexists; split; reflexivity.
Qed.

Lemma translated_type_aux (t : value) :
  exists ty,
    py_item (_convert_avro_type t) "type" = Ok (VStr ty) /\
    In ty json_types.
Proof.
  induction t as [ | b | n | f | s | l IH | d _] using value_induction;
    try (exists "string"; split; [reflexivity | ];
         unfold json_types; simpl; tauto).
  - destruct (primitive_example_conforms s) as (ty & ? & ? & _). eauto.
  - rewrite convert_union. unfold non_null_types.
    induction IH as [ | t l Ht _ IHl]; simpl.
    + exists "null". split; [reflexivity | unfold json_types; simpl; tauto].
    + destruct (eq_str t "null"); simpl; auto.
  - cbn [_convert_avro_type].
    repeat match goal with
           | |- context [if ?c then _ else _] => destruct c
           end;
      eexists; (split; [reflexivity | unfold json_types; simpl; tauto]).
Qed.

(** X1.  Whatever value stands for the Avro type (a name, a union, an
    object, or anything else), [_convert_avro_type] returns a node whose
    "type" is one of the seven JSON Schema type names. *)
Theorem translated_type_is_a_json_type (avro_type : value) :
  exists ty,
    py_item (_convert_avro_type avro_type) "type" = Ok (VStr ty) /\
    In ty json_types.
Proof. exact (translated_type_aux avro_type). Qed.

(** X2.  When the enum that the type leads to has a list of strings for
    symbols, the example is generated and is an instance of the type of
    the translated node: an int for "integer", a float for "number", a
    string for "string", a list for "array", and so on. *)
Theorem example_is_instance_of_translated_type (avro_type : value) :
  enums_ok avro_type = true ->
  exists ty v,
    py_item (_convert_avro_type avro_type) "type" = Ok (VStr ty) /\
    _generate_example_value avro_type = Ok v /\
    instance_of ty v = true.
Proof.
  intros H. destruct (example_conforms_aux avro_type H)
    as (ty & Ht & Hin & v & Hv & Hi).
  exists ty, v. auto.
Qed.

Lemma example_is_instance_of_translated_type_witness :
  let avro_type :=
    VList [VStr "null";
           lit [("type", VStr "enum");
                ("symbols", VList [VStr "PENDING"; VStr "DONE"])]] in
  enums_ok avro_type = true /\
  exists ty v,
    py_item (_convert_avro_type avro_type) "type" = Ok (VStr ty) /\
    _generate_example_value avro_type = Ok v /\
    instance_of ty v = true.
Proof.
  cbv zeta. split; [reflexivity | ].
  apply example_is_instance_of_translated_type. reflexivity.
Defined.

(** ** The properties of the translated schema *)

Lemma dict_set_set_same (k : pykey) (v1 v2 : value) (d : dict) :
  dict_set k v2 (dict_set k v1 d) = dict_set k v2 d.
Proof.
  induction d as [ | [k0 v0] d IH]; simpl.
  - now rewrite key_eqb_refl.
  - destruct (key_eqb k0 k) eqn:E; simpl; rewrite E; [reflexivity | ].
    now rewrite IH.
Qed.

Lemma set_in_after_dict_set (props : dict) (k : pykey) (p : dict)
  (key : string) (v : value) :
  set_in (dict_set k (VDict p) props) k key v =
    Ok (dict_set k (VDict (dict_set (KStr key) v p)) props).
Proof.
  unfold set_in. rewrite dict_get_set_same. now rewrite dict_set_set_same.
Qed.

(** One turn of the conversion loop stores the property of the field under
    the key of the field. *)
Lemma convert_field_ok (field : value) (acc acc' : dict * list value) :
  convert_field field acc = Ok acc' ->
  exists k property,
    field_key field = Ok k /\ property_of field = Ok property /\
    fst acc' = dict_set k property (fst acc).
Proof.
  unfold convert_field, field_key, property_of. intros H.
  bind_inv H. destruct (py_item_dict _ _ _ E) as [d ->].
  bind_inv H. bind_inv H. bind_inv H. bind_inv H.
  exists a3.
  unfold lit in H. cbn [map fst snd] in H.
  rewrite py_in_default in H. unfold has_default in H.
  destruct (is_enum a0) eqn:En.
  - destruct a0; try discriminate En. cbn [py_get rbind] in H.
    rewrite set_in_after_dict_set in H. cbn [rbind] in H.
    destruct (py_item (VDict d) "default") as [dv | e] eqn:D;
      cbn [is_ok rbind] in H.
    + rewrite set_in_after_dict_set in H. cbn [rbind] in H.
      injection H as <-. cbn [fst].
      repeat (progress (cbn [rbind]; rewrite ?E, ?E0, ?E1, ?E2, ?E3, ?D, ?En)).
      eexists. repeat split; reflexivity.
    + injection H as <-. cbn [fst].
      repeat (progress (cbn [rbind]; rewrite ?E, ?E0, ?E1, ?E2, ?E3, ?D, ?En)).
      eexists. repeat split; reflexivity.
  - cbn [rbind] in H.
    destruct (py_item (VDict d) "default") as [dv | e] eqn:D;
      cbn [is_ok rbind] in H.
    + rewrite set_in_after_dict_set in H. cbn [rbind] in H.
      injection H as <-. cbn [fst].
      repeat (progress (cbn [rbind]; rewrite ?E, ?E0, ?E1, ?E2, ?E3, ?D, ?En)).
      eexists. repeat split; reflexivity.
    + injection H as <-. cbn [fst].
      repeat (progress (cbn [rbind]; rewrite ?E, ?E0, ?E1, ?E2, ?E3, ?D, ?En)).
      eexists. repeat split; reflexivity.
Qed.

Lemma dict_set_keys (k : pykey) (v1 v2 : value) (d1 : dict) :
  forall d2,
    map fst d1 = map fst d2 ->
    map fst (dict_set k v1 d1) = map fst (dict_set k v2 d2).
Proof.
  induction d1 as [ | [k1 x1] d1 IH]; intros [ | [k2 x2] d2] H;
    try discriminate H; simpl in *.
  - reflexivity.
  - injection H as -> H. destruct (key_eqb k2 k); simpl.
    + now rewrite H.
    + f_equal. now apply IH.
Qed.

Lemma same_keys_loop (fields : list value) :
  forall acc acc' ex ex',
    for_each convert_field fields acc = Ok acc' ->
    for_each example_field fields ex = Ok ex' ->
    map fst (fst acc) = map fst ex ->
    map fst (fst acc') = map fst ex'.
Proof.
  induction fields as [ | f fields IH]; simpl; intros acc acc' ex ex' Hc He Hk.
  - injection Hc as <-. injection He as <-. exact Hk.
  - bind_inv Hc. bind_inv He.
    apply convert_field_ok in E as (k & p & Hk1 & _ & Hp).
    apply example_field_ok in E0 as (k' & v & Hk2 & _ & ->).
    assert (k' = k) as -> by congruence.
    eapply IH; eauto. rewrite Hp. now apply dict_set_keys.
Qed.

(** X3.  When a record is translated and its example is generated, the
    example has exactly the keys of the "properties" of the schema, in the
    same order: every property has an example and every example names a
    property, also when two fields share a name. *)
Theorem example_keys_are_property_keys (avro schema example : value) :
  schema_of avro = Ok schema ->
  example_of avro = Ok example ->
  exists properties ex,
    py_item schema "properties" = Ok (VDict properties) /\
    example = VDict ex /\
    map fst properties = map fst ex.
Proof.
  unfold schema_of, example_of. intros Hs He.
  bind_inv Hs. bind_inv Hs. bind_inv Hs. injection Hs as <-.
  cbn [rbind] in He. bind_inv He. injection He as <-.
  do 2 eexists. split; [reflexivity | ]. split; [reflexivity | ].
  eapply same_keys_loop; eauto.
Qed.

Lemma example_keys_are_property_keys_witness :
  (schema_of Demo.record_with_twins = Ok Demo.twins_schema /\
   example_of Demo.record_with_twins = Ok Demo.twins_example) /\
  exists properties ex,
    py_item Demo.twins_schema "properties" = Ok (VDict properties) /\
    Demo.twins_example = VDict ex /\
    map fst properties = map fst ex.
Proof.
  split; [split; reflexivity | ].
  apply (example_keys_are_property_keys Demo.record_with_twins); reflexivity.
Defined.

Lemma dict_mem_set (k k' : pykey) (v : value) (d : dict) :
  dict_mem k d = true -> dict_mem k (dict_set k' v d) = true.
Proof.
  unfold dict_mem. induction d as [ | [k0 v0] d IH]; simpl; [discriminate | ].
  destruct (key_eqb k0 k') eqn:E; simpl; destruct (key_eqb k0 k); auto.
Qed.

Lemma dict_mem_set_same (k : pykey) (v : value) (d : dict) :
  dict_mem k (dict_set k v d) = true.
Proof. unfold dict_mem. now rewrite dict_get_set_same. Qed.

Lemma required_in_properties_loop (fields : list value) :
  forall acc acc',
    for_each convert_field fields acc = Ok acc' ->
    Forall (names_property (fst acc)) (snd acc) ->
    Forall (names_property (fst acc')) (snd acc').
Proof.
  induction fields as [ | f fields IH]; simpl; intros acc acc' H Hinv.
  - now injection H as <-.
  - bind_inv H. apply IH in H; auto.
    pose proof (convert_field_required _ _ _ E) as (name & Hn & Hr).
    apply convert_field_ok in E as (k & p & Hk & _ & Hp).
    unfold field_key in Hk. rewrite Hn in Hk. cbn [rbind] in Hk.
    assert (Forall (names_property (fst a)) (snd acc)) as Hold.
    { eapply Forall_impl; [ | exact Hinv].
      intros x (kx & Hx & Hm). exists kx. split; [auto | ].
      rewrite Hp. now apply dict_mem_set. }
    rewrite Hr. destruct (has_default f); [exact Hold | ].
    unfold append. apply Forall_app. split; [exact Hold | ].
    constructor; [ | constructor].
    exists k. split; [auto | ]. rewrite Hp. apply dict_mem_set_same.
Qed.

(** X4.  In a translated record every name of "required" is the name of a
    property, and "required" has no more entries than the record has
    fields. *)
Theorem required_names_are_properties (avro schema : value)
  (fields : list value) :
  schema_of avro = Ok schema ->
  fields_of avro = Ok fields ->
  exists properties required,
    py_item schema "properties" = Ok (VDict properties) /\
    py_item schema "required" = Ok (VList required) /\
    (List.length required <= List.length fields)%nat /\
    forall name, In name required ->
      exists k, to_key name = Ok k /\ dict_mem k properties = true.
Proof.
  unfold schema_of. intros Hs Hf. rewrite Hf in Hs.
  bind_inv Hs. cbn [rbind] in Hs. bind_inv Hs. injection Hs as <-.
  exists (fst a0), (snd a0).
  split; [reflexivity | ]. split; [reflexivity | ].
  pose proof (convert_fields_required _ _ _ E0) as Hr. simpl in Hr.
  split.
  - rewrite Hr. clear. induction fields as [ | f fields IH]; simpl; auto.
    destruct (py_item f "name"); [destruct (has_default f) | ]; simpl; lia.
  - apply required_in_properties_loop in E0; [ | constructor].
    intros name Hin. rewrite Forall_forall in E0. exact (E0 name Hin).
Qed.

Lemma required_names_are_properties_witness :
  (schema_of Demo.record_with_defaults = Ok Demo.order_schema /\
   fields_of Demo.record_with_defaults = Ok Demo.order_fields) /\
  exists properties required,
    py_item Demo.order_schema "properties" = Ok (VDict properties) /\
    py_item Demo.order_schema "required" = Ok (VList required) /\
    (List.length required <= List.length Demo.order_fields)%nat /\
    forall name, In name required ->
      exists k, to_key name = Ok k /\ dict_mem k properties = true.
Proof.
  split; [split; reflexivity | ].
  apply (required_names_are_properties Demo.record_with_defaults);
    reflexivity.
Defined.

(** ** Fields of distinct names *)

Lemma property_entries (fields : list value) :
  forall acc acc',
    for_each convert_field fields acc = Ok acc' ->
    distinct_names fields = true ->
    (forall f k, In f fields -> field_key f = Ok k ->
       forallb (fun kv => negb (key_eqb (fst kv) k)) (fst acc) = true) ->
    exists es,
      fst acc' = (fst acc ++ es)%list /\
      Forall2 (fun f e => field_key f = Ok (fst e) /\
                          property_of f = Ok (snd e)) fields es.
Proof.
  induction fields as [ | f fields IH]; simpl; intros acc acc' H Hd Hfresh.
  - injection H as <-. exists []. rewrite app_nil_r.
    split; [auto | constructor].
  - bind_inv H. apply convert_field_ok in E as (k & p & Hk & Hp & Hs).
    apply andb_true_iff in Hd as [Hd1 Hd2]. apply negb_true_iff in Hd1.
    rewrite dict_set_fresh in Hs by (apply (Hfresh f); auto).
    apply IH in H as (es & -> & Hes); auto.
    + exists ((k, p) :: es). rewrite Hs, <- app_assoc.
      split; [reflexivity | constructor; auto].
    + intros g k' Hg Hk'. rewrite Hs. apply fresh_snoc.
      * apply (Hfresh g); auto.
      * pose proof (existsb_false_in _ _ _ Hd1 Hg) as Hsn.
        unfold same_name in Hsn. now rewrite Hk, Hk' in Hsn.
Qed.

Lemma property_lookup (fields : list value) (es : dict) :
  Forall2 (fun f e => field_key f = Ok (fst e) /\
                      property_of f = Ok (snd e)) fields es ->
  distinct_names fields = true ->
  forall f, In f fields ->
    exists k p,
      field_key f = Ok k /\ property_of f = Ok p /\ dict_get k es = Some p.
Proof.
  induction 1 as [ | g [ke pe] fields es [Hk Hp] _ IH]; simpl;
    intros Hd f Hf; [tauto | ].
  apply andb_true_iff in Hd as [Hd1 Hd2]. apply negb_true_iff in Hd1.
  simpl in Hk, Hp. destruct Hf as [-> | Hf].
  - exists ke, pe. now rewrite key_eqb_refl.
  - destruct (IH Hd2 f Hf) as (k & p & Hfk & Hfp & Hget).
    exists k, p. split; [auto | ]. split; [auto | ].
    pose proof (existsb_false_in _ _ _ Hd1 Hf) as Hs.
    unfold same_name in Hs. rewrite Hk, Hfk in Hs. now rewrite Hs.
Qed.

(** X5.  In a translated record whose fields have distinct names there is
    one property for each field, and the property of a field holds the type
    name of the translated type and the description, then the symbols if
    the type is an enum, then the default if there is one, and nothing
    else: the "format", "contentEncoding" and "items" of the translated
    type are not carried over. *)
Theorem property_of_each_field (avro schema : value) (fields : list value) :
  schema_of avro = Ok schema ->
  fields_of avro = Ok fields ->
  distinct_names fields = true ->
  exists properties,
    py_item schema "properties" = Ok (VDict properties) /\
    List.length properties = List.length fields /\
    forall field, In field fields ->
      exists k property,
        field_key field = Ok k /\
        property_of field = Ok property /\
        dict_get k properties = Some property.
Proof.
  unfold schema_of. intros Hs Hf Hd. rewrite Hf in Hs.
  bind_inv Hs. cbn [rbind] in Hs. bind_inv Hs. injection Hs as <-.
  apply property_entries in E0 as (es & He & Hes); auto.
  exists (fst a0). split; [reflexivity | ]. simpl in He. rewrite He.
  split.
  - symmetry. eapply Forall2_length; eauto.
  - intros field Hin. eapply property_lookup; eauto.
Qed.

Lemma property_of_each_field_witness :
  (schema_of Demo.record_with_defaults = Ok Demo.order_schema /\
   fields_of Demo.record_with_defaults = Ok Demo.order_fields /\
   distinct_names Demo.order_fields = true) /\
  exists properties,
    py_item Demo.order_schema "properties" = Ok (VDict properties) /\
    List.length properties = List.length Demo.order_fields /\
    forall field, In field Demo.order_fields ->
      exists k property,
        field_key field = Ok k /\
        property_of field = Ok property /\
        dict_get k properties = Some property.
Proof.
  split; [repeat split; reflexivity | ].
  apply (property_of_each_field Demo.record_with_defaults); reflexivity.
Defined.

(** A field of type "long" keeps "integer" and loses "int64". *)
Example long_loses_its_format :
  property_of (lit [("name", VStr "n"); ("type", VStr "long")])
  = Ok (lit [("type", VStr "integer"); ("description", VStr "")])
  /\ _convert_avro_type (VStr "long")
     = lit [("type", VStr "integer"); ("format", VStr "int64")].
Proof. split; reflexivity. Qed.

(** ** The two loops accept the same records *)

Lemma example_field_total (field : value) (acc acc' : dict * list value) :
  convert_field field acc = Ok acc' ->
  (has_default field ||
   match py_item field "type" with
   | Ok t => enums_ok t
   | Raise _ => true
   end) = true ->
  forall ex, exists ex', example_field field ex = Ok ex'.
Proof.
  intros H Hok ex. unfold convert_field in H.
  bind_inv H. destruct (py_item_dict _ _ _ E) as [d ->].
  bind_inv H. bind_inv H. bind_inv H. bind_inv H. clear H.
  unfold example_field. rewrite E. cbn [rbind]. rewrite E0. cbn [rbind].
  rewrite py_in_default. cbn [rbind].
  destruct (has_default (VDict d)) eqn:D.
  - unfold has_default in D.
    destruct (py_item (VDict d) "default"); [ | discriminate D].
    cbn [rbind]. rewrite E3. cbn [rbind]. eauto.
  - simpl in Hok.
    destruct (example_conforms_aux a0 Hok) as (_ & _ & _ & v & -> & _).
    cbn [rbind]. rewrite E3. cbn [rbind]. eauto.
Qed.

Lemma example_fields_total (fields : list value) :
  generated_fields_ok fields = true ->
  forall acc acc',
    for_each convert_field fields acc = Ok acc' ->
    forall ex, exists ex', for_each example_field fields ex = Ok ex'.
Proof.
  unfold generated_fields_ok.
  induction fields as [ | f fields IH]; simpl; intros Hok acc acc' H ex.
  - eauto.
  - apply andb_true_iff in Hok as [Hf Hok]. bind_inv H.
    destruct (example_field_total _ _ _ E Hf ex) as [ex1 ->]. cbn [rbind].
    eauto.
Qed.

(** X6.  When the fields without default have well-formed enums, the
    translation and the example generation accept the same records: the
    [try] block of one raises exactly when the [try] block of the other
    does, so the generic node comes with the empty example and a translated
    schema comes with its example. *)
Theorem translation_and_example_fail_together (avro : value)
  (fields : list value) :
  fields_of avro = Ok fields ->
  generated_fields_ok fields = true ->
  is_ok (schema_of avro) = is_ok (example_of avro).
Proof.
  intros Hf Hok.
  destruct (example_of avro) as [ex | e] eqn:He.
  - destruct (schema_of avro) eqn:Hs; [reflexivity | ].
    destruct (schema_raises_example_raises _ _ Hs) as [e' He'].
    congruence.
  - destruct (schema_of avro) as [schema | ] eqn:Hs; [ | reflexivity].
    exfalso. unfold schema_of in Hs. rewrite Hf in Hs.
    bind_inv Hs. cbn [rbind] in Hs. bind_inv Hs.
    unfold example_of in He. rewrite Hf in He. cbn [rbind] in He.
    destruct (example_fields_total _ Hok _ _ E0 []) as [ex' Hex].
    rewrite Hex in He. discriminate He.
Qed.

Lemma translation_and_example_fail_together_witness :
  (fields_of Demo.record_with_defaults = Ok Demo.order_fields /\
   generated_fields_ok Demo.order_fields = true) /\
  is_ok (schema_of Demo.record_with_defaults)
  = is_ok (example_of Demo.record_with_defaults).
Proof.
  split; [split; reflexivity | ].
  apply (translation_and_example_fail_together _ Demo.order_fields);
    reflexivity.
Defined.

(** Without the condition the two can part: an enum whose symbols are a
    number is translated, and its example cannot be generated. *)
Example enum_with_bad_symbols :
  let avro :=
    lit [("fields",
           VList [lit [("name", VStr "status");
                       ("type", lit [("type", VStr "enum");
                                     ("symbols", VInt 5)])]])] in
  is_ok (schema_of avro) = true /\
  example_of avro
  = Raise (type_error "'int' object is not subscriptable").
Proof. split; reflexivity. Qed.

End AnalyzerMore.

(* ================================================================== *)
(** * SchemaPurger: single calls, batches and what the purge deletes *)
(* ================================================================== *)

Module PurgerMore.
Import Py Http PyFacts SchemaPurger PurgerFacts.

Lemma string_app_assoc (a b c : string) : (a ++ b) ++ c = a ++ b ++ c.
Proof. induction a as [ | x a IH]; simpl; [reflexivity | now rewrite IH]. Qed.

Lemma for_loop_app {S A B} (body : A -> B -> M S B) (l l' : list A) :
  forall acc s,
    for_loop body (l ++ l')%list acc s =
      bind (for_loop body l acc) (for_loop body l') s.
Proof.
  induction l as [ | x l IH]; intros acc s; simpl.
  - reflexivity.
  - unfold bind. destruct (body x acc s) as [[b | e] s1].
    + rewrite IH. reflexivity.
    + reflexivity.
Qed.

Section Purger.

Variable N : network.
Variable repr : value -> string.
Variable self : purger.

#[local] Abbreviation IO := (M (net_state N)).
#[local] Abbreviation get_all_subjects := (get_all_subjects N self).
#[local] Abbreviation listing_request := (listing_request self).
#[local] Abbreviation soft_request := (soft_request repr self).
#[local] Abbreviation permanent_request := (permanent_request repr self).
#[local] Abbreviation versions_request := (versions_request repr self).
#[local] Abbreviation latest_request := (latest_request repr self).
#[local] Abbreviation version_request := (version_request repr self).

(** ** The listing *)

(** [get_all_subjects] sends its one request, and what it raises is an
    [Exception] whose text starts with "Failed to get subjects: ". *)
Lemma get_all_subjects_outcome (include_deleted : bool) (s : net_state N) :
  exists r w,
    get_all_subjects include_deleted s
      = (r, mkNet w (sent s ++ [listing_request include_deleted])%list) /\
    match r with
    | Ok _ => True
    | Raise e =>
        exn_kind_of e = GenericException /\
        exists cause, exn_str e = "Failed to get subjects: " ++ cause
    end.
Proof.
  unfold SchemaPurger.get_all_subjects, try_catch, bind, requests_get, http,
    pure, raise.
  assert (mkRequest GET
            (if include_deleted
             then (endpoint self ++ "/subjects") ++ "?deleted=true"
             else endpoint self ++ "/subjects") (auth self) (timeout self)
          = listing_request include_deleted) as ->.
  { unfold SchemaPurger.listing_request. f_equal.
    destruct include_deleted; [apply string_app_assoc | ].
    f_equal. }
  destruct (send N (listing_request include_deleted) (the_world s))
    as [[response | e] w]; cbn [the_world sent].
  - destruct (raise_for_status response) as [[] | e].
    + destruct (json response) as [v | e]; do 2 eexists;
        (split; [reflexivity | ]); simpl; eauto.
    + do 2 eexists. split; [reflexivity | ]. simpl; eauto.
  - do 2 eexists. split; [reflexivity | ]. simpl; eauto.
Qed.

(** ** Single deletions *)

(** X7.  [soft_delete_subject] and [delete_subject_version] each send one
    DELETE request, never raise, and return a result for the subject.  The
    soft deletion reports success exactly when the answer has status 200
    and a JSON body that has a length; the deletion of a version reports
    success exactly when the answer has status 200, whatever the body. *)
Theorem deletion_success_criteria (subject version : value)
  (s : net_state N) :
  (let (r, w) := send N (soft_request subject) (the_world s) in
   exists result,
     soft_delete_subject N repr self subject s =
       (Ok result, mkNet w (sent s ++ [soft_request subject])%list) /\
     py_item result "subject" = Ok subject /\
     (is_success result = true <->
      exists response versions n,
        r = Ok response /\ status_code response = 200%Z /\
        json response = Ok versions /\ py_len versions = Ok n)) /\
  (let (r, w) := send N (version_request subject version) (the_world s) in
   exists result,
     delete_subject_version N repr self subject version s =
       (Ok result,
        mkNet w (sent s ++ [version_request subject version])%list) /\
     py_item result "subject" = Ok subject /\
     py_item result "version" = Ok version /\
     (is_success result = true <->
      exists response, r = Ok response /\ status_code response = 200%Z)).
Proof.
  split.
  - unfold soft_delete_subject, try_catch, bind, requests_delete, http, pure,
      ret, delete_outcome.
    fold (soft_request subject).
    destruct (send N (soft_request subject) (the_world s))
      as [[response | e] w]; cbn [the_world sent]; unfold append.
    + destruct (Z.eqb_spec (status_code response) 200) as [Hc | Hc].
      * destruct (json response) as [versions | e] eqn:Hj; cbn [rbind].
        -- destruct (py_len versions) as [n | e] eqn:Hl; cbn [rbind].
           ++ eexists. split; [reflexivity | ]. split; [reflexivity | ].
              split; [intros _; eauto 8 | reflexivity].
           ++ eexists. split; [reflexivity | ]. split; [reflexivity | ].
              split; [discriminate | ].
              intros (r' & v' & n' & Hr & _ & Hj' & Hl').
              injection Hr as <-. congruence.
        -- eexists. split; [reflexivity | ]. split; [reflexivity | ].
           split; [discriminate | ].
           intros (r' & v' & n' & Hr & _ & Hj' & _).
           injection Hr as <-. congruence.
      * eexists. split; [reflexivity | ]. split; [reflexivity | ].
        split; [discriminate | ].
        intros (r' & v' & n' & Hr & Hc' & _). injection Hr as <-. tauto.
    + eexists. split; [reflexivity | ]. split; [reflexivity | ].
      split; [discriminate | ].
      intros (r' & v' & n' & Hr & _). discriminate Hr.
  - unfold delete_subject_version, try_catch, bind, requests_delete, http,
      ret.
    fold (version_request subject version).
    destruct (send N (version_request subject version) (the_world s))
      as [[response | e] w]; cbn [the_world sent]; unfold append.
    + destruct (Z.eqb_spec (status_code response) 200) as [Hc | Hc].
      * eexists. split; [reflexivity | ]. repeat split; eauto.
      * eexists. split; [reflexivity | ]. do 2 (split; [reflexivity | ]).
        split; [discriminate | ].
        intros (r' & Hr & Hc'). injection Hr as <-. tauto.
    + eexists. split; [reflexivity | ]. do 2 (split; [reflexivity | ]).
      split; [discriminate | ].
      intros (r' & Hr & _). discriminate Hr.
Qed.

(** ** Details *)

(** X8.  When the registry answers both requests of [get_subject_details]
    with a status other than 200 (a subject that does not exist, a refused
    key), the details are not an error: they show no version, a count of
    0, a size of 0.0 and the schema type "AVRO". *)
Theorem details_without_answers (subject : value) (s : net_state N)
  (r1 r2 : response) (w1 w2 : world N) :
  send N (versions_request subject) (the_world s) = (Ok r1, w1) ->
  send N (latest_request subject) w1 = (Ok r2, w2) ->
  status_code r1 <> 200%Z ->
  status_code r2 <> 200%Z ->
  get_subject_details N repr self subject s =
    (Ok (no_details subject),
     mkNet w2 (sent s ++ [versions_request subject;
                          latest_request subject])%list).
Proof.
  intros H1 H2 Hc1 Hc2.
  unfold get_subject_details, try_catch, bind, requests_get, http, pure, ret.
  fold (versions_request subject). fold (latest_request subject).
  rewrite H1. cbn [the_world sent]. rewrite H2.
  apply Z.eqb_neq in Hc1, Hc2. rewrite Hc1, Hc2.
  cbn [py_get py_len dict_get]. unfold append. rewrite <- app_assoc.
  reflexivity.
Qed.

(** ** Batches *)

#[local] Abbreviation soft_delete := (soft_delete_subject N repr self).
#[local] Abbreviation hard_delete := (hard_delete_subject N repr self).

Lemma attempts_deterministic (delete_subject : value -> IO value)
  (subjects : list value) :
  forall s o1 s1 o2 s2,
    attempts N delete_subject subjects s o1 s1 ->
    attempts N delete_subject subjects s o2 s2 ->
    o1 = o2 /\ s1 = s2.
Proof.
  induction subjects as [ | x subjects IH]; intros s o1 s1 o2 s2 H1 H2;
    inversion H1; inversion H2; subst; [auto | ].
  match goal with
  | Ha : delete_subject x s = _, Hb : delete_subject x s = _ |- _ =>
      rewrite Ha in Hb; injection Hb as <- <-
  end.
  match goal with
  | Ha : attempts _ _ subjects _ ?a _, Hb : attempts _ _ subjects _ ?b _
    |- _ => destruct (IH _ _ _ _ _ Ha Hb) as [-> ->]
  end.
  auto.
Qed.

(** What a bulk deletion returns, from the outcomes of its attempts. *)
Lemma bulk_delete_report (delete_subject : value -> IO value)
  (subjects : list value) (s : net_state N) :
  (forall subject s, exists result s',
      delete_subject subject s = (Ok result, s') /\
      is_outcome subject result) ->
  exists outcomes s',
    attempts N delete_subject subjects s outcomes s' /\
    bulk_delete N delete_subject subjects s =
      (Ok (bulk_report (List.length subjects)
             (filter is_success outcomes)
             (filter (fun r => negb (is_success r)) outcomes)
             (now N (the_world s))), s').
Proof.
  intros Hd.
  destruct (record_outcomes N delete_subject Hd subjects ([], []) s)
    as (outcomes & s' & Ha & _ & Hl).
  exists outcomes, s'. split; [exact Ha | ].
  unfold bulk_delete, bind, utc_now_isoformat. rewrite Hl. reflexivity.
Qed.

Lemma attempts_app (delete_subject : value -> IO value)
  (l1 l2 : list value) :
  forall s o1 s1 o2 s2,
    attempts N delete_subject l1 s o1 s1 ->
    attempts N delete_subject l2 s1 o2 s2 ->
    attempts N delete_subject (l1 ++ l2)%list s (o1 ++ o2)%list s2.
Proof.
  induction l1 as [ | x l1 IH]; intros s o1 s1 o2 s2 H1 H2;
    inversion H1; subst; simpl; [exact H2 | ].
  econstructor; eauto.
Qed.

Lemma bulk_delete_split (delete_subject : value -> IO value)
  (l1 l2 : list value) (s : net_state N) :
  (forall subject s, exists result s',
      delete_subject subject s = (Ok result, s') /\
      is_outcome subject result) ->
  exists successful1 failed1 s1 successful2 failed2 s2,
    bulk_delete N delete_subject l1 s =
      (Ok (bulk_report (List.length l1) successful1 failed1
             (now N (the_world s))), s1) /\
    bulk_delete N delete_subject l2 s1 =
      (Ok (bulk_report (List.length l2) successful2 failed2
             (now N (the_world s1))), s2) /\
    bulk_delete N delete_subject (l1 ++ l2)%list s =
      (Ok (bulk_report (List.length l1 + List.length l2)
             (successful1 ++ successful2)%list (failed1 ++ failed2)%list
             (now N (the_world s))), s2).
Proof.
  intros Hd.
  destruct (bulk_delete_report delete_subject l1 s Hd)
    as (o1 & s1 & Ha1 & Hb1).
  destruct (bulk_delete_report delete_subject l2 s1 Hd)
    as (o2 & s2 & Ha2 & Hb2).
  destruct (bulk_delete_report delete_subject (l1 ++ l2)%list s Hd)
    as (o & s' & Ha & Hb).
  destruct (attempts_deterministic _ _ _ _ _ _ _ Ha
              (attempts_app _ _ _ _ _ _ _ _ Ha1 Ha2)) as [-> ->].
  do 6 eexists. split; [exact Hb1 | ]. split; [exact Hb2 | ].
  rewrite Hb, !filter_app, length_app. reflexivity.
Qed.

(** X9.  A bulk deletion of a list in two batches, one after the other,
    gives what the deletion of the whole list gives: the successes of the
    two batches one after the other, the failures likewise, the counts
    added up, and the same final state of the registry.  Only the timestamp
    of the second batch is lost. *)
Theorem bulk_deletion_in_two_batches (l1 l2 : list value)
  (s : net_state N) :
  (exists successful1 failed1 s1 successful2 failed2 s2,
      bulk_soft_delete N repr self l1 s =
        (Ok (bulk_report (List.length l1) successful1 failed1
               (now N (the_world s))), s1) /\
      bulk_soft_delete N repr self l2 s1 =
        (Ok (bulk_report (List.length l2) successful2 failed2
               (now N (the_world s1))), s2) /\
      bulk_soft_delete N repr self (l1 ++ l2)%list s =
        (Ok (bulk_report (List.length l1 + List.length l2)
               (successful1 ++ successful2)%list (failed1 ++ failed2)%list
               (now N (the_world s))), s2)) /\
  (exists successful1 failed1 s1 successful2 failed2 s2,
      bulk_hard_delete N repr self l1 s =
        (Ok (bulk_report (List.length l1) successful1 failed1
               (now N (the_world s))), s1) /\
      bulk_hard_delete N repr self l2 s1 =
        (Ok (bulk_report (List.length l2) successful2 failed2
               (now N (the_world s1))), s2) /\
      bulk_hard_delete N repr self (l1 ++ l2)%list s =
        (Ok (bulk_report (List.length l1 + List.length l2)
               (successful1 ++ successful2)%list (failed1 ++ failed2)%list
               (now N (the_world s))), s2)).
Proof.
  split.
  - exact (bulk_delete_split soft_delete l1 l2 s
             (soft_delete_returns N repr self)).
  - exact (bulk_delete_split hard_delete l1 l2 s
             (hard_delete_returns N repr self)).
Qed.

(** ** What the purge sends *)

Lemma get_all_subjects_sent (include_deleted : bool) (s s' : net_state N)
  (r : result value) :
  get_all_subjects include_deleted s = (r, s') ->
  sent s' = (sent s ++ [listing_request include_deleted])%list.
Proof.
  intros H.
  destruct (get_all_subjects_outcome include_deleted s) as (r' & w & Ho & _).
  rewrite Ho in H. now injection H as _ <-.
Qed.

Lemma get_all_subjects_raises (include_deleted : bool) (s s' : net_state N)
  (e : exn) :
  get_all_subjects include_deleted s = (Raise e, s') ->
  exn_kind_of e = GenericException /\
  exists cause, exn_str e = "Failed to get subjects: " ++ cause.
Proof.
  intros H.
  destruct (get_all_subjects_outcome include_deleted s) as (r' & w & Ho & Hr).
  rewrite Ho in H. injection H as -> _. exact Hr.
Qed.




(** X11.  When one of the two listings of the purge fails, the purge does
    not raise: it returns the failure result with the text of the
    exception, which starts with "Failed to get subjects: ", and it has
    sent nothing but listing requests, so nothing is deleted. *)
Theorem purge_reports_a_failed_listing (s s' : net_state N) (e : exn) :
  get_all_subjects true s = (Raise e, s') \/
  (exists listed s1,
      get_all_subjects true s = (Ok listed, s1) /\
      get_all_subjects false s1 = (Raise e, s')) ->
  purge_soft_deleted N repr self s =
    (Ok (lit [("success", VBool false); ("error", VStr (exn_str e))]), s') /\
  (exists cause, exn_str e = "Failed to get subjects: " ++ cause) /\
  exists listings,
    sent s' = (sent s ++ listings)%list /\
    Forall (fun r => req_method r = GET) listings.
Proof.
  intros [H | (listed & s1 & H1 & H2)].
  - split; [ | split].
    + unfold purge_soft_deleted, try_catch, bind. now rewrite H.
    + apply (get_all_subjects_raises _ _ _ _ H).
    + exists [listing_request true].
      split; [apply (get_all_subjects_sent _ _ _ _ H) | ].
      repeat constructor.
  - split; [ | split].
    + unfold purge_soft_deleted, try_catch, bind. now rewrite H1, H2.
    + apply (get_all_subjects_raises _ _ _ _ H2).
    + exists [listing_request true; listing_request false].
      split; [ | repeat constructor].
      rewrite (get_all_subjects_sent _ _ _ _ H2),
        (get_all_subjects_sent _ _ _ _ H1), <- app_assoc.
      reflexivity.
Qed.

(** ** The filter at its edges *)

(** X12.  When the listing of the filter fails, the filter raises an
    [Exception] whose text is "Failed to filter subjects: " followed by the
    text of the failed listing, itself "Failed to get subjects: " followed
    by the cause; only the listing request has been sent. *)
Theorem filter_wraps_a_failed_listing (min_versions : option Z)
  (pattern : option string) (s s' : net_state N) (e : exn) :
  get_all_subjects false s = (Raise e, s') ->
  exists cause,
    get_subjects_by_filter N repr self min_versions pattern s =
      (Raise (mkExn GenericException
                ("Failed to filter subjects: Failed to get subjects: "
                   ++ cause)), s') /\
    exn_str e = "Failed to get subjects: " ++ cause /\
    sent s' = (sent s ++ [listing_request false])%list.
Proof.
  intros H.
  destruct (get_all_subjects_raises _ _ _ _ H) as (_ & cause & Hc).
  exists cause. split; [ | split; [exact Hc | ]].
  - unfold get_subjects_by_filter, try_catch, bind, raise. rewrite H, Hc.
    reflexivity.
  - apply (get_all_subjects_sent _ _ _ _ H).
Qed.

Lemma filter_nothing_loop (pattern : option string) (items : list value) :
  pattern = None \/ pattern = Some "" ->
  forall filtered s,
    for_loop (filter_subject N repr self None pattern) items filtered s
    = (Ok (filtered ++ items)%list, s).
Proof.
  intros Hp. induction items as [ | x items IH]; intros filtered s; simpl.
  - unfold ret. now rewrite app_nil_r.
  - unfold bind at 1.
    assert (filter_subject N repr self None pattern x filtered s
            = (Ok (append filtered x), s)) as ->
      by (destruct Hp as [-> | ->]; reflexivity).
    rewrite IH. unfold append. now rewrite <- app_assoc.
Qed.

(** X13.  Without criteria, that is without [min_versions] and without
    pattern or with the empty pattern, the filter returns the listing as
    it is, whatever the listed values are, and sends no request but the
    listing. *)
Theorem filter_without_criteria (pattern : option string)
  (listed : list value) (s s1 : net_state N) :
  pattern = None \/ pattern = Some "" ->
  get_all_subjects false s = (Ok (VList listed), s1) ->
  get_subjects_by_filter N repr self None pattern s = (Ok listed, s1) /\
  sent s1 = (sent s ++ [listing_request false])%list.
Proof.
  intros Hp H. split.
  - unfold get_subjects_by_filter, try_catch, bind. rewrite H.
    unfold pure. cbn [py_iter]. now rewrite filter_nothing_loop.
  - apply (get_all_subjects_sent _ _ _ _ H).
Qed.

End Purger.

(** ** The endpoint *)

Lemma rstrip_slash_split (s : string) :
  exists n, s = rstrip_slash s ++ slashes n.
Proof.
  induction s as [ | c s [n IH]]; [exists 0%nat; reflexivity | ].
  cbn [rstrip_slash].
  destruct (Ascii.eqb_spec c "/"%char) as [-> | Hc]; cbn [andb].
  - destruct (String.eqb_spec (rstrip_slash s) "") as [He | He].
    + exists (S n). rewrite He in IH. simpl in *. now rewrite <- IH.
    + exists n. simpl. now rewrite <- IH.
  - exists n. simpl. now rewrite <- IH.
Qed.

Lemma rstrip_slash_end (s t : string) : rstrip_slash s <> t ++ "/".
Proof.
  revert t. induction s as [ | c s IH]; intros t; cbn [rstrip_slash].
  - destruct t; discriminate.
  - destruct (Ascii.eqb c "/"%char && String.eqb (rstrip_slash s) "")
      eqn:E.
    + destruct t; discriminate.
    + destruct t as [ | c' t]; simpl; intros H; inversion H; subst.
      * rewrite Ascii.eqb_refl in E.
        match goal with
        | Hr : rstrip_slash s = "" |- _ => rewrite Hr in E
        end.
        discriminate E.
      * match goal with
        | Hr : rstrip_slash s = _ |- _ => exact (IH t Hr)
        end.
Qed.

Lemma rstrip_slash_fixed (s : string) :
  (forall t, s <> t ++ "/") -> rstrip_slash s = s.
Proof.
  induction s as [ | c s IH]; intros H; [reflexivity | ].
  cbn [rstrip_slash]. rewrite IH.
  - destruct (Ascii.eqb_spec c "/"%char) as [-> | Hc]; cbn [andb];
      [ | reflexivity].
    destruct (String.eqb_spec s "") as [-> | He]; [ | reflexivity].
    exfalso. apply (H ""). reflexivity.
  - intros t Ht. apply (H (String c t)). simpl. now rewrite Ht.
Qed.

(** X14.  The endpoint that a purger or a checker keeps is the endpoint it
    was given without its trailing slashes: it does not end with a slash,
    the given endpoint is it followed by slashes only, and an endpoint
    without trailing slash is kept as it is.  So the URLs of the requests
    have one slash between the endpoint and the path. *)
Theorem endpoint_has_no_trailing_slash (given api_key api_secret : string) :
  let kept := SchemaPurger.endpoint (SchemaPurger.init given api_key api_secret)
  in
  SchemaHealthChecker.endpoint
    (SchemaHealthChecker.init given api_key api_secret) = kept /\
  (exists n, given = kept ++ slashes n) /\
  (forall t, kept <> t ++ "/") /\
  SchemaPurger.endpoint (SchemaPurger.init kept api_key api_secret) = kept.
Proof.
  cbv zeta. unfold SchemaPurger.init, SchemaHealthChecker.init. simpl.
  split; [reflexivity | ]. split; [apply rstrip_slash_split | ].
  split; [intros t; apply rstrip_slash_end | ].
  apply rstrip_slash_fixed. intros t. apply rstrip_slash_end.
Qed.

(** ** The extras on the scripted registries *)

Lemma details_without_answers_witness :
  let s := Demo.start [Demo.answer 404 VNone; Demo.answer 404 VNone] in
  let subject := VStr "orders-key" in
  (send Demo.scripted (versions_request Demo.repr Demo.purger subject)
     (the_world s)
     = (Ok (Demo.response_of 404 VNone), [Demo.answer 404 VNone]) /\
   send Demo.scripted (latest_request Demo.repr Demo.purger subject)
     [Demo.answer 404 VNone]
     = (Ok (Demo.response_of 404 VNone), []) /\
   status_code (Demo.response_of 404 VNone) <> 200%Z) /\
  get_subject_details Demo.scripted Demo.repr Demo.purger subject s =
    (Ok (no_details subject),
     mkNet ([] : world Demo.scripted)
       (sent s ++ [versions_request Demo.repr Demo.purger subject;
                   latest_request Demo.repr Demo.purger subject])%list).
Proof.
  cbv zeta. split.
  - repeat split; try reflexivity; discriminate.
  - apply (details_without_answers Demo.scripted Demo.repr Demo.purger
             (VStr "orders-key") _ (Demo.response_of 404 VNone)
             (Demo.response_of 404 VNone) [Demo.answer 404 VNone] []);
      try reflexivity; discriminate.
Defined.


Lemma purge_reports_a_failed_listing_witness :
  let s := Demo.start [Demo.timed_out] in
  let s' := snd (get_all_subjects Demo.scripted Demo.purger true s) in
  let e := mkExn GenericException
             "Failed to get subjects: Read timed out. (read timeout=10)" in
  get_all_subjects Demo.scripted Demo.purger true s = (Raise e, s') /\
  purge_soft_deleted Demo.scripted Demo.repr Demo.purger s =
    (Ok (lit [("success", VBool false); ("error", VStr (exn_str e))]), s') /\
  (exists cause, exn_str e = "Failed to get subjects: " ++ cause) /\
  exists listings,
    sent s' = (sent s ++ listings)%list /\
    Forall (fun r => req_method r = GET) listings.
Proof.
  cbv zeta. split.
  - reflexivity.
  - apply purge_reports_a_failed_listing. left. reflexivity.
Defined.

Lemma filter_wraps_a_failed_listing_witness :
  let s := Demo.start [Demo.timed_out] in
  let s' := snd (get_all_subjects Demo.scripted Demo.purger false s) in
  let e := mkExn GenericException
             "Failed to get subjects: Read timed out. (read timeout=10)" in
  get_all_subjects Demo.scripted Demo.purger false s = (Raise e, s') /\
  exists cause,
    get_subjects_by_filter Demo.scripted Demo.repr Demo.purger (Some 3%Z)
      (Some "orders") s =
      (Raise (mkExn GenericException
                ("Failed to filter subjects: Failed to get subjects: "
                   ++ cause)), s') /\
    exn_str e = "Failed to get subjects: " ++ cause /\
    sent s' = (sent s ++ [listing_request Demo.purger false])%list.
Proof.
  cbv zeta. split.
  - reflexivity.
  - apply filter_wraps_a_failed_listing. reflexivity.
Defined.

Lemma filter_without_criteria_witness :
  let s := Demo.start Demo.filter_script in
  let s1 := snd (get_all_subjects Demo.scripted Demo.purger false s) in
  ((Some "" = None \/ Some "" = Some "") /\
   get_all_subjects Demo.scripted Demo.purger false s
     = (Ok (VList (map VStr Demo.names)), s1)) /\
  get_subjects_by_filter Demo.scripted Demo.repr Demo.purger None (Some "") s
    = (Ok (map VStr Demo.names), s1) /\
  sent s1 = (sent s ++ [listing_request Demo.purger false])%list.
Proof.
  cbv zeta. split.
  - split; [right; reflexivity | reflexivity].
  - apply filter_without_criteria; [right; reflexivity | reflexivity].
Defined.

End PurgerMore.

(* ================================================================== *)
(** * SchemaHealthChecker: what the checks append and what they send *)
(* ================================================================== *)

Module CheckerMore.
Import Py Http PyFacts SchemaHealthChecker.

(** ** Relations kept by the computations *)

Section Respects.

Variable S : Type.
Variable R : S -> S -> Prop.
Hypothesis R_refl : forall s, R s s.
Hypothesis R_trans : forall s t u, R s t -> R t u -> R s u.

Lemma respects_ret {A} (a : A) : respects R (@ret S A a).
Proof. intros s r s' H. inversion H; subst. apply R_refl. Qed.

Lemma respects_pure {A} (r : result A) : respects R (@pure S A r).
Proof. intros s r' s' H. inversion H; subst. apply R_refl. Qed.

Lemma respects_bind {A B} (m : M S A) (k : A -> M S B) :
  respects R m -> (forall a, respects R (k a)) -> respects R (bind m k).
Proof.
  intros Hm Hk s r s' H. unfold bind in H.
  destruct (m s) as [[a | e] s1] eqn:E.
  - eapply R_trans; [eapply Hm; eauto | eapply Hk; eauto].
  - inversion H; subst. eapply Hm; eauto.
Qed.

Lemma respects_try_catch {A} (m : M S A) (h : exn -> M S A) :
  respects R m -> (forall e, respects R (h e)) ->
  respects R (try_catch m h).
Proof.
  intros Hm Hh s r s' H. unfold try_catch in H.
  destruct (m s) as [[a | e] s1] eqn:E.
  - inversion H; subst. eapply Hm; eauto.
  - eapply R_trans; [eapply Hm; eauto | eapply Hh; eauto].
Qed.

Lemma respects_for_loop {A B} (body : A -> B -> M S B) :
  (forall x acc, respects R (body x acc)) ->
  forall items acc, respects R (for_loop body items acc).
Proof.
  intros Hb items. induction items as [ | x items IH]; intros acc.
  - apply respects_ret.
  - cbn [for_loop]. apply respects_bind; [apply Hb | apply IH].
Qed.

End Respects.

(** A handler that returns makes the whole [try] return; a loop of bodies
    that return returns. *)
Lemma try_catch_never_raises {S A} (m : M S A) (h : exn -> M S A) :
  (forall e, never_raises (h e)) -> never_raises (try_catch m h).
Proof.
  intros Hh s. unfold try_catch.
  destruct (m s) as [[a | e] s']; [eauto | apply Hh].
Qed.

Lemma ret_never_raises {S A} (a : A) : never_raises (@ret S A a).
Proof. intros s. do 2 eexists. reflexivity. Qed.

Lemma for_loop_never_raises {S A B} (body : A -> B -> M S B) :
  (forall x acc, never_raises (body x acc)) ->
  forall items acc, never_raises (for_loop body items acc).
Proof.
  intros Hb items. induction items as [ | x items IH]; intros acc s.
  - do 2 eexists. reflexivity.
  - cbn [for_loop]. unfold bind.
    destruct (Hb x acc s) as (b & s1 & ->). apply IH.
Qed.

(** A loop whose body only appends to its accumulator, and that leaves the
    state related by [same] when it appends nothing. *)
Lemma growing_loop {S A T} (same : S -> S -> Prop)
  (body : A -> list T -> M S (list T)) :
  (forall s, same s s) ->
  (forall s t u, same s t -> same t u -> same s u) ->
  (forall x acc s, exists more s',
      body x acc s = (Ok (acc ++ more)%list, s') /\
      (more = [] -> same s s')) ->
  forall items acc s, exists more s',
    for_loop body items acc s = (Ok (acc ++ more)%list, s') /\
    (more = [] -> same s s').
Proof.
  intros Hrefl Htrans Hb items.
  induction items as [ | x items IH]; intros acc s.
  - exists [], s. cbn. rewrite app_nil_r. auto.
  - cbn [for_loop]. unfold bind.
    destruct (Hb x acc s) as (more1 & s1 & -> & H1).
    destruct (IH (acc ++ more1)%list s1) as (more2 & s2 & -> & H2).
    exists (more1 ++ more2)%list, s2. rewrite app_assoc.
    split; [reflexivity | ].
    intros Hnil. apply app_eq_nil in Hnil. destruct Hnil.
    eapply Htrans; eauto.
Qed.

Section Checker.

Variable N : network.
Variable repr : value -> string.
Variable self : checker.

#[local] Abbreviation IO := (M (state N)).
#[local] Abbreviation extends := (extends N).
#[local] Abbreviation same_lists := (same_lists N).

(** ** The two lists are only appended to *)

Lemma extends_refl (s : state N) : extends s s.
Proof. split; exists []; now rewrite app_nil_r. Qed.

Lemma extends_trans (s t u : state N) :
  extends s t -> extends t u -> extends s u.
Proof.
  intros [[i1 Hi1] [w1 Hw1]] [[i2 Hi2] [w2 Hw2]].
  split; [exists (i1 ++ i2)%list | exists (w1 ++ w2)%list];
    rewrite app_assoc; congruence.
Qed.

Lemma extends_local_refl {T} (st : state N * T) : extends_local N st st.
Proof. apply extends_refl. Qed.

Lemma extends_local_trans {T} (s t u : state N * T) :
  extends_local N s t -> extends_local N t u -> extends_local N s u.
Proof. apply extends_trans. Qed.

Lemma same_lists_refl (s : state N) : same_lists s s.
Proof. split; reflexivity. Qed.

Lemma same_lists_trans (s t u : state N) :
  same_lists s t -> same_lists t u -> same_lists s u.
Proof. intros [H1 H2] [H3 H4]. split; congruence. Qed.

Lemma same_lists_extends (s t : state N) : same_lists s t -> extends s t.
Proof.
  intros [H1 H2]. split; exists []; now rewrite app_nil_r.
Qed.

Lemma lift_net_same {A} (m : M (net_state N) A) :
  respects same_lists (lift_net N m).
Proof.
  intros s r s' H. unfold lift_net in H.
  destruct (m (net N s)). inversion H; subst. split; reflexivity.
Qed.

Lemma lift_net_extends {A} (m : M (net_state N) A) :
  respects extends (lift_net N m).
Proof.
  intros s r s' H. eapply same_lists_extends, lift_net_same, H.
Qed.

Lemma issues_append_extends (x : string) :
  respects extends (issues_append N x).
Proof.
  intros s r s' H. inversion H; subst.
  split; cbn; [exists [x] | exists []; rewrite app_nil_r]; reflexivity.
Qed.

Lemma warnings_append_extends (x : string) :
  respects extends (warnings_append N x).
Proof.
  intros s r s' H. inversion H; subst.
  split; cbn; [exists []; rewrite app_nil_r | exists [x]]; reflexivity.
Qed.

Lemma get_issues_extends : respects extends (get_issues N).
Proof. intros s r s' H. inversion H; subst. apply extends_refl. Qed.

Lemma lift_local_extends {A T} (m : IO A) :
  respects extends m ->
  respects (@extends_local N T) (lift_local N m).
Proof.
  intros Hm [s l] r [s' l'] H. unfold lift_local in H. cbn in H.
  destruct (m s) as [r1 s1] eqn:E. inversion H; subst.
  unfold extends_local. cbn. eapply Hm, E.
Qed.

Lemma local_append_extends {T} (x : T) :
  respects (@extends_local N (list T)) (local_append N x).
Proof.
  intros [s l] r [s' l'] H. inversion H; subst. apply extends_refl.
Qed.

Lemma with_local_extends {T} (init : list T)
  (m : M (state N * list T) unit) :
  respects (@extends_local N (list T)) m ->
  respects extends (with_local N init m).
Proof.
  intros Hm s r s' H. unfold with_local in H.
  destruct (m (s, init)) as [[[] | e] [s1 l]] eqn:E; inversion H; subst;
    apply (Hm _ _ _ E).
Qed.

Ltac extends_side :=
  first
    [ exact extends_refl | exact extends_trans
    | exact extends_local_refl | exact extends_local_trans
    | idtac ].

Ltac extends_step :=
  first
    [ apply respects_ret; extends_side
    | apply respects_pure; extends_side
    | apply lift_net_extends
    | apply issues_append_extends
    | apply warnings_append_extends
    | apply get_issues_extends
    | apply local_append_extends
    | apply lift_local_extends
    | apply with_local_extends
    | apply respects_bind; extends_side
    | apply respects_try_catch; extends_side
    | apply respects_for_loop; extends_side
    | match goal with |- forall _, _ => intro end
    | progress cbv zeta
    | match goal with
      | |- respects _ (if ?c then _ else _) => destruct c
      | |- respects _ (match ?x with _ => _ end) => destruct x
      end ].

Ltac extends_auto := repeat extends_step.

Lemma _check_connectivity_extends :
  respects extends (_check_connectivity N self).
Proof. unfold _check_connectivity, get, error_result. extends_auto. Qed.

Lemma _check_subject_count_extends :
  respects extends (_check_subject_count N self).
Proof. unfold _check_subject_count, get, error_result. extends_auto. Qed.

Lemma _check_version_explosion_extends :
  respects extends (_check_version_explosion N repr self).
Proof.
  unfold _check_version_explosion, explosion_of, get, error_result.
  extends_auto.
Qed.

Lemma _check_large_schemas_extends :
  respects extends (_check_large_schemas N repr self).
Proof.
  unfold _check_large_schemas, large_schema_of, get, error_result.
  extends_auto.
Qed.

Lemma _check_compatibility_config_extends :
  respects extends (_check_compatibility_config N repr self).
Proof.
  unfold _check_compatibility_config, none_compat_of, get, error_result.
  extends_auto.
Qed.

Lemma _check_soft_deleted_extends :
  respects extends (_check_soft_deleted N self).
Proof. unfold _check_soft_deleted, get, error_result. extends_auto. Qed.

Lemma _check_orphaned_references_extends :
  respects extends (_check_orphaned_references N repr self).
Proof.
  unfold _check_orphaned_references, orphaned_of, check_ref, get,
    error_result.
  extends_auto.
Qed.

Lemma summary_extends : respects extends (summary N).
Proof. intros s r s' H. inversion H; subst. apply extends_refl. Qed.

Lemma check_all_extends : respects extends (check_all N repr self).
Proof.
  unfold check_all, now_isoformat.
  repeat first
    [ apply _check_connectivity_extends
    | apply _check_subject_count_extends
    | apply _check_version_explosion_extends
    | apply _check_large_schemas_extends
    | apply _check_compatibility_config_extends
    | apply _check_soft_deleted_extends
    | apply _check_orphaned_references_extends
    | apply summary_extends
    | extends_step ].
Qed.

Lemma respects_snd {A} (R : state N -> state N -> Prop) (m : IO A)
  (s : state N) : respects R m -> R s (snd (m s)).
Proof. intros H. eapply H, surjective_pairing. Qed.

(** X15.  No check removes or reorders an entry of [self.issues] or of
    [self.warnings]: from the state in which a check, or [check_all],
    starts to the state in which it ends, whether it ends by a result or
    by an exception, each of the two lists has only been appended to. *)
Theorem checks_only_append (s : state N) :
  extends s (snd (_check_connectivity N self s)) /\
  extends s (snd (_check_subject_count N self s)) /\
  extends s (snd (_check_version_explosion N repr self s)) /\
  extends s (snd (_check_large_schemas N repr self s)) /\
  extends s (snd (_check_compatibility_config N repr self s)) /\
  extends s (snd (_check_soft_deleted N self s)) /\
  extends s (snd (_check_orphaned_references N repr self s)) /\
  extends s (snd (check_all N repr self s)).
Proof.
  repeat match goal with |- _ /\ _ => split end; apply respects_snd;
    first
      [ apply _check_connectivity_extends
      | apply _check_subject_count_extends
      | apply _check_version_explosion_extends
      | apply _check_large_schemas_extends
      | apply _check_compatibility_config_extends
      | apply _check_soft_deleted_extends
      | apply _check_orphaned_references_extends
      | apply check_all_extends ].
Qed.

(** ** Executing a check step by step *)

Lemma bind_get {A} (url : string) (k : response -> IO A) (s : state N) :
  bind (get N self url) k s =
    match send N (mkRequest GET url (auth self) (timeout self))
            (the_world (net N s)) with
    | (Ok response, w) =>
        k response
          (mkState N
             (mkNet w
                (append (sent (net N s))
                   (mkRequest GET url (auth self) (timeout self))))
             (issues N s) (warnings N s))
    | (Raise e, w) =>
        (Raise e,
         mkState N
           (mkNet w
              (append (sent (net N s))
                 (mkRequest GET url (auth self) (timeout self))))
           (issues N s) (warnings N s))
    end.
Proof.
  unfold bind, get, lift_net, requests_get, http.
  destruct (send N _ _) as [[response | e] w]; reflexivity.
Qed.

Lemma bind_pure {S A B} (r : result A) (k : A -> M S B) (s : S) :
  bind (pure r) k s =
    match r with
    | Ok a => k a s
    | Raise e => (Raise e, s)
    end.
Proof. unfold bind, pure. destruct r; reflexivity. Qed.

(** The status of a result is neither OK nor ERROR. *)
Ltac loud Hst :=
  exfalso; rewrite py_item_lit_head in Hst;
  unfold OK, WARNING, CRITICAL, ERROR in Hst;
  destruct Hst; discriminate.

Ltac quiet H := inversion H; subst; split; reflexivity.

(** ** A check that reports OK or ERROR *)

Lemma connectivity_quiet (s s' : state N) (r : value) :
  _check_connectivity N self s = (Ok r, s') ->
  py_item r "status" = Ok ERROR \/ py_item r "status" = Ok OK ->
  same_lists s s'.
Proof.
  unfold _check_connectivity, try_catch. rewrite bind_get.
  intros H Hst.
  destruct (send N _ _) as [[response | e] w].
  - rewrite bind_pure in H.
    destruct (raise_for_status response).
    + quiet H.
    + cbv zeta in H. unfold bind, issues_append, ret in H.
      inversion H; subst. loud Hst.
  - cbv zeta in H. unfold bind, issues_append, ret in H.
    inversion H; subst. loud Hst.
Qed.

Lemma subject_count_quiet (s s' : state N) (r : value) :
  _check_subject_count N self s = (Ok r, s') ->
  py_item r "status" = Ok ERROR \/ py_item r "status" = Ok OK ->
  same_lists s s'.
Proof.
  unfold _check_subject_count, try_catch, error_result. rewrite bind_get.
  intros H Hst.
  destruct (send N _ _) as [[response | e] w]; [ | quiet H].
  rewrite bind_pure in H.
  destruct (raise_for_status response); [ | quiet H].
  rewrite bind_pure in H.
  destruct (json response) as [subjects | e]; [ | quiet H].
  rewrite bind_pure in H.
  destruct (py_len subjects) as [count | e]; [ | quiet H].
  cbv zeta in H. unfold bind, warnings_append, issues_append, ret in H.
  destruct (1000 <? count)%nat.
  - inversion H; subst. loud Hst.
  - destruct (5000 <? count)%nat.
    + inversion H; subst. loud Hst.
    + quiet H.
Qed.

Ltac not_grown :=
  exists []; eexists; rewrite app_nil_r;
  split; [reflexivity | intros _; split; reflexivity].

Ltac grown :=
  eexists (cons _ nil); eexists; split; [reflexivity | discriminate].

Lemma explosion_of_grows (subject : value) (acc : list value)
  (s : state N) :
  exists more s',
    explosion_of N repr self subject acc s = (Ok (acc ++ more)%list, s') /\
    (more = [] -> same_lists s s').
Proof.
  unfold explosion_of, try_catch. rewrite bind_get.
  destruct (send N _ _) as [[response | e] w]; [ | not_grown].
  rewrite bind_pure.
  destruct (json response) as [versions | e]; [ | not_grown].
  rewrite bind_pure.
  destruct (py_len versions) as [count | e]; [ | not_grown].
  destruct (50 <? count)%nat; [ | not_grown].
  cbv zeta. unfold bind, warnings_append, issues_append, ret, append.
  destruct (100 <? count)%nat; grown.
Qed.

Lemma version_explosion_quiet (s s' : state N) (r : value) :
  _check_version_explosion N repr self s = (Ok r, s') ->
  py_item r "status" = Ok ERROR \/ py_item r "status" = Ok OK ->
  same_lists s s'.
Proof.
  unfold _check_version_explosion, try_catch, error_result.
  rewrite bind_get. intros H Hst.
  destruct (send N _ _) as [[response | e] w]; [ | quiet H].
  rewrite bind_pure in H.
  destruct (json response) as [subjects | e]; [ | quiet H].
  rewrite bind_pure in H.
  destruct (py_iter subjects) as [items | e]; [ | quiet H].
  unfold bind at 1 in H.
  match type of H with
  | context [for_loop _ items [] ?t] =>
      destruct (growing_loop same_lists (explosion_of N repr self)
                  same_lists_refl same_lists_trans explosion_of_grows
                  items [] t) as (more & s1 & E & Hsame)
  end.
  rewrite E in H. cbn [app] in H. destruct more as [ | x more].
  - inversion H; subst. destruct (Hsame eq_refl) as [Hi Hw].
    split; [rewrite Hi | rewrite Hw]; reflexivity.
  - unfold bind, get_issues, ret in H. inversion H; subst.
    exfalso. rewrite py_item_lit_head in Hst.
    unfold OK, WARNING, CRITICAL, ERROR in Hst.
    destruct (issues N s'); destruct Hst; discriminate.
Qed.

Lemma large_schema_of_grows (subject : value) (acc : list value)
  (s : state N) :
  exists more s',
    large_schema_of N repr self subject acc s
      = (Ok (acc ++ more)%list, s') /\
    (more = [] -> same_lists s s').
Proof.
  unfold large_schema_of, try_catch. rewrite bind_get.
  destruct (send N _ _) as [[response | e] w]; [ | not_grown].
  rewrite bind_pure.
  destruct (json response) as [schema_data | e]; [ | not_grown].
  rewrite bind_pure.
  destruct (py_get schema_data "schema" (VStr "")) as [schema_str | e];
    [ | not_grown].
  rewrite bind_pure.
  destruct (py_len schema_str) as [schema_len | e]; [ | not_grown].
  cbv zeta. destruct (gt_100 (div_1024 schema_len)); [ | not_grown].
  unfold bind, warnings_append, ret, append. grown.
Qed.

Lemma large_schemas_quiet (s s' : state N) (r : value) :
  _check_large_schemas N repr self s = (Ok r, s') ->
  py_item r "status" = Ok ERROR \/ py_item r "status" = Ok OK ->
  same_lists s s'.
Proof.
  unfold _check_large_schemas, try_catch, error_result.
  rewrite bind_get. intros H Hst.
  destruct (send N _ _) as [[response | e] w]; [ | quiet H].
  rewrite bind_pure in H.
  destruct (json response) as [subjects | e]; [ | quiet H].
  rewrite bind_pure in H.
  destruct (sample subjects 100) as [items | e]; [ | quiet H].
  unfold bind at 1 in H.
  match type of H with
  | context [for_loop _ items [] ?t] =>
      destruct (growing_loop same_lists (large_schema_of N repr self)
                  same_lists_refl same_lists_trans large_schema_of_grows
                  items [] t) as (more & s1 & E & Hsame)
  end.
  rewrite E in H. cbn [app] in H. destruct more as [ | x more].
  - inversion H; subst. destruct (Hsame eq_refl) as [Hi Hw].
    split; [rewrite Hi | rewrite Hw]; reflexivity.
  - unfold ret in H. inversion H; subst. loud Hst.
Qed.

(** The loop of the compatibility check appends to no list of the
    checker. *)
Lemma none_compat_of_same (subject : value) (acc : list value) :
  respects same_lists (none_compat_of N repr self subject acc) /\
  never_raises (none_compat_of N repr self subject acc).
Proof.
  split.
  - intros s r s'. unfold none_compat_of, try_catch. rewrite bind_get.
    destruct (send N _ _) as [[response | e] w]; [ | intros H; quiet H].
    destruct (status_code response =? 200)%Z; [ | intros H; quiet H].
    rewrite bind_pure.
    destruct (json response) as [config | e]; [ | intros H; quiet H].
    rewrite bind_pure.
    destruct (py_get config "compatibilityLevel" VNone);
      intros H; quiet H.
  - apply try_catch_never_raises. intros e. apply ret_never_raises.
Qed.

Lemma compatibility_quiet (s s' : state N) (r : value) :
  _check_compatibility_config N repr self s = (Ok r, s') ->
  py_item r "status" = Ok ERROR \/ py_item r "status" = Ok OK ->
  same_lists s s'.
Proof.
  unfold _check_compatibility_config, try_catch, error_result.
  rewrite bind_get. intros H Hst.
  destruct (send N _ _) as [[global_resp | e] w]; [ | quiet H].
  rewrite bind_pure in H.
  destruct (json global_resp) as [global_config | e]; [ | quiet H].
  rewrite bind_get in H. cbn [net issues warnings] in H.
  destruct (send N _ _) as [[response | e] w1]; [ | quiet H].
  rewrite bind_pure in H.
  destruct (json response) as [subjects | e]; [ | quiet H].
  rewrite bind_pure in H.
  destruct (sample subjects 50) as [items | e]; [ | quiet H].
  unfold bind at 1 in H.
  match type of H with
  | context [for_loop _ items [] ?t] =>
      destruct (for_loop_never_raises (none_compat_of N repr self)
                  (fun x acc => proj2 (none_compat_of_same x acc))
                  items [] t) as (none_compat & s1 & E);
      pose proof
        (respects_for_loop _ same_lists same_lists_refl same_lists_trans
           (none_compat_of N repr self)
           (fun x acc => proj1 (none_compat_of_same x acc))
           items [] t _ _ E) as [Hi Hw]
  end.
  rewrite E in H. destruct none_compat as [ | x none_compat].
  - inversion H; subst. cbn in Hi, Hw. split; assumption.
  - cbv zeta in H. unfold bind, warnings_append, ret in H.
    inversion H; subst. loud Hst.
Qed.

Lemma soft_deleted_quiet (s s' : state N) (r : value) :
  _check_soft_deleted N self s = (Ok r, s') ->
  py_item r "status" = Ok OK ->
  same_lists s s'.
Proof.
  unfold _check_soft_deleted, try_catch, error_result.
  rewrite bind_get. intros H Hst.
  destruct (send N _ _) as [[response | e] w];
    [ | inversion H; subst; rewrite py_item_lit_head in Hst;
        discriminate ].
  rewrite bind_pure in H.
  destruct (json response) as [deleted | e];
    [ | inversion H; subst; rewrite py_item_lit_head in Hst;
        discriminate ].
  rewrite bind_pure in H.
  destruct (py_len deleted) as [count | e];
    [ | inversion H; subst; rewrite py_item_lit_head in Hst;
        discriminate ].
  destruct (0 <? count)%nat; [ | quiet H].
  unfold bind at 1, warnings_append in H. rewrite bind_pure in H.
  destruct (py_slice_to deleted 10);
    inversion H; subst; rewrite py_item_lit_head in Hst; discriminate.
Qed.

(** *** The orphaned references *)

Lemma grows_refl {T} (st : state N * list T) : grows N st st.
Proof.
  exists []. rewrite app_nil_r. split; [reflexivity | ].
  intros _. apply same_lists_refl.
Qed.

Lemma grows_trans {T} (s t u : state N * list T) :
  grows N s t -> grows N t u -> grows N s u.
Proof.
  intros (m1 & H1 & S1) (m2 & H2 & S2). exists (m1 ++ m2)%list.
  split; [rewrite H2, H1; now rewrite app_assoc | ].
  intros Hnil. apply app_eq_nil in Hnil. destruct Hnil.
  eapply same_lists_trans; eauto.
Qed.

Lemma lift_local_get_grows (url : string) :
  respects (@grows N value) (lift_local N (get N self url)).
Proof.
  intros [s l] r [s' l'] H. unfold lift_local in H. cbn in H.
  destruct (get N self url s) as [r1 s1] eqn:E. inversion H; subst.
  exists []. cbn. rewrite app_nil_r. split; [reflexivity | ].
  intros _. eapply lift_net_same, E.
Qed.

Lemma missing_ref_grows (x : value) (entry : string) :
  respects (@grows N value)
    (bind (local_append N x)
       (fun _ => lift_local N (issues_append N entry))).
Proof.
  intros [s l] r [s' l'] H. inversion H; subst.
  exists [x]. split; [reflexivity | discriminate].
Qed.

Lemma check_ref_grows (subject ref : value) :
  respects (@grows N value) (check_ref N repr self subject ref).
Proof.
  unfold check_ref.
  apply respects_bind; [exact grows_trans | | intros ref_subject].
  { apply respects_pure. exact grows_refl. }
  apply respects_bind; [exact grows_trans | | intros check_resp].
  { apply lift_local_get_grows. }
  destruct (status_code check_resp =? 404)%Z.
  - apply missing_ref_grows.
  - apply respects_ret. exact grows_refl.
Qed.

Lemma orphaned_of_grows (subject : value) (u : unit) :
  respects (@grows N value) (orphaned_of N repr self subject u).
Proof.
  unfold orphaned_of.
  apply respects_try_catch; [exact grows_trans | | ].
  - apply respects_bind; [exact grows_trans | | intros schema_resp].
    { apply lift_local_get_grows. }
    repeat (apply respects_bind;
            [ exact grows_trans
            | apply respects_pure; exact grows_refl
            | intro ]).
    apply respects_for_loop; [exact grows_refl | exact grows_trans | ].
    intros ref acc. apply check_ref_grows.
  - intros e. apply respects_ret. exact grows_refl.
Qed.

Lemma orphaned_of_never_raises (subject : value) (u : unit) :
  never_raises (orphaned_of N repr self subject u).
Proof. apply try_catch_never_raises. intros e. apply ret_never_raises. Qed.

Lemma orphaned_references_quiet (s s' : state N) (r : value) :
  _check_orphaned_references N repr self s = (Ok r, s') ->
  py_item r "status" = Ok ERROR \/ py_item r "status" = Ok OK ->
  same_lists s s'.
Proof.
  unfold _check_orphaned_references, try_catch, error_result.
  rewrite bind_get. intros H Hst.
  destruct (send N _ _) as [[response | e] w]; [ | quiet H].
  rewrite bind_pure in H.
  destruct (json response) as [subjects | e]; [ | quiet H].
  rewrite bind_pure in H.
  destruct (sample subjects 50) as [items | e]; [ | quiet H].
  unfold bind at 1, with_local in H.
  match type of H with
  | context [for_loop _ items tt ?t] =>
      destruct (for_loop_never_raises (orphaned_of N repr self)
                  orphaned_of_never_raises items tt t)
        as ([] & [s1 orphaned] & E);
      destruct
        (respects_for_loop _ (@grows N value) grows_refl grows_trans
           (orphaned_of N repr self) orphaned_of_grows
           items tt t _ _ E) as (more & Hmore & Hsame)
  end.
  rewrite E in H. cbn in Hmore. subst orphaned.
  destruct more as [ | x more].
  - inversion H; subst. destruct (Hsame eq_refl) as [Hi Hw].
    cbn in Hi, Hw. split; assumption.
  - unfold ret in H. inversion H; subst. loud Hst.
Qed.


(** X17.  A check that reports OK has appended nothing to the two lists:
    each of the seven checks appends an entry only on a path that ends in
    WARNING, CRITICAL or ERROR. *)
Theorem ok_appends_nothing (check : IO value) (s s' : state N)
  (result : value) :
  In check [_check_connectivity N self;
            _check_subject_count N self;
            _check_version_explosion N repr self;
            _check_large_schemas N repr self;
            _check_compatibility_config N repr self;
            _check_soft_deleted N self;
            _check_orphaned_references N repr self] ->
  check s = (Ok result, s') ->
  py_item result "status" = Ok OK ->
  same_lists s s'.
Proof.
  intros Hin H Hst. cbn [In] in Hin.
  destruct Hin as [<- | [<- | [<- | [<- | [<- | [<- | [<- | []]]]]]]].
  - eapply connectivity_quiet; eauto.
  - eapply subject_count_quiet; eauto.
  - eapply version_explosion_quiet; eauto.
  - eapply large_schemas_quiet; eauto.
  - eapply compatibility_quiet; eauto.
  - eapply soft_deleted_quiet; eauto.
  - eapply orphaned_references_quiet; eauto.
Qed.

(** ** The whole audit *)

(** The run of [check_all]: the connectivity check runs first, on the
    lists as they are; the report holds its result and the status of the
    two lists at the end. *)
Lemma check_all_report (s : state N) :
  exists r1 s1 report checks summary s',
    _check_connectivity N self
      (mkState N (net N s) (issues N s) (warnings N s)) = (Ok r1, s1) /\
    extends s1 s' /\
    check_all N repr self s = (Ok report, s') /\
    py_item report "checks" = Ok checks /\
    py_item checks "connectivity" = Ok r1 /\
    py_item report "summary" = Ok summary /\
    py_item summary "status"
      = Ok (summary_status (issues N s') (warnings N s')).
Proof.
  unfold check_all, bind. unfold now_isoformat, lift_net, utc_now_isoformat.
  cbn [net].
  match goal with
  | |- context [_check_connectivity N self ?t] =>
      destruct (CheckerFacts._check_connectivity_returns N self t)
        as (r1 & s1 & E1)
  end.
  destruct (CheckerFacts._check_subject_count_returns N self s1)
    as (r2 & s2 & E2).
  destruct (CheckerFacts._check_version_explosion_returns N repr self s2)
    as (r3 & s3 & E3).
  destruct (CheckerFacts._check_large_schemas_returns N repr self s3)
    as (r4 & s4 & E4).
  destruct (CheckerFacts._check_compatibility_config_returns N repr self s4)
    as (r5 & s5 & E5).
  destruct (CheckerFacts._check_soft_deleted_returns N self s5)
    as (r6 & s6 & E6).
  destruct (CheckerFacts._check_orphaned_references_returns N repr self s6)
    as (r7 & s7 & E7).
  rewrite E1, E2, E3, E4, E5, E6, E7. unfold summary, ret.
  exists r1, s1. do 3 eexists. exists s7.
  split; [reflexivity | ]. split.
  - eapply extends_trans; [eapply _check_subject_count_extends, E2 | ].
    eapply extends_trans; [eapply _check_version_explosion_extends, E3 | ].
    eapply extends_trans; [eapply _check_large_schemas_extends, E4 | ].
    eapply extends_trans;
      [eapply _check_compatibility_config_extends, E5 | ].
    eapply extends_trans; [eapply _check_soft_deleted_extends, E6 | ].
    eapply _check_orphaned_references_extends, E7.
  - repeat (split; [reflexivity | ]). reflexivity.
Qed.

Lemma connectivity_unreachable (s : state N) (e : exn) :
  unreachable N self s e ->
  exists n,
    _check_connectivity N self s =
      (Ok (lit [("status", CRITICAL);
                ("message", VStr (connectivity_message e))]),
       mkState N n
         (append (issues N s) ("Connectivity: " ++ connectivity_message e))
         (warnings N s)).
Proof.
  intros (w & H). unfold _check_connectivity, try_catch.
  rewrite bind_get. unfold subjects_request in H.
  destruct H as [H | (response & H & Hr)]; rewrite H.
  - eexists. reflexivity.
  - rewrite bind_pure, Hr. eexists. reflexivity.
Qed.

(** X18.  When the request of the connectivity check raises, or is
    answered with a status from 400 to 599, the connectivity check reports
    CRITICAL with the text of the failure, its entry is among the issues
    at the end of the audit, and the status of the summary is CRITICAL,
    whatever the six later checks find. *)
Theorem unreachable_registry_is_critical (s : state N) (e : exn) :
  unreachable N self s e ->
  exists report checks summary s',
    check_all N repr self s = (Ok report, s') /\
    py_item report "checks" = Ok checks /\
    py_item checks "connectivity"
      = Ok (lit [("status", CRITICAL);
                 ("message", VStr (connectivity_message e))]) /\
    In ("Connectivity: " ++ connectivity_message e) (issues N s') /\
    py_item report "summary" = Ok summary /\
    py_item summary "status" = Ok CRITICAL.
Proof.
  intros Hu.
  destruct (check_all_report s)
    as (r1 & s1 & report & checks & summary & s' &
        E1 & Hext & Hall & Hchecks & Hconn & Hsum & Hstatus).
  destruct (connectivity_unreachable
              (mkState N (net N s) (issues N s) (warnings N s)) e Hu)
    as (n & E).
  rewrite E in E1. inversion E1; subst r1 s1. clear E1.
  destruct Hext as [[more Hi] _]. cbn [issues] in Hi.
  assert (Hin : In ("Connectivity: " ++ connectivity_message e)
                  (issues N s')).
  { rewrite Hi. unfold append. apply in_or_app. left.
    apply in_or_app. right. left. reflexivity. }
  exists report, checks, summary, s'.
  repeat (split; [assumption | ]).
  rewrite Hstatus. destruct (issues N s'); [destruct Hin | reflexivity].
Qed.


(** X20.  The subject-count check never appends an issue and never
    reports CRITICAL, whatever the registry answers. *)
Theorem subject_count_is_never_critical (s : state N) :
  exists result s',
    _check_subject_count N self s = (Ok result, s') /\
    issues N s' = issues N s /\
    py_item result "status" <> Ok CRITICAL.
Proof.
  unfold _check_subject_count, try_catch, error_result. rewrite bind_get.
  destruct (send N _ _) as [[response | e] w];
    [ | do 2 eexists; repeat split; discriminate ].
  rewrite bind_pure.
  destruct (raise_for_status response);
    [ | do 2 eexists; repeat split; discriminate ].
  rewrite bind_pure.
  destruct (json response) as [subjects | e];
    [ | do 2 eexists; repeat split; discriminate ].
  rewrite bind_pure.
  destruct (py_len subjects) as [count | e];
    [ | do 2 eexists; repeat split; discriminate ].
  cbv zeta. unfold bind, warnings_append, issues_append, ret.
  destruct (Nat.ltb_spec 1000 count) as [Hgt | Hle].
  - do 2 eexists. repeat split. discriminate.
  - destruct (Nat.ltb_spec 5000 count) as [Hgt | _]; [lia | ].
    do 2 eexists. repeat split. discriminate.
Qed.

(** ** The requests of the sampled checks *)

#[local] Abbreviation sends_at_most := (sends_at_most N).

Lemma sends_weaken (a b : nat) (s s' : state N) :
  (a <= b)%nat -> sends_at_most a s s' -> sends_at_most b s s'.
Proof. intros Hab (l & H & Hl). exists l. split; [assumption | lia]. Qed.

Lemma sends_comp (a b : nat) (s t u : state N) :
  sends_at_most a s t -> sends_at_most b t u ->
  sends_at_most (a + b) s u.
Proof.
  intros (l1 & H1 & L1) (l2 & H2 & L2). exists (l1 ++ l2)%list.
  split; [rewrite H2, H1; now rewrite app_assoc | ].
  rewrite length_app. lia.
Qed.

Lemma sends_none (s s' : state N) :
  net N s' = net N s -> sends_at_most 0 s s'.
Proof.
  intros H. exists []. rewrite H, app_nil_r. split; [reflexivity | cbn; lia].
Qed.

Lemma sends_ret {A} (a : A) : respects (sends_at_most 0) (ret a).
Proof. intros s r s' H. inversion H; subst. now apply sends_none. Qed.

Lemma sends_pure {A} (r : result A) : respects (sends_at_most 0) (pure r).
Proof. intros s r' s' H. inversion H; subst. now apply sends_none. Qed.

Lemma sends_issues_append (x : string) :
  respects (sends_at_most 0) (issues_append N x).
Proof. intros s r s' H. inversion H; subst. now apply sends_none. Qed.

Lemma sends_warnings_append (x : string) :
  respects (sends_at_most 0) (warnings_append N x).
Proof. intros s r s' H. inversion H; subst. now apply sends_none. Qed.

Lemma sends_get (url : string) :
  respects (sends_at_most 1) (get N self url).
Proof.
  intros s r s' H. unfold get, lift_net, requests_get, http in H.
  destruct (send N _ _) as [res w]. inversion H; subst. cbn.
  eexists [_]. split; [reflexivity | cbn; lia].
Qed.

Lemma sends_bind {A B} (a b : nat) (m : IO A) (k : A -> IO B) :
  respects (sends_at_most a) m ->
  (forall x, respects (sends_at_most b) (k x)) ->
  respects (sends_at_most (a + b)) (bind m k).
Proof.
  intros Hm Hk s r s' H. unfold bind in H.
  destruct (m s) as [[x | e] s1] eqn:E.
  - eapply sends_comp; [eapply Hm; eauto | eapply Hk; eauto].
  - inversion H; subst.
    eapply sends_weaken; [ | eapply Hm; eauto]. lia.
Qed.

(** The continuation of a pure step runs on a value that the step gave. *)
Lemma sends_bind_pure {A B} (n : nat) (r : result A) (k : A -> IO B) :
  (forall x, r = Ok x -> respects (sends_at_most n) (k x)) ->
  respects (sends_at_most n) (bind (pure r) k).
Proof.
  intros Hk s r' s' H. rewrite bind_pure in H. destruct r as [x | e].
  - eapply Hk; eauto.
  - inversion H; subst. eapply sends_weaken; [ | now apply sends_none]. lia.
Qed.

Lemma sends_try_catch {A} (a b : nat) (m : IO A) (h : exn -> IO A) :
  respects (sends_at_most a) m ->
  (forall e, respects (sends_at_most b) (h e)) ->
  respects (sends_at_most (a + b)) (try_catch m h).
Proof.
  intros Hm Hh s r s' H. unfold try_catch in H.
  destruct (m s) as [[x | e] s1] eqn:E.
  - inversion H; subst.
    eapply sends_weaken; [ | eapply Hm; eauto]. lia.
  - eapply sends_comp; [eapply Hm; eauto | eapply Hh; eauto].
Qed.

Lemma sends_for_loop {A B} (body : A -> B -> IO B) :
  (forall x acc, respects (sends_at_most 1) (body x acc)) ->
  forall items acc,
    respects (sends_at_most (List.length items)) (for_loop body items acc).
Proof.
  intros Hb items. induction items as [ | x items IH]; intros acc.
  - apply sends_ret.
  - cbn [for_loop List.length].
    apply (sends_bind 1 (List.length items)); [apply Hb | apply IH].
Qed.

Ltac sends_nothing :=
  repeat first
    [ apply sends_ret | apply sends_pure
    | apply sends_issues_append | apply sends_warnings_append
    | apply (sends_bind 0 0)
    | match goal with |- forall _, _ => intro end
    | progress cbv zeta
    | match goal with
      | |- respects _ (if ?c then _ else _) => destruct c
      | |- respects _ (match ?x with _ => _ end) => destruct x
      end ].

Lemma large_schema_of_sends (subject : value) (acc : list value) :
  respects (sends_at_most 1) (large_schema_of N repr self subject acc).
Proof.
  unfold large_schema_of.
  apply (sends_try_catch 1 0); [ | sends_nothing].
  apply (sends_bind 1 0); [apply sends_get | sends_nothing].
Qed.

Lemma none_compat_of_sends (subject : value) (acc : list value) :
  respects (sends_at_most 1) (none_compat_of N repr self subject acc).
Proof.
  unfold none_compat_of.
  apply (sends_try_catch 1 0); [ | sends_nothing].
  apply (sends_bind 1 0); [apply sends_get | sends_nothing].
Qed.

(** A sample has at most [limit] items. *)
Lemma sample_length (subjects : value) (limit : nat) (items : list value) :
  sample subjects limit = Ok items -> (List.length items <= limit)%nat.
Proof.
  unfold sample.
  destruct subjects as [ | b | n | f | t | l | d]; cbn [py_len rbind];
    try discriminate; unfold py_slice_to; cbn [rbind py_iter];
    try discriminate; intros H; inversion H; subst.
  - rewrite chars_length, characters_slice, length_firstn. lia.
  - rewrite length_firstn. lia.
Qed.

Lemma _check_large_schemas_sends :
  respects (sends_at_most 101) (_check_large_schemas N repr self).
Proof.
  unfold _check_large_schemas, error_result.
  apply (sends_try_catch 101 0); [ | sends_nothing].
  apply (sends_bind 1 100); [apply sends_get | intros response].
  apply (sends_bind 0 100); [apply sends_pure | intros subjects].
  apply sends_bind_pure. intros items Hitems.
  apply (sends_bind 100 0); [ | sends_nothing].
  intros s r s' H. eapply sends_weaken; [eapply sample_length, Hitems | ].
  eapply sends_for_loop; [ | exact H].
  intros x acc. apply large_schema_of_sends.
Qed.

Lemma _check_compatibility_config_sends :
  respects (sends_at_most 52) (_check_compatibility_config N repr self).
Proof.
  unfold _check_compatibility_config, error_result.
  apply (sends_try_catch 52 0); [ | sends_nothing].
  apply (sends_bind 1 51); [apply sends_get | intros global_resp].
  apply (sends_bind 0 51); [apply sends_pure | intros global_config].
  apply (sends_bind 1 50); [apply sends_get | intros response].
  apply (sends_bind 0 50); [apply sends_pure | intros subjects].
  apply sends_bind_pure. intros items Hitems.
  apply (sends_bind 50 0); [ | sends_nothing].
  intros s r s' H. eapply sends_weaken; [eapply sample_length, Hitems | ].
  eapply sends_for_loop; [ | exact H].
  intros x acc. apply none_compat_of_sends.
Qed.

(** X21.  The size check sends at most 101 requests and the compatibility
    check at most 52, however many subjects the registry lists: one
    request for the listing (and one for the global configuration), then
    one for each of the first 100 (or 50) subjects. *)
Theorem sampled_checks_are_bounded (s : state N) :
  sends_at_most 101 s (snd (_check_large_schemas N repr self s)) /\
  sends_at_most 52 s (snd (_check_compatibility_config N repr self s)).
Proof.
  split; apply respects_snd;
    [apply _check_large_schemas_sends
    | apply _check_compatibility_config_sends].
Qed.

(** ** The versions of one subject *)

(** X22.  For a subject whose listing of versions is answered, whatever
    the status code, by a value of [count] items: up to 50 the subject is
    passed over; from 51 to 100 it is an explosion and a warning; above
    100 it is an explosion and an issue.  The entry appended is the same
    text in both cases. *)
Theorem version_thresholds (s : state N) (subject : value)
  (explosions : list value) (response : response) (w : world N)
  (versions : value) (count : nat) :
  send N (versions_request repr self subject) (the_world (net N s))
    = (Ok response, w) ->
  json response = Ok versions ->
  py_len versions = Ok count ->
  let entry :=
    py_str repr subject ++ ": " ++ str_nat count ++ " versions" in
  exists s',
    explosion_of N repr self subject explosions s =
      (Ok (if (50 <? count)%nat
           then append explosions
                  (lit [("subject", subject);
                        ("versions", VInt (Z.of_nat count))])
           else explosions),
       s') /\
    issues N s' =
      (if (100 <? count)%nat then append (issues N s) entry
       else issues N s) /\
    warnings N s' =
      (if (50 <? count)%nat && negb (100 <? count)%nat
       then append (warnings N s) entry
       else warnings N s).
Proof.
  intros Hs Hj Hl entry. unfold explosion_of, try_catch.
  rewrite bind_get. unfold versions_request in Hs. rewrite Hs.
  rewrite bind_pure, Hj, bind_pure, Hl.
  destruct (Nat.ltb_spec 50 count) as [H50 | H50].
  - cbv zeta. unfold bind, issues_append, warnings_append, ret.
    destruct (100 <? count)%nat; eexists; repeat split.
  - destruct (Nat.ltb_spec 100 count) as [H100 | _]; [lia | ].
    eexists. repeat split.
Qed.

End Checker.

(** ** The checker on the scripted registries *)


(** The registry answers the connectivity check: the check reports OK and
    the two lists are as they were. *)
Lemma ok_appends_nothing_witness :
  let s := fresh Demo.scripted [Demo.answer 200 (VList [])] in
  let check := _check_connectivity Demo.scripted Demo.checker in
  let result :=
    lit [("status", OK);
         ("message", VStr "Schema Registry is reachable")] in
  (In check
     [_check_connectivity Demo.scripted Demo.checker;
      _check_subject_count Demo.scripted Demo.checker;
      _check_version_explosion Demo.scripted Demo.repr Demo.checker;
      _check_large_schemas Demo.scripted Demo.repr Demo.checker;
      _check_compatibility_config Demo.scripted Demo.repr Demo.checker;
      _check_soft_deleted Demo.scripted Demo.checker;
      _check_orphaned_references Demo.scripted Demo.repr Demo.checker] /\
   check s = (Ok result, snd (check s)) /\
   py_item result "status" = Ok OK) /\
  same_lists Demo.scripted s (snd (check s)).
Proof.
  cbv zeta. split.
  - split; [left; reflexivity | split; reflexivity].
  - eapply (ok_appends_nothing Demo.scripted Demo.repr Demo.checker);
      [left; reflexivity | reflexivity | reflexivity].
Defined.

(** A registry that answers 503 to the first request and then lists no
    subject: the audit is CRITICAL. *)
Lemma unreachable_registry_is_critical_witness :
  let s :=
    fresh Demo.scripted
      [Ok (mkResponse 503 "Service Unavailable"
             "https://registry.example/subjects" "" (Ok (VList [])))] in
  let e :=
    mkExn HTTPError
      ("503 Server Error: Service Unavailable for url: "
         ++ "https://registry.example/subjects") in
  unreachable Demo.scripted Demo.checker s e /\
  exists report checks summary s',
    check_all Demo.scripted Demo.repr Demo.checker s = (Ok report, s') /\
    py_item report "checks" = Ok checks /\
    py_item checks "connectivity"
      = Ok (lit [("status", CRITICAL);
                 ("message", VStr (connectivity_message e))]) /\
    In ("Connectivity: " ++ connectivity_message e)
      (issues Demo.scripted s') /\
    py_item report "summary" = Ok summary /\
    py_item summary "status" = Ok CRITICAL.
Proof.
  cbv zeta.
  assert (H : unreachable Demo.scripted Demo.checker
                (fresh Demo.scripted
                   [Ok (mkResponse 503 "Service Unavailable"
                          "https://registry.example/subjects" ""
                          (Ok (VList [])))])
                (mkExn HTTPError
                   ("503 Server Error: Service Unavailable for url: "
                      ++ "https://registry.example/subjects"))).
  { exists []. right. eexists. split; reflexivity. }
  split; [exact H | ].
  exact (unreachable_registry_is_critical Demo.scripted Demo.repr
           Demo.checker _ _ H).
Defined.

(** A subject of 101 versions is an explosion and an issue. *)
Lemma version_thresholds_witness :
  let N := Demo.constant (Demo.answer 200 (Demo.listing 101)) in
  let s := fresh N tt in
  let subject := VStr "orders-value" in
  (send N (versions_request Demo.repr Demo.checker subject)
     (the_world (net N s))
     = (Ok (Demo.response_of 200 (Demo.listing 101)), tt) /\
   json (Demo.response_of 200 (Demo.listing 101))
     = Ok (Demo.listing 101) /\
   py_len (Demo.listing 101) = Ok 101%nat) /\
  exists s',
    explosion_of N Demo.repr Demo.checker subject [] s =
      (Ok [lit [("subject", subject); ("versions", VInt 101)]], s') /\
    issues N s' = ["orders-value: 101 versions"] /\
    warnings N s' = [].
Proof.
  cbv zeta. split; [repeat split | ].
  exact (version_thresholds
           (Demo.constant (Demo.answer 200 (Demo.listing 101)))
           Demo.repr Demo.checker
           (fresh (Demo.constant (Demo.answer 200 (Demo.listing 101))) tt)
           (VStr "orders-value") []
           (Demo.response_of 200 (Demo.listing 101)) tt
           (Demo.listing 101) 101 eq_refl eq_refl eq_refl).
Defined.

End CheckerMore.

(* ================================================================== *)
(** * ConfluentInspector and the diagnostic of the registry *)
(* ================================================================== *)

Module InspectorMore.
Import Py Http PyFacts.

Section Inspector.
Import ConfluentInspector.

Variable H : header_network.
Variable repr : value -> string.
Variable b64encode : string -> string.
Variable self : inspector.

#[local] Abbreviation IO := (M (hnet_state H)).

Lemma _get_schema_run (subject : value) (s : hnet_state H) :
  exists result s',
    _get_schema H repr self subject s = (Ok result, s') /\
    hsent s' = append (hsent s) (latest_request repr self subject) /\
    (result = VNone \/ found H repr self subject (the_hworld s) result).
Proof.
  unfold _get_schema, try_catch, bind at 1, requests_get_headers.
  cbv zeta. unfold found, latest_request.
  destruct (hsend H _ _) as [[response | e] w] eqn:Es;
    [ | do 2 eexists; repeat split; left; reflexivity ].
  destruct (status_code response =? 200)%Z eqn:E200.
  - apply Z.eqb_eq in E200. rewrite CheckerMore.bind_pure.
    destruct (json response) as [data | e] eqn:Ej;
      [ | do 2 eexists; repeat split; left; reflexivity ].
    rewrite CheckerMore.bind_pure.
    destruct (py_item data "version") as [version | e] eqn:Ev;
      [ | do 2 eexists; repeat split; left; reflexivity ].
    rewrite CheckerMore.bind_pure.
    destruct (py_item data "id") as [id | e] eqn:Ei;
      [ | do 2 eexists; repeat split; left; reflexivity ].
    rewrite CheckerMore.bind_pure.
    destruct (py_item data "schema") as [text | e] eqn:Et;
      [ | do 2 eexists; repeat split; left; reflexivity ].
    rewrite CheckerMore.bind_pure.
    destruct (py_get data "schemaType" (VStr "AVRO")) as [ty | e] eqn:Ety;
      [ | do 2 eexists; repeat split; left; reflexivity ].
    do 2 eexists. split; [reflexivity | ]. split; [reflexivity | ].
    right. exists response, w, data. repeat split; try assumption.
    exists version, id, text, ty. repeat split; assumption.
  - destruct (status_code response =? 404)%Z;
      do 2 eexists; repeat split; left; reflexivity.
Qed.

(** X23.  [_get_schema] never raises and sends one request, for the
    latest version of the subject.  It returns a schema only when the
    registry answers 200 with a JSON object that has the keys "version",
    "id" and "schema"; in every other case, an exception of the request
    included, it returns None. *)
Theorem get_schema_outcome (subject : value) (s : hnet_state H) :
  exists result s',
    _get_schema H repr self subject s = (Ok result, s') /\
    hsent s' = append (hsent s) (latest_request repr self subject) /\
    (result = VNone \/ found H repr self subject (the_hworld s) result).
Proof. apply _get_schema_run. Qed.

Lemma found_subject (subject : value) (w : hworld H) (schema : value) :
  found H repr self subject w schema ->
  py_truthy schema = true /\ py_item schema "subject" = Ok subject.
Proof.
  intros (response & w' & data & _ & _ & _ &
          version & id & text & ty & _ & _ & _ & _ & ->).
  split; reflexivity.
Qed.

(** The loop of [list_schemas_for_topic] over any list of subjects. *)
Lemma schemas_loop (subjects : list value) :
  forall (acc : list value) (s : hnet_state H),
  exists more s',
    for_loop
      (fun subject schemas =>
         bind (_get_schema H repr self subject) (fun schema =>
         ret (if py_truthy schema then append schemas schema
              else schemas)))
      subjects acc s = (Ok (acc ++ more)%list, s') /\
    hsent s' = (hsent s ++ map (latest_request repr self) subjects)%list /\
    (List.length more <= List.length subjects)%nat /\
    Forall (fun schema =>
              exists subject,
                In subject subjects /\
                py_item schema "subject" = Ok subject) more.
Proof.
  induction subjects as [ | subject subjects IH]; intros acc s.
  - exists [], s. cbn. rewrite !app_nil_r. repeat split; auto.
  - cbn [for_loop]. unfold bind at 1. unfold bind at 1.
    destruct (_get_schema_run subject s) as (r & s1 & -> & Hsent & Hr).
    unfold ret at 1.
    destruct Hr as [-> | Hfound].
    + cbn [py_truthy].
      destruct (IH acc s1) as (more & s2 & -> & Hsent2 & Hlen & Hall).
      exists more, s2. split; [reflexivity | ]. split.
      { rewrite Hsent2, Hsent. unfold append. cbn [map].
        now rewrite <- app_assoc. }
      split; [cbn; lia | ].
      eapply Forall_impl; [ | exact Hall].
      intros schema (x & Hin & Hx). exists x. split; [now right | exact Hx].
    + destruct (found_subject _ _ _ Hfound) as [-> Hsubject].
      destruct (IH (append acc r) s1)
        as (more & s2 & -> & Hsent2 & Hlen & Hall).
      exists (r :: more), s2. split.
      { unfold append. now rewrite <- app_assoc. }
      split.
      { rewrite Hsent2, Hsent. unfold append. cbn [map].
        now rewrite <- app_assoc. }
      split; [cbn; lia | ].
      constructor.
      * exists subject. split; [now left | exact Hsubject].
      * eapply Forall_impl; [ | exact Hall].
        intros schema (x & Hin & Hx). exists x.
        split; [now right | exact Hx].
Qed.

(** X24.  [list_schemas_for_topic] never raises and always sends three
    requests, for the subjects "<topic>-value", "<topic>-key" and
    "<topic>" in this order: a schema found for one subject does not stop
    the search.  It returns at most three schemas, each for one of the
    three subjects. *)
Theorem list_schemas_for_topic_outcome (topic_name : value)
  (s : hnet_state H) :
  exists schemas s',
    list_schemas_for_topic H repr self topic_name s
      = (Ok (VList schemas), s') /\
    hsent s' =
      (hsent s ++
       [latest_request repr self (VStr (py_str repr topic_name ++ "-value"));
        latest_request repr self (VStr (py_str repr topic_name ++ "-key"));
        latest_request repr self topic_name])%list /\
    (List.length schemas <= 3)%nat /\
    Forall (fun schema =>
              exists subject,
                In subject (subjects_to_check repr topic_name) /\
                py_item schema "subject" = Ok subject) schemas.
Proof.
  unfold list_schemas_for_topic, try_catch, bind at 1.
  destruct (schemas_loop (subjects_to_check repr topic_name) [] s)
    as (more & s' & -> & Hsent & Hlen & Hall).
  exists more, s'. split; [reflexivity | ].
  split; [exact Hsent | ]. split; [exact Hlen | exact Hall].
Qed.

(** X25.  [get_all_subjects] never raises and sends one request.  When
    the registry answers 200 with a JSON value that has a length, the
    result is that value, whatever it is; in every other case (a failed
    request, another status, a body that is not JSON, a JSON value without
    a length such as a number or null) the result is the empty list. *)
Theorem inspector_subjects_outcome (s : hnet_state H) :
  exists result s',
    get_all_subjects H repr self s = (Ok result, s') /\
    hsent s' = append (hsent s) (subjects_request repr self) /\
    the_hworld s'
      = snd (hsend H (subjects_request repr self) (the_hworld s)) /\
    (forall response subjects count,
        fst (hsend H (subjects_request repr self) (the_hworld s))
          = Ok response ->
        status_code response = 200%Z ->
        json response = Ok subjects ->
        py_len subjects = Ok count ->
        result = subjects) /\
    (result = VList [] \/
     exists response count,
       fst (hsend H (subjects_request repr self) (the_hworld s))
         = Ok response /\
       status_code response = 200%Z /\
       json response = Ok result /\
       py_len result = Ok count).
Proof.
  unfold get_all_subjects, try_catch, bind at 1, requests_get_headers.
  cbv zeta. unfold subjects_request.
  destruct (hsend H _ _) as [[response | e] w] eqn:Es; cbn [fst snd].
  2: { do 2 eexists. repeat split; [discriminate | left; reflexivity]. }
  destruct (status_code response =? 200)%Z eqn:E200.
  2: { apply Z.eqb_neq in E200. do 2 eexists.
       repeat split; [ | left; reflexivity].
       intros r v n Hr Hc. congruence. }
  apply Z.eqb_eq in E200. rewrite CheckerMore.bind_pure.
  destruct (json response) as [subjects | e] eqn:Ej.
  2: { do 2 eexists. repeat split; [ | left; reflexivity].
       intros r v n Hr _ Hj. congruence. }
  rewrite CheckerMore.bind_pure.
  destruct (py_len subjects) as [count | e] eqn:El.
  2: { do 2 eexists. repeat split; [ | left; reflexivity].
       intros r v n Hr _ Hj Hl. congruence. }
  do 2 eexists. repeat split.
  - intros r v n Hr _ Hj _. congruence.
  - right. exists response, count. repeat split; assumption.
Qed.

End Inspector.

(** The body of a 200 is returned as it is, and the body of a 401 is
    not. *)
Example inspector_subjects_on_two_registries :
  let self :=
    ConfluentInspector.init Demo.repr Demo.b64encode
      (VStr "https://registry.example") (VStr "key") (VStr "secret") in
  let listing :=
    mkHeaderNetwork unit
      (fun _ w => (Demo.answer 200 (Demo.strs Demo.names), w)) in
  fst (ConfluentInspector.get_all_subjects listing Demo.repr self
         (mkHNet (tt : hworld listing) []))
    = Ok (Demo.strs Demo.names) /\
  fst (ConfluentInspector.get_all_subjects Demo.refusing Demo.repr self
         (mkHNet (tt : hworld Demo.refusing) []))
    = Ok (VList []).
Proof. split; reflexivity. Qed.

Section Diagnostic.
Import CheckConfluent.

Variable H : header_network.
Variable repr : value -> string.
Variable b64encode : string -> string.
Variable url : string.
Variables key secret : value.

#[local] Abbreviation request_1 := (request_1 repr b64encode url key secret).
#[local] Abbreviation request_2 := (request_2 repr b64encode url key secret).
#[local] Abbreviation request_3 := (request_3 repr b64encode url key secret).

Lemma completes_test_3 (s : hnet_state H) :
  exists ok s',
    completes H (test_3 H repr b64encode url key secret) s = (Ok ok, s') /\
    hsent s' = append (hsent s) request_3.
Proof.
  unfold completes, try_catch, test_3, bind at 1, bind at 1,
    requests_get_headers.
  cbv zeta. unfold CheckConfluent.request_3.
  destruct (hsend H _ _) as [[response | e] w];
    [ | do 2 eexists; split; reflexivity ].
  destruct (status_code response =? 200)%Z;
    [ | do 2 eexists; split; reflexivity ].
  rewrite CheckerMore.bind_pure.
  destruct (json response) as [config_data | e];
    [ | do 2 eexists; split; reflexivity ].
  rewrite CheckerMore.bind_pure.
  destruct (py_get config_data "compatibilityLevel" (VStr "N/A"));
    do 2 eexists; split; reflexivity.
Qed.

Lemma len_then_iter (v : value) (n : nat) :
  py_len v = Ok n -> exists items, py_iter v = Ok items.
Proof.
  destruct v; cbn; try discriminate; intros _; eexists; reflexivity.
Qed.

Lemma completes_test_1 (s : hnet_state H) (response : response)
  (w : hworld H) :
  hsend H request_1 (the_hworld s) = (Ok response, w) ->
  completes H (test_1 H repr b64encode url key secret) s
    = (Ok true, mkHNet w (append (hsent s) request_1)).
Proof.
  intros Hs.
  unfold completes, try_catch, test_1, bind, requests_get_headers.
  cbv zeta. unfold CheckConfluent.request_1 in Hs. rewrite Hs.
  reflexivity.
Qed.

Lemma completes_test_2 (s : hnet_state H) (response : response)
  (w : hworld H) :
  hsend H request_2 (the_hworld s) = (Ok response, w) ->
  uncountable response = false ->
  completes H (test_2 H repr b64encode url key secret) s
    = (Ok true, mkHNet w (append (hsent s) request_2)).
Proof.
  intros Hs Hc.
  unfold completes, try_catch, test_2, bind at 1, bind at 1,
    requests_get_headers.
  cbv zeta. unfold CheckConfluent.request_2 in Hs. rewrite Hs.
  unfold uncountable in Hc.
  destruct (status_code response =? 200)%Z; [ | reflexivity].
  cbn [andb] in Hc. rewrite CheckerMore.bind_pure.
  destruct (json response) as [subjects | e]; [ | discriminate].
  cbn [rbind] in Hc. rewrite CheckerMore.bind_pure.
  destruct (py_len subjects) as [count | e] eqn:El; [ | discriminate].
  destruct (py_truthy subjects); [ | reflexivity].
  rewrite CheckerMore.bind_pure.
  destruct (len_then_iter _ _ El) as (items & ->).
  reflexivity.
Qed.

(** X26.  The diagnostic of the registry does not look at the status of
    the answers: when the first two requests are answered, with any
    status, and the listing is not a 200 with a body that cannot be
    counted, it sends its three requests and returns True, whatever
    becomes of the third. *)
Theorem diagnostic_ignores_the_status (s : hnet_state H)
  (response_1 response_2 : response) (w1 w2 : hworld H) :
  hsend H request_1 (the_hworld s) = (Ok response_1, w1) ->
  hsend H request_2 w1 = (Ok response_2, w2) ->
  uncountable response_2 = false ->
  exists s',
    check_schema_registry H repr b64encode url key secret s
      = (Ok true, s') /\
    hsent s' = (hsent s ++ [request_1; request_2; request_3])%list.
Proof.
  intros H1 H2 Hc.
  unfold check_schema_registry, bind.
  rewrite (completes_test_1 _ _ _ H1). cbn [negb].
  rewrite (completes_test_2 (mkHNet w1 _) _ _ H2 Hc). cbn [negb].
  match goal with
  | |- context [completes H _ ?t] =>
      destruct (completes_test_3 t) as (ok & s' & -> & Hsent)
  end.
  exists s'. split; [reflexivity | ].
  rewrite Hsent. unfold append. cbn [hsent].
  rewrite <- !app_assoc. reflexivity.
Qed.

End Diagnostic.

(** The registry answers 401 to every request of the diagnostic. *)
Lemma diagnostic_ignores_the_status_witness :
  let s : hnet_state Demo.refusing := mkHNet (tt : hworld Demo.refusing) [] in
  let url := "https://registry.example" in
  let authorization := "Basic a2V5OnNlY3JldA==" in
  (hsend Demo.refusing
     (CheckConfluent.request_1 Demo.repr Demo.b64encode url
        (VStr "key") (VStr "secret"))
     (the_hworld s) = (Ok Demo.unauthorized, tt) /\
   hsend Demo.refusing
     (CheckConfluent.request_2 Demo.repr Demo.b64encode url
        (VStr "key") (VStr "secret"))
     tt = (Ok Demo.unauthorized, tt) /\
   CheckConfluent.uncountable Demo.unauthorized = false) /\
  exists s',
    CheckConfluent.check_schema_registry Demo.refusing Demo.repr
      Demo.b64encode url (VStr "key") (VStr "secret") s
      = (Ok true, s') /\
    hsent s' =
      [mkHeaderRequest url authorization 10;
       mkHeaderRequest (url ++ "/subjects") authorization 10;
       mkHeaderRequest (url ++ "/config") authorization 10].
Proof.
  cbv zeta. split; [repeat split | ].
  exact (diagnostic_ignores_the_status Demo.refusing Demo.repr
           Demo.b64encode "https://registry.example"
           (VStr "key") (VStr "secret")
           (mkHNet (tt : hworld Demo.refusing) [])
           Demo.unauthorized Demo.unauthorized tt tt
           eq_refl eq_refl eq_refl).
Defined.

End InspectorMore.

(* ================================================================== *)
(** * The route of the schemas *)
(* ================================================================== *)

Module AppMore.
Import Py Http PyFacts App.

Section Routes.

Variable N : network.
Variable repr : value -> string.

Lemma bind_run {S A B} (m : M S A) (k : A -> M S B) (s : S) :
  bind m k s =
    match m s with
    | (Ok a, s') => k a s'
    | (Raise e, s') => (Raise e, s')
    end.
Proof. reflexivity. Qed.

Lemma details_subject (self : SchemaPurger.purger) (subject : value)
  (s : net_state N) :
  exists details s',
    SchemaPurger.get_subject_details N repr self subject s
      = (Ok details, s') /\
    details_of subject details.
Proof.
  unfold SchemaPurger.get_subject_details, try_catch, details_of.
  match goal with
  | |- context [match ?m s with _ => _ end] =>
      destruct (m s) as [[d | e] s'] eqn:E
  end.
  - exists d, s'. split; [reflexivity | ].
    unfold bind, pure, ret in E.
    repeat match type of E with
           | match ?x with _ => _ end = _ => destruct x; try discriminate E
           | (let (_, _) := ?x in _) = _ => destruct x; try discriminate E
           end.
    injection E as <- _. reflexivity.
  - do 2 eexists. split; reflexivity.
Qed.

Lemma details_loop (self : SchemaPurger.purger) (items : list value) :
  forall (acc : list value) (s : net_state N),
  exists more s',
    for_loop (detail N repr self) items acc s = (Ok (acc ++ more)%list, s') /\
    Forall2 details_of items more.
Proof.
  induction items as [ | subject items IH]; intros acc s.
  - exists [], s. cbn. rewrite app_nil_r. split; [reflexivity | constructor].
  - cbn [for_loop]. unfold bind at 1, detail at 1, bind at 1.
    destruct (details_subject self subject s) as (details & s1 & -> & Hd).
    unfold ret at 1.
    destruct (IH (append acc details) s1) as (more & s2 & -> & Hall).
    exists (details :: more), s2. split.
    + unfold append. now rewrite <- app_assoc.
    + constructor; assumption.
Qed.

(** The items of [subjects[:n]] are as many as the subjects, up to [n]. *)
Lemma slice_length (subjects first : value) (items : list value)
  (total_count n : nat) :
  py_slice_to subjects n = Ok first ->
  py_iter first = Ok items ->
  py_len subjects = Ok total_count ->
  List.length items = Nat.min total_count n.
Proof.
  intros Hs Hi Hl.
  destruct subjects as [ | b | m | f | t | l | d];
    unfold py_slice_to in Hs; try discriminate Hs;
    inversion Hs; subst first;
    unfold py_iter in Hi; inversion Hi; subst items;
    unfold py_len in Hl; inversion Hl; subst total_count.
  - rewrite chars_length, characters_slice, length_firstn.
    apply Nat.min_comm.
  - rewrite length_firstn. apply Nat.min_comm.
Qed.

(** X27.  The route of the schemas always answers.  For an environment
    other than "default" it answers 400 and sends nothing.  For "default",
    when the filter (if a criterion is given) or the listing (otherwise)
    raises, or when the subjects cannot be sliced and iterated, it answers
    500 with the text of that exception; in every other case it answers
    200 with the details of the first 100 subjects at most, one for each
    of them in order: [returned_count] is the smaller of [total_count] and
    100. *)
Theorem get_schemas_answer (env : string) (include_deleted : bool)
  (min_versions : option Z) (pattern : option string) (s : net_state N) :
  (env <> "default" /\
   get_schemas N repr env include_deleted min_versions pattern s =
     (Ok (lit [("error", VStr ("Invalid environment: " ++ env))], 400%Z),
      s))
  \/
  (env = "default" /\
   match listing N repr default_purger include_deleted min_versions
           pattern s with
   | (Raise e, s1) =>
       get_schemas N repr env include_deleted min_versions pattern s =
         (Ok (error_body e, 500%Z), s1)
   | (Ok subjects, s1) =>
       match rbind (py_slice_to subjects 100) py_iter with
       | Raise e =>
           get_schemas N repr env include_deleted min_versions pattern s =
             (Ok (error_body e, 500%Z), s1)
       | Ok items =>
           exists total_count detailed_subjects s',
             get_schemas N repr env include_deleted min_versions pattern s =
               (Ok (lit [("environment", VStr env);
                         ("total_count", VInt (Z.of_nat total_count));
                         ("returned_count",
                           VInt (Z.of_nat (Nat.min total_count 100)));
                         ("subjects", VList detailed_subjects)],
                    200%Z),
                s') /\
             py_len subjects = Ok total_count /\
             List.length items = Nat.min total_count 100 /\
             Forall2 details_of items detailed_subjects
       end
   end).
Proof.
  unfold get_schemas, ENVIRONMENTS. cbn [lookup].
  destruct (String.eqb "default" env) eqn:Eenv.
  2: { apply String.eqb_neq in Eenv. left. split; [congruence | reflexivity]. }
  apply String.eqb_eq in Eenv. symmetry in Eenv. right.
  split; [assumption | ].
  change (negb (configured (mkEnvironment "xxxx" "xxxx" "xxxxx")))
    with false.
  cbv iota zeta. cbn [env_endpoint env_api_key env_api_secret].
  fold default_purger.
  unfold try_catch. rewrite bind_run.
  destruct (listing N repr default_purger include_deleted min_versions
              pattern s) as [[subjects | e] s1]; [ | reflexivity].
  rewrite CheckerMore.bind_pure.
  destruct (py_slice_to subjects 100) as [first_100 | e] eqn:Es;
    cbn [rbind]; [ | reflexivity].
  rewrite CheckerMore.bind_pure.
  destruct (py_iter first_100) as [items | e] eqn:Ei; [ | reflexivity].
  rewrite bind_run.
  destruct (details_loop default_purger items [] s1)
    as (more & s2 & -> & Hall).
  cbn [app]. rewrite CheckerMore.bind_pure.
  assert (exists total_count, py_len subjects = Ok total_count)
    as (total_count & El).
  { destruct subjects; try discriminate Es; eexists; reflexivity. }
  rewrite El.
  pose proof (slice_length _ _ _ _ _ Es Ei El) as Hlen.
  exists total_count, more, s2.
  rewrite <- Hlen, (Forall2_length Hall).
  repeat split; auto.
Qed.

End Routes.

End AppMore.
